(** * Review collection pipeline: shallow embedding and verified properties

    The repository holds Node.js scrapers for the App Store (one
    storefront, and worldwide), for Google Play (worldwide) and for Zendesk
    tickets.  Each script is embedded below as Rocq functions over a small
    model of the JavaScript values it manipulates.  Calls that leave the
    script (the review providers, the clock, the random generator, the file
    system) are parameters of the model. *)

From Stdlib Require Import Ascii.
From stdpp Require Import gmap strings pretty sorting list.

Local Open Scope string_scope.
Local Open Scope list_scope.
Local Open Scope Z_scope.
Set Warnings "-register-all".

(** ** JavaScript values and the built-ins the scripts rely on *)

Module JS.

(** Values met in provider payloads.  [VNum] carries integer-valued
    numbers (scores, counters, identifiers, epoch milliseconds); [VDate]
    is a [Date] object with its time value, [None] being Invalid Date;
    [VArr] is an array.  A missing property reads as [VUndefined].
    A payload can hold more than this type does: numbers with a fraction
    and plain objects.  The scripts copy or print such a field, and a
    plain object in the place of a string or of an array makes them
    throw as a string in the place of an array does.  The properties
    below that need a field to be usable say which type they take it to
    have (see [Shapes]), so that they do not speak of the values left
    out here. *)
Inductive value : Type :=
| VUndefined
| VNull
| VBool (b : bool)
| VNum (n : Z)
| VStr (s : string)
| VDate (t : option Z)
| VArr (items : list value).

(** Exceptions the scripts can meet. *)
Inductive error : Type :=
| TypeError (what : string)
| RangeError (what : string)
| Rejected (what : string)
| SystemError (what : string).

Inductive result (A : Type) : Type :=
| Ok (a : A)
| Throw (e : error).
Arguments Ok {A} a.
Arguments Throw {A} e.

Definition bind {A B} (m : result A) (k : A -> result B) : result B :=
  match m with
  | Ok a => k a
  | Throw e => Throw e
  end.

Fixpoint mapM {A B} (f : A -> result B) (l : list A) : result (list B) :=
  match l with
  | [] => Ok []
  | x :: rest =>
      bind (f x) (fun y => bind (mapM f rest) (fun ys => Ok (y :: ys)))
  end.

(** The host environment: what the engine and the clock decide.
    [Date_parse] is [Date.parse] ([None] for NaN), [Date_toISOString]
    formats a valid time value, [Date_toString] is
    [Date.prototype.toString]; [Date_now i] and [Math_random36 i] are the
    values of [Date.now()] and of
    [Math.random().toString(36).substr(2, 9)] when the output record of
    index [i] is built. *)
Class Host : Type := {
  Date_parse : string -> option Z;
  Date_toISOString : Z -> string;
  Date_toString : option Z -> string;
  Date_now : nat -> Z;
  Math_random36 : nat -> string
}.

(** ToBoolean. *)
Definition truthy (v : value) : bool :=
  match v with
  | VUndefined | VNull => false
  | VBool b => b
  | VNum n => negb (n =? 0)
  | VStr EmptyString => false
  | VStr (String _ _) => true
  | VDate _ | VArr _ => true
  end.

(** [a || b]. *)
Definition or_else (a b : value) : value := if truthy a then a else b.

(** [===].  Two distinct objects (arrays, dates) are never identical, and
    payload fields never alias each other. *)
Definition strict_eq (a b : value) : bool :=
  match a, b with
  | VUndefined, VUndefined => true
  | VNull, VNull => true
  | VBool x, VBool y => Bool.eqb x y
  | VNum x, VNum y => (x =? y)
  | VStr x, VStr y => String.eqb x y
  | _, _ => false
  end.

Fixpoint join_strings (sep : string) (l : list string) : string :=
  match l with
  | [] => EmptyString
  | [s] => s
  | s :: rest => s +:+ sep +:+ join_strings sep rest
  end.

Section WithHost.
Context {host : Host}.

(** ToString, as applied by template literals, string [+] and
    [String(v)].  Array elements that are undefined or null print as
    the empty string.  A number prints as its decimal digits, which is
    what the engine gives for an integer that a number holds exactly and
    that is below 10^21 in absolute value; identifiers are kept below
    2^53 where their printed form matters. *)
Fixpoint to_string (v : value) : string :=
  match v with
  | VUndefined => "undefined"
  | VNull => "null"
  | VBool true => "true"
  | VBool false => "false"
  | VNum n => pretty n
  | VStr s => s
  | VDate t => Date_toString t
  | VArr items =>
      join_strings ","
        (map (fun x => match x with
                       | VUndefined | VNull => EmptyString
                       | _ => to_string x
                       end) items)
  end.

(** [Array.prototype.join(sep)]. *)
Definition array_join (sep : string) (items : list value) : string :=
  join_strings sep
    (map (fun x => match x with
                   | VUndefined | VNull => EmptyString
                   | _ => to_string x
                   end) items).

Definition TimeClip (t : Z) : option Z :=
  if Z.abs t <=? 8640000000000000 then Some t else None.

(** [new Date(v)]: the time value of the new object. *)
Definition new_Date (v : value) : option Z :=
  match v with
  | VDate t => t
  | VStr s => Date_parse s
  | VArr _ => Date_parse (to_string v)
  | VUndefined => None
  | VNull => Some 0
  | VBool b => Some (if b then 1 else 0)
  | VNum n => TimeClip n
  end.

(** [d.toISOString()] throws on an invalid date. *)
Definition toISOString (t : option Z) : result string :=
  match t with
  | Some ms => Ok (Date_toISOString ms)
  | None => Throw (RangeError "Invalid time value")
  end.
End WithHost.

(** [s.split('T')[0]]. *)
Fixpoint split_T_head (s : string) : string :=
  match s with
  | EmptyString => EmptyString
  | String c rest =>
      if Ascii.eqb c "T"%char then EmptyString
      else String c (split_T_head rest)
  end.

(** The global replace that doubles every double-quote character of a
    string (the CSV escaping used by every script). *)
Definition quote : ascii := "034"%char.

Fixpoint double_quotes (s : string) : string :=
  match s with
  | EmptyString => EmptyString
  | String c rest =>
      if Ascii.eqb c quote then String quote (String quote (double_quotes rest))
      else String c (double_quotes rest)
  end.

(** The same call on a value: only strings have a [replace] method. *)
Definition replace_quotes (v : value) : result string :=
  match v with
  | VStr s => Ok (double_quotes s)
  | _ => Throw (TypeError "replace is not a function")
  end.

(** [Array.prototype.sort(comparefn)].  A comparator result that is NaN
    ([None]) is read as +0.  The sort is stable: it is modelled by the
    insertion, from the last element to the first, of each element before
    the first element it does not have to follow.  This is the result of
    every engine when the comparator is consistent (a total preorder).
    When it is not, as with a date that cannot be read, the language
    leaves the order to the engine: of such inputs the properties below
    use only that the result is a rearrangement of the input. *)
Definition cmp_le {A} (comparefn : A -> A -> option Z) (a b : A) : Prop :=
  default 0 (comparefn a b) <= 0.

Global Instance cmp_le_dec {A} (comparefn : A -> A -> option Z) :
  RelDecision (cmp_le comparefn).
Proof. intros a b. unfold cmp_le. apply _. Defined.

Fixpoint sort_insert {A} (comparefn : A -> A -> option Z) (x : A)
    (l : list A) : list A :=
  match l with
  | [] => [x]
  | y :: rest =>
      if decide (cmp_le comparefn x y) then x :: y :: rest
      else y :: sort_insert comparefn x rest
  end.

Definition Array_sort {A} (comparefn : A -> A -> option Z)
    (l : list A) : list A :=
  foldr (sort_insert comparefn) [] l.

(** [array.map((x, i) => f(i, x))] when the callback may throw. *)
Fixpoint imapM_from {A B} (i : nat) (f : nat -> A -> result B)
    (l : list A) : result (list B) :=
  match l with
  | [] => Ok []
  | x :: rest =>
      bind (f i x) (fun y =>
      bind (imapM_from (S i) f rest) (fun ys => Ok (y :: ys)))
  end.

Definition imapM {A B} (f : nat -> A -> result B) (l : list A)
    : result (list B) :=
  imapM_from 0 f l.

Definition newline : string := String "010"%char EmptyString.
Definition dq : string := String quote EmptyString.

(** *** Scripts that touch the file system

    [fs.writeFileSync] and [fs.statSync] are calls into the host; each
    may throw.  A run is a function of the state of the file system and
    leaves a trace of the calls it made. *)
Section Effects.
Context {content : Type}.

Class FileSystem : Type := {
  fs_state : Type;
  writeFileSync : string -> content -> fs_state -> option error * fs_state;
  statSync : string -> fs_state -> result Z
}.

Inductive event : Type :=
| WriteFile (filename : string) (data : content)
| StatFile (filename : string)
| ConsoleError (e : error).

Context {fs : FileSystem}.

Record world : Type := { files : fs_state; trace : list event }.

Definition IO (A : Type) : Type := world -> result A * world.

Definition io_ret {A} (a : A) : IO A := fun w => (Ok a, w).

Definition io_bind {A B} (m : IO A) (k : A -> IO B) : IO B :=
  fun w =>
    match m w with
    | (Ok a, w') => k a w'
    | (Throw e, w') => (Throw e, w')
    end.

Definition lift {A} (r : result A) : IO A := fun w => (r, w).

Definition fs_writeFileSync (filename : string) (data : content)
    : IO unit :=
  fun w =>
    let tr := trace w ++ [WriteFile filename data] in
    match writeFileSync filename data (files w) with
    | (None, fs') => (Ok tt, {| files := fs'; trace := tr |})
    | (Some e, fs') => (Throw e, {| files := fs'; trace := tr |})
    end.

Definition fs_statSync (filename : string) : IO Z :=
  fun w =>
    (statSync filename (files w),
     {| files := files w; trace := trace w ++ [StatFile filename] |}).

Definition console_error (e : error) : IO unit :=
  fun w =>
    (Ok tt, {| files := files w; trace := trace w ++ [ConsoleError e] |}).

(** [try { body } catch (error) { handler(error) }]. *)
Definition try_catch {A} (body : IO A) (handler : error -> IO A)
    : IO A :=
  fun w =>
    match body w with
    | (Ok a, w') => (Ok a, w')
    | (Throw e, w') => handler e w'
    end.
End Effects.
Arguments FileSystem content : clear implicits.
Arguments event content : clear implicits.

End JS.

(** ** Google Play, worldwide
    (google_play_mendi_reviews_scraper_WORLDWIDE.js) *)

Module GooglePlay.
Import JS.

(** A review object as the provider returns it, with the fields the
    script reads; [country] is added by the script. *)
Record review : Type := {
  userName : value;
  text : value;
  date : value;
  score : value;
  helpfulCount : value;
  replyDate : value;
  replyText : value;
  country : value
}.

Section WithHost.
Context {host : Host}.

(** The key built by the template literal
    [`${review.userName}_${review.text}_${review.date}`]. *)
Definition dedup_key (r : review) : string :=
  to_string (userName r) +:+ "_" +:+ to_string (text r) +:+ "_"
    +:+ to_string (date r).

(** The [for ... of] loop of [removeDuplicates], with its two mutable
    variables [seen] and [unique]. *)
Fixpoint removeDuplicates_loop (reviews : list review)
    (seen : gset string) (unique : list review) : list review :=
  match reviews with
  | [] => unique
  | r :: rest =>
      let key := dedup_key r in
      if decide (key ∈ seen)
      then removeDuplicates_loop rest seen unique
      else removeDuplicates_loop rest ({[key]} ∪ seen) (unique ++ [r])
  end.

Definition removeDuplicates (reviews : list review) : list review :=
  removeDuplicates_loop reviews ∅ [].
End WithHost.

(** *** The provider *)

(** What [await gplay.reviews(options)] gives: the promise rejects, or
    resolves to an array, or to an object holding [data] and
    [nextPaginationToken]. *)
Inductive response : Type :=
| RejectedWith (e : error)
| ResolvedArray (reviews : list review)
| ResolvedObject (data : option (list review)) (nextPaginationToken : value).

(** [Array.isArray(result) ? result : (result.data || result)], read
    through [reviews && reviews.length > 0]: an object without [data] has
    no [length], so it counts as no reviews. *)
Definition reviews_of (result : response) : list review :=
  match result with
  | ResolvedArray reviews => reviews
  | ResolvedObject (Some data) _ => data
  | ResolvedObject None _ => []
  | RejectedWith _ => []
  end.

(** [result.nextPaginationToken]; an array has no such property. *)
Definition token_of (result : response) : value :=
  match result with
  | ResolvedObject _ token => token
  | _ => VUndefined
  end.

(** [{...r, country: countryCode}]. *)
Definition with_country (countryCode : string) (r : review) : review :=
  {| userName := userName r; text := text r; date := date r;
     score := score r; helpfulCount := helpfulCount r;
     replyDate := replyDate r; replyText := replyText r;
     country := VStr countryCode |}.

Definition COUNTRIES : list string :=
  [ "us"; "gb"; "ca"; "au"; "de"; "fr"; "it"; "es"; "nl"; "jp"; "kr"; "br";
    "mx"; "in"; "ru";
    "at"; "be"; "bg"; "hr"; "cy"; "cz"; "dk"; "ee"; "fi"; "gr"; "hu"; "ie";
    "lv"; "lt"; "lu"; "mt"; "pl"; "pt"; "ro"; "sk"; "si"; "se"; "no"; "ch";
    "is";
    "cn"; "hk"; "tw"; "sg"; "my"; "th"; "ph"; "id"; "vn"; "nz";
    "ar"; "cl"; "co"; "pe"; "uy"; "ve"; "cr"; "pa"; "gt"; "sv"; "hn"; "ni";
    "ae"; "sa"; "il"; "tr"; "za"; "eg"; "ma"; "ng"; "ke"; "gh";
    "pk"; "bd"; "lk"; "np" ].

Section Fetch.
(** [gplay_reviews country n token] is the outcome of the n-th request
    of a country's fetch; [token] is the pagination token put in the
    options, if the script holds a truthy one. *)
Variable gplay_reviews : string -> nat -> option value -> response.

(** The do-while loop of [scrapeCountryReviews] inside its [try];
    a rejected request lands in the [catch], which returns
    [allReviews].  [None] only when [fuel] runs out. *)
Fixpoint scrapeCountryReviews_loop (fuel : nat) (countryCode : string)
    (maxBatches : nat) (allReviews : list review)
    (nextPaginationToken : value) (batchCount : nat)
    : option (list review) :=
  match fuel with
  | O => None
  | S fuel' =>
      let batchCount := S batchCount in
      let options_token :=
        if truthy nextPaginationToken then Some nextPaginationToken
        else None in
      match gplay_reviews countryCode batchCount options_token with
      | RejectedWith _ => Some allReviews
      | result =>
          let reviews := reviews_of result in
          if (0 <? length reviews)%nat then
            let reviewsWithCountry :=
              map (with_country countryCode) reviews in
            let allReviews := allReviews ++ reviewsWithCountry in
            let nextPaginationToken := token_of result in
            if (length reviews <? 10)%nat then Some allReviews
            else if truthy nextPaginationToken
                    && (batchCount <? maxBatches)%nat
            then scrapeCountryReviews_loop fuel' countryCode maxBatches
                   allReviews nextPaginationToken batchCount
            else Some allReviews
          else Some allReviews
      end
  end.

(** [scrapeCountryReviews(countryCode, maxBatches = 10)]. *)
Definition scrapeCountryReviews (countryCode : string)
    (maxBatches : nat) : option (list review) :=
  scrapeCountryReviews_loop (S maxBatches) countryCode maxBatches
    [] VNull 0.

(** The [for] loop of [scrapeAllReviewsGlobal] over the countries, with
    [allGlobalReviews] and [countriesWithReviews]. *)
Fixpoint countries_loop (countries : list string)
    (allGlobalReviews : list review) (countriesWithReviews : nat)
    : option (list review * nat) :=
  match countries with
  | [] => Some (allGlobalReviews, countriesWithReviews)
  | country :: rest =>
      countryReviews ← scrapeCountryReviews country 10;
      if (0 <? length countryReviews)%nat
      then countries_loop rest (allGlobalReviews ++ countryReviews)
             (S countriesWithReviews)
      else countries_loop rest allGlobalReviews countriesWithReviews
  end.
End Fetch.

(** *** Output of the worldwide run *)

Module Json.
(** One object of [jsonData]. *)
Record entry : Type := {
  id : string;
  author : value;
  rating : value;
  review : value;
  date : value;
  helpful : value;
  reply_date : value;
  reply_text : value;
  platform : string;
  country : value
}.
End Json.

Definition csv_header : string :=
  "Date,Country,User Name,Score,Review Text,Helpful Count,Reply Date,Reply Text"
    +:+ newline.

Section Output.
Context {host : Host}.

(** The comparator [(a, b) => new Date(b.date) - new Date(a.date)];
    [None] is NaN. *)
Definition by_date_desc (a b : review) : option Z :=
  match new_Date (date b), new_Date (date a) with
  | Some tb, Some ta => Some (tb - ta)
  | _, _ => None
  end.

(** One CSV line. *)
Definition csv_row (r : review) : result string :=
  let date := or_else (date r) (VStr EmptyString) in
  bind (replace_quotes (or_else (country r) (VStr "unknown")))
    (fun country =>
  bind (replace_quotes (or_else (userName r) (VStr EmptyString)))
    (fun userName =>
  let score := or_else (score r) (VStr EmptyString) in
  bind (replace_quotes (or_else (text r) (VStr EmptyString)))
    (fun text =>
  let helpfulCount := or_else (helpfulCount r) (VStr EmptyString) in
  let replyDate := or_else (replyDate r) (VStr EmptyString) in
  bind (replace_quotes (or_else (replyText r) (VStr EmptyString)))
    (fun replyText =>
  Ok (dq +:+ to_string date +:+ dq +:+ "," +:+
      dq +:+ country +:+ dq +:+ "," +:+
      dq +:+ userName +:+ dq +:+ "," +:+
      dq +:+ to_string score +:+ dq +:+ "," +:+
      dq +:+ text +:+ dq +:+ "," +:+
      dq +:+ to_string helpfulCount +:+ dq +:+ "," +:+
      dq +:+ to_string replyDate +:+ dq +:+ "," +:+
      dq +:+ replyText +:+ dq))))).

(** One object of [jsonData]; [i] is the index of the record. *)
Definition json_entry (i : nat) (r : review) : Json.entry :=
  {| Json.id := "google_play_" +:+ pretty (Date_now i) +:+ "_"
                  +:+ Math_random36 i;
     Json.author := or_else (userName r) (VStr "Anonymous");
     Json.rating := or_else (score r) VNull;
     Json.review := or_else (text r) (VStr EmptyString);
     Json.date := or_else (date r) (VStr EmptyString);
     Json.helpful := or_else (helpfulCount r) (VNum 0);
     Json.reply_date := or_else (replyDate r) (VStr EmptyString);
     Json.reply_text := or_else (replyText r) (VStr EmptyString);
     Json.platform := "google_play";
     Json.country := or_else (country r) (VStr "unknown") |}.

(** [removeDuplicates], then the in-place sort. *)
Definition uniqueReviews (allGlobalReviews : list review) : list review :=
  Array_sort by_date_desc (removeDuplicates allGlobalReviews).

(** The two contents handed to [fs.writeFileSync]: the CSV text and the
    array given to [JSON.stringify]. *)
Definition outputs (allGlobalReviews : list review)
    : result (string * list Json.entry) :=
  let uniqueReviews := uniqueReviews allGlobalReviews in
  bind (mapM csv_row uniqueReviews) (fun rows =>
  let csv := csv_header +:+ join_strings newline rows in
  let jsonData := imap json_entry uniqueReviews in
  Ok (csv, jsonData)).

(** [scrapeAllReviewsGlobal], up to the contents of its two files. *)
Definition scrapeAllReviewsGlobal
    (gplay_reviews : string -> nat -> option value -> response)
    : option (result (string * list Json.entry)) :=
  '(allGlobalReviews, _) ← countries_loop gplay_reviews COUNTRIES [] 0;
  Some (outputs allGlobalReviews).
End Output.
End GooglePlay.


(** ** App Store, one storefront
    (apple_app_store_mendi_reviews_scraper.js) *)

Module AppStore.
Import JS.

(** A review object of the provider; [country] is only set by the
    worldwide script. *)
Record review : Type := {
  userName : value;
  text : value;
  score : value;
  title : value;
  version : value;
  helpfulCount : value;
  updated : value;
  date : value;
  country : value
}.

(** What [await store.reviews(options)] gives; [None] is a null or
    undefined result. *)
Inductive response : Type :=
| RejectedWith (e : error)
| Resolved (reviews : option (list review)).

Module Json.
Record entry : Type := {
  id : string;
  author : value;
  rating : value;
  review : value;
  title : value;
  date : string;
  helpful : value;
  version : value;
  platform : string
}.
End Json.

(** What the script hands to [fs.writeFileSync]: the CSV text, or the
    array it passes through [JSON.stringify]. *)
Inductive file_content : Type :=
| CsvText (csv : string)
| JsonArray (jsonData : list Json.entry).

Definition csv_header : string :=
  "Date,User Name,Score,Title,Review Text,Version,Helpful Count"
    +:+ newline.

Definition csvFilename (timestamp : string) : string :=
  "mendi_apple-app-store_reviews_" +:+ timestamp +:+ ".csv".

Definition jsonFilename (timestamp : string) : string :=
  "mendi_apple-app-store_reviews_" +:+ timestamp +:+ ".json".

Section Script.
Context {host : Host} {fs : FileSystem file_content}.

(** [store_reviews country page] is the outcome of the request for one
    page of one storefront. *)
Variable store_reviews : string -> nat -> response.

(** The do-while loop of [scrapeAllReviews]: it leaves on the first
    page without reviews or when [pageCount] reaches 200; a page under
    50 reviews is only logged.  A rejected request is thrown to the
    [catch] of the function.  [None] only when [fuel] runs out. *)
Fixpoint fetch_loop (fuel : nat) (allReviews : list review)
    (pageCount : nat) : option (result (list review)) :=
  match fuel with
  | O => None
  | S fuel' =>
      let pageCount := S pageCount in
      match store_reviews "us" pageCount with
      | RejectedWith e => Some (Throw e)
      | Resolved reviews =>
          let reviews := default [] reviews in
          if (0 <? length reviews)%nat then
            let allReviews := allReviews ++ reviews in
            if (pageCount <? 200)%nat
            then fetch_loop fuel' allReviews pageCount
            else Some (Ok allReviews)
          else Some (Ok allReviews)
      end
  end.

(** The date of a record, computed the same way for the CSV and for
    the JSON. *)
Definition format_date (r : review) : result string :=
  let dateField := or_else (updated r) (date r) in
  if truthy dateField then
    match dateField with
    | VDate t => bind (toISOString t) (fun iso => Ok (split_T_head iso))
    | VStr s => Ok s
    | _ => Ok (to_string dateField)
    end
  else Ok EmptyString.

Definition csv_row (r : review) : result string :=
  bind (format_date r) (fun date =>
  bind (replace_quotes (or_else (userName r) (VStr EmptyString)))
    (fun userName =>
  let score := or_else (score r) (VStr EmptyString) in
  bind (replace_quotes (or_else (title r) (VStr EmptyString)))
    (fun title =>
  bind (replace_quotes (or_else (text r) (VStr EmptyString)))
    (fun text =>
  bind (replace_quotes (or_else (version r) (VStr EmptyString)))
    (fun version =>
  let helpfulCount := or_else (helpfulCount r) (VStr EmptyString) in
  Ok (dq +:+ date +:+ dq +:+ "," +:+
      dq +:+ userName +:+ dq +:+ "," +:+
      dq +:+ to_string score +:+ dq +:+ "," +:+
      dq +:+ title +:+ dq +:+ "," +:+
      dq +:+ text +:+ dq +:+ "," +:+
      dq +:+ version +:+ dq +:+ "," +:+
      dq +:+ to_string helpfulCount +:+ dq)))))).

(** One object of [jsonData]; [i] is the index of the record. *)
Definition json_entry (i : nat) (r : review) : result Json.entry :=
  bind (format_date r) (fun date =>
  Ok {| Json.id := "app_store_" +:+ pretty (Date_now i) +:+ "_"
                     +:+ Math_random36 i;
        Json.author := or_else (userName r) (VStr "Anonymous");
        Json.rating := or_else (score r) VNull;
        Json.review := or_else (text r) (VStr EmptyString);
        Json.title := or_else (title r) (VStr EmptyString);
        Json.date := date;
        Json.helpful := or_else (helpfulCount r) (VNum 0);
        Json.version := or_else (version r) (VStr EmptyString);
        Json.platform := "app_store" |}).

(** What follows the loop inside the [try]: build the CSV, write it,
    read its size, build the JSON array, write it, read its size.  The
    statistics that follow are only printed. *)
Definition save_reviews (timestamp : string)
    (allReviews : list review) : IO unit :=
  io_bind (lift (mapM csv_row allReviews)) (fun rows =>
  let csv := csv_header +:+ join_strings newline rows in
  io_bind (fs_writeFileSync (csvFilename timestamp) (CsvText csv))
    (fun _ =>
  io_bind (fs_statSync (csvFilename timestamp)) (fun _ =>
  io_bind (lift (imapM json_entry allReviews)) (fun jsonData =>
  io_bind (fs_writeFileSync (jsonFilename timestamp)
             (JsonArray jsonData)) (fun _ =>
  io_bind (fs_statSync (jsonFilename timestamp)) (fun _ =>
  io_ret tt)))))).

(** [scrapeAllReviews]: one [try] around the loop and the two writes,
    one [catch] that prints the error. *)
Definition scrapeAllReviews (timestamp : string) : option (IO unit) :=
  fetched ← fetch_loop 200 [] 0;
  Some (try_catch
          (io_bind (lift fetched) (save_reviews timestamp))
          console_error).
End Script.
End AppStore.

(** ** App Store, worldwide (analyze_review_discrepancy.js) *)

Module AppStoreWorldwide.
Import JS.
Import AppStore.

(** [{...r, country: countryCode}]. *)
Definition with_country (countryCode : string) (r : review) : review :=
  {| userName := userName r; text := text r; score := score r;
     title := title r; version := version r;
     helpfulCount := helpfulCount r; updated := updated r;
     date := date r; country := VStr countryCode |}.

(** The three mutable variables of [scrapeCountryReviews]. *)
Record fetch_state : Type := {
  allReviews : list review;
  pageCount : nat;
  consecutiveEmptyPages : nat
}.

(** How the loop was left. *)
Inductive exit : Type :=
| FewReviews
| EmptyPages
| PageLimit
| Caught (e : error).

Section Fetch.
Variable store_reviews : string -> nat -> response.

(** The do-while loop of [scrapeCountryReviews] inside its [try].
    [None] only when [fuel] runs out. *)
Fixpoint scrapeCountryReviews_loop (fuel : nat) (countryCode : string)
    (maxPages : nat) (st : fetch_state) : option (exit * fetch_state) :=
  match fuel with
  | O => None
  | S fuel' =>
      let pageCount := S (pageCount st) in
      match store_reviews countryCode pageCount with
      | RejectedWith e =>
          Some (Caught e,
                {| allReviews := allReviews st; pageCount := pageCount;
                   consecutiveEmptyPages := consecutiveEmptyPages st |})
      | Resolved reviews =>
          let reviews := default [] reviews in
          if (0 <? length reviews)%nat then
            let reviewsWithCountry :=
              map (with_country countryCode) reviews in
            let st' :=
              {| allReviews := allReviews st ++ reviewsWithCountry;
                 pageCount := pageCount;
                 consecutiveEmptyPages := 0 |} in
            if (length reviews <? 5)%nat then Some (FewReviews, st')
            else if (pageCount <? maxPages)%nat
            then scrapeCountryReviews_loop fuel' countryCode maxPages st'
            else Some (PageLimit, st')
          else
            let st' :=
              {| allReviews := allReviews st;
                 pageCount := pageCount;
                 consecutiveEmptyPages :=
                   S (consecutiveEmptyPages st) |} in
            if (2 <=? consecutiveEmptyPages st')%nat
            then Some (EmptyPages, st')
            else if (pageCount <? maxPages)%nat
            then scrapeCountryReviews_loop fuel' countryCode maxPages st'
            else Some (PageLimit, st')
      end
  end.

Definition initial : fetch_state :=
  {| allReviews := []; pageCount := 0; consecutiveEmptyPages := 0 |}.

(** The run of the loop of [scrapeCountryReviews(countryCode,
    maxPages = 20)], with the state it ends in. *)
Definition scrapeCountryReviews_run (countryCode : string)
    (maxPages : nat) : option (exit * fetch_state) :=
  scrapeCountryReviews_loop (S maxPages) countryCode maxPages initial.

(** [scrapeCountryReviews]: both the normal exit and the [catch] return
    [allReviews]. *)
Definition scrapeCountryReviews (countryCode : string) (maxPages : nat)
    : option (list review) :=
  '(_, st) ← scrapeCountryReviews_run countryCode maxPages;
  Some (allReviews st).
End Fetch.
End AppStoreWorldwide.

(** ** Zendesk tickets (zendesk_tickets_scraper.js) *)

Module Zendesk.
Import JS.

(** One element of the satisfaction ratings: the properties read by the
    script. *)
Record satisfaction : Type := {
  ticket_id : value;
  score : value
}.

(** A ticket: the properties read by the script.  The argument of
    [ticketToRating] also carries [satisfaction_rating]. *)
Record ticket : Type := {
  id : value;
  subject : value;
  description : value;
  tags : value;
  status : value;
  priority : value;
  created_at : value;
  requester_id : value;
  satisfaction_rating : option satisfaction
}.

(** [{...ticket, satisfaction_rating: satisfaction}]. *)
Definition with_satisfaction_rating (t : ticket)
    (satisfaction : option satisfaction) : ticket :=
  {| id := id t; subject := subject t; description := description t;
     tags := tags t; status := status t; priority := priority t;
     created_at := created_at t; requester_id := requester_id t;
     satisfaction_rating := satisfaction |}.

(** [ticketToRating]: [null] or a number. *)
Definition ticketToRating (ticket : ticket) : value :=
  let returned : option value :=
    match satisfaction_rating ticket with
    | Some satisfaction_rating =>
        if truthy (score satisfaction_rating) then
          let score := score satisfaction_rating in
          if strict_eq score (VStr "offered") then Some VNull
          else if strict_eq score (VStr "unoffered") then Some VNull
          else if strict_eq score (VStr "received") then Some VNull
          else if strict_eq score (VStr "good") then Some (VNum 5)
          else if strict_eq score (VStr "bad") then Some (VNum 1)
          else None
        else None
    | None => None
    end in
  match returned with
  | Some rating => rating
  | None =>
      let rating := 3 in
      let rating :=
        if strict_eq (status ticket) (VStr "solved")
           || strict_eq (status ticket) (VStr "closed")
        then rating + 1
        else if strict_eq (status ticket) (VStr "open")
                || strict_eq (status ticket) (VStr "pending")
        then rating - 1
        else rating in
      let rating :=
        if strict_eq (priority ticket) (VStr "urgent")
           || strict_eq (priority ticket) (VStr "high")
        then rating - 1
        else if strict_eq (priority ticket) (VStr "low")
        then rating + 1
        else rating in
      VNum (Z.max 1 (Z.min 5 rating))
  end.

(** [v.length] for a truthy [v]: strings and arrays have one. *)
Definition length_of (v : value) : value :=
  match v with
  | VStr s => VNum (Z.of_nat (String.length s))
  | VArr items => VNum (Z.of_nat (length items))
  | _ => VUndefined
  end.

(** [n > 0] where [n] is a length or undefined. *)
Definition gt_zero (n : value) : bool :=
  match n with
  | VNum n => 0 <? n
  | _ => false
  end.

Definition nonempty (s : string) : bool :=
  match s with
  | EmptyString => false
  | String _ _ => true
  end.

Module Json.
(** One review object built from a ticket. *)
Record entry : Type := {
  id : string;
  author : string;
  rating : value;
  review : string;
  title : value;
  date : string;
  helpful : Z;
  platform : string;
  ticket_id : value;
  status : value;
  priority : value;
  satisfaction_score : value;
  tags : value
}.
End Json.

Section WithHost.
Context {host : Host}.

(** [extractTicketText]; [ticket.tags.join] exists on arrays only. *)
Definition extractTicketText (ticket : ticket) : result string :=
  let text := EmptyString in
  let text :=
    if truthy (subject ticket)
    then text +:+ to_string (subject ticket)
    else text in
  let text :=
    if truthy (description ticket)
       && negb (strict_eq (description ticket) (subject ticket))
    then text +:+ (if nonempty text
                   then ". " +:+ to_string (description ticket)
                   else to_string (description ticket))
    else text in
  bind
    (if truthy (tags ticket) && gt_zero (length_of (tags ticket)) then
       match tags ticket with
       | VArr items =>
           Ok (text +:+ " [Tags: " +:+ array_join ", " items +:+ "]")
       | _ => Throw (TypeError "ticket.tags.join is not a function")
       end
     else Ok text)
    (fun text =>
       Ok (if nonempty text then text else "No description available")).

(** The properties that [ratingsMap] owns once the [forEach] has filled
    it; a property key is the string of the id.  A rating whose
    [ticket_id] prints as [__proto__] is not stored as a property: the
    assignment makes it the prototype of the map.  Reading [__proto__]
    gives it back either way; reading a key that names one of the
    properties of such a rating would give that property, which this
    model leaves out. *)
Definition ratingsMap_of (satisfactionRatings : list satisfaction)
    : gmap string satisfaction :=
  foldl (fun ratingsMap rating =>
           if truthy (ticket_id rating)
           then <[to_string (ticket_id rating) := rating]> ratingsMap
           else ratingsMap)
        ∅ satisfactionRatings.

(** [ratingsMap] is a plain object, [const ratingsMap = {}]: the names of
    the members that it inherits from [Object.prototype] in Node.js. *)
Definition Object_prototype_members : list string :=
  [ "constructor"; "__defineGetter__"; "__defineSetter__"; "hasOwnProperty";
    "__lookupGetter__"; "__lookupSetter__"; "isPrototypeOf";
    "propertyIsEnumerable"; "toString"; "valueOf"; "__proto__";
    "toLocaleString" ].

(** What the script sees of an inherited member, a function or an
    object: it is truthy and has neither [ticket_id] nor [score]. *)
Definition inherited_member : satisfaction :=
  {| ticket_id := VUndefined; score := VUndefined |}.

(** [ratingsMap[key]]: the property of that name, else the inherited
    member of that name, else undefined. *)
Definition ratingsMap_get (ratingsMap : gmap string satisfaction)
    (key : string) : option satisfaction :=
  match ratingsMap !! key with
  | Some rating => Some rating
  | None =>
      if decide (key ∈ Object_prototype_members)
      then Some inherited_member
      else None
  end.

(** The rating of a ticket given the joined satisfaction rating: the
    call of [ticketToRating] and the override that follows it. *)
Definition determine_rating (ticket : ticket)
    (satisfaction : option satisfaction) : value :=
  let rating :=
    ticketToRating (with_satisfaction_rating ticket satisfaction) in
  match satisfaction with
  | Some s =>
      if strict_eq (score s) (VStr "good") then VNum 5
      else if strict_eq (score s) (VStr "bad") then VNum 1
      else rating
  | None => rating
  end.

(** The callback of [tickets.map]; [i] is the index of the ticket. *)
Definition convertTicket (ratingsMap : gmap string satisfaction)
    (i : nat) (ticket : ticket) : result Json.entry :=
  let satisfaction := ratingsMap_get ratingsMap (to_string (id ticket)) in
  bind
    (if truthy (created_at ticket)
     then bind (toISOString (new_Date (created_at ticket)))
            (fun iso => Ok (split_T_head iso))
     else Ok EmptyString)
    (fun date =>
  let rating := determine_rating ticket satisfaction in
  bind (extractTicketText ticket) (fun review =>
  Ok {| Json.id := "zendesk_" +:+ to_string (id ticket) +:+ "_"
                     +:+ Math_random36 i;
        Json.author :=
          if truthy (requester_id ticket)
          then "User " +:+ to_string (requester_id ticket)
          else "Anonymous";
        Json.rating := rating;
        Json.review := review;
        Json.title := or_else (subject ticket) (VStr EmptyString);
        Json.date := date;
        Json.helpful := 0;
        Json.platform := "zendesk";
        Json.ticket_id := id ticket;
        Json.status := status ticket;
        Json.priority := priority ticket;
        Json.satisfaction_score :=
          match satisfaction with
          | Some s => score s
          | None => VNull
          end;
        Json.tags := or_else (tags ticket) (VArr []) |})).

(** [convertTicketsToReviews(tickets, satisfactionRatings)]. *)
Definition convertTicketsToReviews (tickets : list ticket)
    (satisfactionRatings : list satisfaction) : result (list Json.entry) :=
  let ratingsMap := ratingsMap_of satisfactionRatings in
  imapM (convertTicket ratingsMap) tickets.
End WithHost.
End Zendesk.

(** ** A host for the examples: an engine whose clock runs in UTC

    [Date.parse] is given for the date-time string format of the language
    standard ([YYYY-MM-DD], optionally followed by [THH:mm:ssZ] or
    [THH:mm:ss.sssZ]); every other string is an invalid date here. *)

Module UTCHost.
Import JS.

Definition digit (c : ascii) : option Z :=
  let n := Z.of_nat (nat_of_ascii c) in
  if (48 <=? n) && (n <=? 57) then Some (n - 48) else None.

Fixpoint digits_from (acc : Z) (s : string) : option Z :=
  match s with
  | EmptyString => Some acc
  | String c rest => d ← digit c; digits_from (10 * acc + d) rest
  end.

Definition number (s : string) : option Z :=
  match s with
  | EmptyString => None
  | _ => digits_from 0 s
  end.

Definition is_leap (y : Z) : bool :=
  ((y mod 4 =? 0) && negb (y mod 100 =? 0)) || (y mod 400 =? 0).

Definition days_in_month (y m : Z) : Z :=
  if m =? 2 then (if is_leap y then 29 else 28)
  else if (m =? 4) || (m =? 6) || (m =? 9) || (m =? 11) then 30
  else 31.

(** Days since 1970-01-01 of a civil date. *)
Definition days_from_civil (y m d : Z) : Z :=
  let y := if m <=? 2 then y - 1 else y in
  let era := y / 400 in
  let yoe := y - era * 400 in
  let mp := if 2 <? m then m - 3 else m + 9 in
  let doy := (153 * mp + 2) / 5 + d - 1 in
  let doe := yoe * 365 + yoe / 4 - yoe / 100 + doy in
  era * 146097 + doe - 719468.

(** The civil date of a day number. *)
Definition civil_from_days (z : Z) : Z * Z * Z :=
  let z := z + 719468 in
  let era := z / 146097 in
  let doe := z - era * 146097 in
  let yoe := (doe - doe / 1460 + doe / 36524 - doe / 146096) / 365 in
  let y := yoe + era * 400 in
  let doy := doe - (365 * yoe + yoe / 4 - yoe / 100) in
  let mp := (5 * doy + 2) / 153 in
  let d := doy - (153 * mp + 2) / 5 + 1 in
  let m := if mp <? 10 then mp + 3 else mp - 9 in
  (if m <=? 2 then y + 1 else y, m, d).

Definition sub (start len : nat) (s : string) : string :=
  String.substring start len s.

Definition parse_date (s : string) : option Z :=
  y ← number (sub 0 4 s);
  m ← number (sub 5 2 s);
  d ← number (sub 8 2 s);
  if String.eqb (sub 4 1 s) "-" && String.eqb (sub 7 1 s) "-"
     && (1 <=? m) && (m <=? 12) && (1 <=? d) && (d <=? days_in_month y m)
  then Some (days_from_civil y m d * 86400000)
  else None.

Definition parse_time (s : string) : option Z :=
  hh ← number (sub 11 2 s);
  mm ← number (sub 14 2 s);
  ss ← number (sub 17 2 s);
  if String.eqb (sub 10 1 s) "T" && String.eqb (sub 13 1 s) ":"
     && String.eqb (sub 16 1 s) ":"
     && (hh <=? 23) && (mm <=? 59) && (ss <=? 59)
  then Some ((hh * 60 + mm) * 60000 + ss * 1000)
  else None.

Definition parse (s : string) : option Z :=
  match String.length s with
  | 10%nat => parse_date s
  | 20%nat =>
      day ← parse_date s; time ← parse_time s;
      if String.eqb (sub 19 1 s) "Z" then Some (day + time) else None
  | 24%nat =>
      day ← parse_date s; time ← parse_time s; ms ← number (sub 20 3 s);
      if String.eqb (sub 19 1 s) "." && String.eqb (sub 23 1 s) "Z"
      then Some (day + time + ms) else None
  | _ => None
  end.

Fixpoint pad_go (width : nat) (n : Z) (acc : string) : string :=
  match width with
  | O => acc
  | S w =>
      pad_go w (n / 10)
        (String (ascii_of_nat (Z.to_nat (48 + n mod 10))) acc)
  end.

(** [n] written with [width] digits. *)
Definition pad (width : nat) (n : Z) : string := pad_go width n EmptyString.

Definition year_string (y : Z) : string :=
  if (0 <=? y) && (y <=? 9999) then pad 4 y
  else if 0 <=? y then "+" +:+ pad 6 y
  else "-" +:+ pad 6 (- y).

Definition clock_string (ms : Z) : string :=
  pad 2 (ms / 3600000) +:+ ":" +:+ pad 2 (ms / 60000 mod 60) +:+ ":"
    +:+ pad 2 (ms / 1000 mod 60).

Definition iso (t : Z) : string :=
  let '(y, m, d) := civil_from_days (t / 86400000) in
  let ms := t mod 86400000 in
  year_string y +:+ "-" +:+ pad 2 m +:+ "-" +:+ pad 2 d +:+ "T"
    +:+ clock_string ms +:+ "." +:+ pad 3 (ms mod 1000) +:+ "Z".

Definition day_name (days : Z) : string :=
  nth (Z.to_nat ((days + 4) mod 7))
    ["Sun"; "Mon"; "Tue"; "Wed"; "Thu"; "Fri"; "Sat"] EmptyString.

Definition month_name (m : Z) : string :=
  nth (Z.to_nat (m - 1))
    ["Jan"; "Feb"; "Mar"; "Apr"; "May"; "Jun"; "Jul"; "Aug"; "Sep"; "Oct";
     "Nov"; "Dec"] EmptyString.

Definition date_string (t : option Z) : string :=
  match t with
  | None => "Invalid Date"
  | Some t =>
      let days := t / 86400000 in
      let '(y, m, d) := civil_from_days days in
      day_name days +:+ " " +:+ month_name m +:+ " " +:+ pad 2 d +:+ " "
        +:+ year_string y +:+ " " +:+ clock_string (t mod 86400000)
        +:+ " GMT+0000 (Coordinated Universal Time)"
  end.

(** The run starts on 2025-07-27 at noon; the random strings are fixed. *)
Definition host : Host := {|
  Date_parse := parse;
  Date_toISOString := iso;
  Date_toString := date_string;
  Date_now := fun i => 1753617600000 + Z.of_nat i;
  Math_random36 := fun i => "k3x9q" +:+ pad 4 (Z.of_nat i)
|}.
End UTCHost.

(** ** Zendesk: fetching and writing (zendesk_tickets_scraper.js) *)

Module ZendeskRun.
Import JS Zendesk.

(** What a request to the API gives: the promise rejects (or the body
    cannot be read), or it resolves to a body of which the script reads
    the array of items ([tickets] or [satisfaction_ratings], [None] when
    the property is missing) and [next_page]. *)
Inductive response (A : Type) : Type :=
| RejectedWith (e : error)
| Resolved (items : option (list A)) (next_page : value).
Arguments RejectedWith {A} e.
Arguments Resolved {A} items next_page.

Section Fetch.
Context {A : Type}.

(** [get n url] is the outcome of the n-th request of a fetch: through
    [makeZendeskRequestFromUrl(nextPage)] when the script holds a truthy
    [nextPage] ([url] is then [Some nextPage]), and through
    [makeZendeskRequest] on the endpoint otherwise. *)
Variable get : nat -> option value -> response A.

(** The do-while loop shared by [fetchAllTickets] and
    [fetchSatisfactionRatings]; [limit] is the safety limit of the loop.
    A rejected request lands in the [catch], which returns what was
    gathered.  [None] only when [fuel] runs out. *)
Fixpoint fetch_pages_loop (limit fuel : nat) (all : list A)
    (nextPage : value) (pageCount : nat) : option (list A) :=
  match fuel with
  | O => None
  | S fuel' =>
      let pageCount := S pageCount in
      let url := if truthy nextPage then Some nextPage else None in
      match get pageCount url with
      | RejectedWith _ => Some all
      | Resolved items next_page =>
          let items := default [] items in
          if (0 <? length items)%nat then
            let all := all ++ items in
            let nextPage := next_page in
            if truthy nextPage && (pageCount <? limit)%nat
            then fetch_pages_loop limit fuel' all nextPage pageCount
            else Some all
          else Some all
      end
  end.

Definition fetch_pages (limit : nat) : option (list A) :=
  fetch_pages_loop limit (S limit) [] VNull 0.
End Fetch.

(** [fetchAllTickets()]: at most 200 pages. *)
Definition fetchAllTickets
    (get_tickets : nat -> option value -> response ticket)
    : option (list ticket) :=
  fetch_pages get_tickets 200.

(** [fetchSatisfactionRatings()]: at most 50 pages. *)
Definition fetchSatisfactionRatings
    (get_ratings : nat -> option value -> response satisfaction)
    : option (list satisfaction) :=
  fetch_pages get_ratings 50.

(** The three credentials of [ZENDESK_CONFIG], read from the
    environment. *)
Record config : Type := {
  subdomain : value;
  email : value;
  apiToken : value
}.

(** [new Error(message)], thrown by the script itself. *)
Definition Error (message : string) : error := Rejected message.

(** The two checks at the start of [scrapeZendeskData]. *)
Definition validate (cfg : config) : result unit :=
  if negb (truthy (subdomain cfg)) || negb (truthy (email cfg))
     || negb (truthy (apiToken cfg))
  then Throw (Error "Missing Zendesk credentials. Please set environment variables or update the script configuration.")
  else if strict_eq (subdomain cfg) (VStr "your-subdomain")
          || strict_eq (email cfg) (VStr "your-email@domain.com")
          || strict_eq (apiToken cfg) (VStr "your-api-token")
  then Throw (Error "Please configure your Zendesk credentials in the script or environment variables")
  else Ok tt.

(** What the script hands to [fs.writeFileSync]. *)
Inductive file_content : Type :=
| CsvText (csv : string)
| JsonArray (reviews : list Json.entry).

Definition csv_header : string :=
  "Date,User,Rating,Review,Title,Status,Priority,Satisfaction,Tags"
    +:+ newline.

Definition csvFilename (timestamp : string) : string :=
  "zendesk_tickets_" +:+ timestamp +:+ ".csv".

Definition jsonFilename (timestamp : string) : string :=
  "zendesk_reviews_" +:+ timestamp +:+ ".json".

Definition dashboardJsonPath : string :=
  "../../dashboard/data/zendesk_reviews.json".

Section Script.
Context {host : Host} {fs : FileSystem file_content}.

(** [r.tags ? r.tags.join(', ') : ''], then the doubling of the quotes;
    only arrays have [join]. *)
Definition tags_field (tags : value) : result string :=
  if truthy tags then
    match tags with
    | VArr items => Ok (double_quotes (array_join ", " items))
    | _ => Throw (TypeError "r.tags.join is not a function")
    end
  else Ok EmptyString.

(** One CSV line of a review built from a ticket. *)
Definition csv_row (r : Json.entry) : result string :=
  let date := Json.date r in
  let author := double_quotes (Json.author r) in
  let rating := or_else (Json.rating r) (VStr EmptyString) in
  let review := double_quotes (Json.review r) in
  bind (replace_quotes (or_else (Json.title r) (VStr EmptyString)))
    (fun title =>
  bind (replace_quotes (or_else (Json.status r) (VStr EmptyString)))
    (fun status =>
  bind (replace_quotes (or_else (Json.priority r) (VStr EmptyString)))
    (fun priority =>
  bind (replace_quotes
          (or_else (Json.satisfaction_score r) (VStr EmptyString)))
    (fun satisfaction =>
  bind (tags_field (Json.tags r)) (fun tags =>
  Ok (dq +:+ date +:+ dq +:+ "," +:+
      dq +:+ author +:+ dq +:+ "," +:+
      dq +:+ to_string rating +:+ dq +:+ "," +:+
      dq +:+ review +:+ dq +:+ "," +:+
      dq +:+ title +:+ dq +:+ "," +:+
      dq +:+ status +:+ dq +:+ "," +:+
      dq +:+ priority +:+ dq +:+ "," +:+
      dq +:+ satisfaction +:+ dq +:+ "," +:+
      dq +:+ tags +:+ dq)))))).

(** What [scrapeZendeskData] does inside its [try] once the tickets and
    the ratings are fetched: nothing when there is no ticket; else the
    conversion, the CSV file, the JSON file and its copy for the
    dashboard.  The statistics that follow are only printed. *)
Definition save_tickets (timestamp : string) (tickets : list ticket)
    (satisfactionRatings : list satisfaction) : IO unit :=
  if (length tickets =? 0)%nat then io_ret tt
  else
    io_bind (lift (convertTicketsToReviews tickets satisfactionRatings))
      (fun reviews =>
    io_bind (lift (mapM csv_row reviews)) (fun rows =>
    let csv := csv_header +:+ join_strings newline rows in
    io_bind (fs_writeFileSync (csvFilename timestamp) (CsvText csv))
      (fun _ =>
    io_bind (fs_writeFileSync (jsonFilename timestamp) (JsonArray reviews))
      (fun _ =>
    io_bind (fs_writeFileSync dashboardJsonPath (JsonArray reviews))
      (fun _ =>
    io_ret tt))))).

(** [scrapeZendeskData]: the checks of the configuration, the two fetches,
    [save_tickets], all in one [try] whose [catch] prints the error. *)
Definition scrapeZendeskData (cfg : config)
    (get_tickets : nat -> option value -> response ticket)
    (get_ratings : nat -> option value -> response satisfaction)
    (timestamp : string) : option (IO unit) :=
  tickets ← fetchAllTickets get_tickets;
  satisfactionRatings ← fetchSatisfactionRatings get_ratings;
  Some (try_catch
          (io_bind (lift (validate cfg)) (fun _ =>
           save_tickets timestamp tickets satisfactionRatings))
          console_error).

(** The ratings that the statistics count:
    [reviews.map(r => r.rating).filter(r => r)]. *)
Definition rated (reviews : list Json.entry) : list value :=
  filter (fun rating => truthy rating = true) (Json.rating <$> reviews).

(** [ratings.filter(r => r === i).length], printed for [i] from 1 to 5. *)
Definition star_count (i : Z) (ratings : list value) : nat :=
  length (filter (fun r => strict_eq r (VNum i) = true) ratings).
End Script.

(** *** The environment file

    The loader at the top of the script, on ASCII text: each line is split
    at the equals signs, and a line whose first two parts are not empty
    assigns the trimmed second part to the trimmed first one. *)

(** [s.split(c)] for a separator of one character. *)
Fixpoint split_on (c : ascii) (s : string) : list string :=
  match s with
  | EmptyString => [EmptyString]
  | String x rest =>
      if Ascii.eqb x c then EmptyString :: split_on c rest
      else match split_on c rest with
           | first :: others => String x first :: others
           | [] => [String x EmptyString]
           end
  end.

(** The white space and line ends of ASCII. *)
Definition is_space (c : ascii) : bool :=
  let n := nat_of_ascii c in
  ((9 <=? n) && (n <=? 13))%nat || (n =? 32)%nat.

Fixpoint trim_start (s : string) : string :=
  match s with
  | EmptyString => EmptyString
  | String c rest => if is_space c then trim_start rest else s
  end.

Fixpoint trim_end (s : string) : string :=
  match s with
  | EmptyString => EmptyString
  | String c rest =>
      match trim_end rest with
      | EmptyString => if is_space c then EmptyString else String c EmptyString
      | kept => String c kept
      end
  end.

(** [s.trim()]. *)
Definition trim (s : string) : string := trim_end (trim_start s).

(** The assignment to [process.env] that the callback makes for a line,
    if any: [const [key, value] = line.split('=')], then the test
    [key && value]. *)
Definition env_assignment (line : string) : option (string * string) :=
  match split_on "="%char line with
  | key :: value :: _ =>
      if nonempty key && nonempty value then Some (trim key, trim value)
      else None
  | _ => None
  end.

(** The assignments made for a file, in order. *)
Definition env_assignments (envContent : string) : list (string * string) :=
  omap env_assignment (split_on "010"%char envContent).

End ZendeskRun.

(** ** App Store, worldwide: what follows the fetch
    (analyze_review_discrepancy.js) *)

Module AppStoreGlobal.
Import JS AppStore.

Section WithHost.
Context {host : Host}.

(** The key of this script reads [updated], not [date]:
    [`${review.userName}_${review.text}_${review.updated}`]. *)
Definition dedup_key (r : review) : string :=
  to_string (userName r) +:+ "_" +:+ to_string (text r) +:+ "_"
    +:+ to_string (updated r).

Fixpoint removeDuplicates_loop (reviews : list review)
    (seen : gset string) (unique : list review) : list review :=
  match reviews with
  | [] => unique
  | r :: rest =>
      let key := dedup_key r in
      if decide (key ∈ seen)
      then removeDuplicates_loop rest seen unique
      else removeDuplicates_loop rest ({[key]} ∪ seen) (unique ++ [r])
  end.

Definition removeDuplicates (reviews : list review) : list review :=
  removeDuplicates_loop reviews ∅ [].

(** The comparator
    [(a, b) => new Date(b.updated || b.date) - new Date(a.updated || a.date)]. *)
Definition by_date_desc (a b : review) : option Z :=
  match new_Date (or_else (updated b) (date b)),
        new_Date (or_else (updated a) (date a)) with
  | Some tb, Some ta => Some (tb - ta)
  | _, _ => None
  end.

Definition uniqueReviews (allGlobalReviews : list review) : list review :=
  Array_sort by_date_desc (removeDuplicates allGlobalReviews).
End WithHost.
End AppStoreGlobal.

(** ** Google Play, worldwide: the statistics by country *)

Module GooglePlayStats.
Import JS GooglePlay.

Section WithHost.
Context {host : Host}.

(** The [forEach] that fills [countryCount]; a property key is the string
    of the country.  Keys that name a member of [Object.prototype] are
    outside this model; the script only meets the codes of [COUNTRIES]. *)
Definition countryCount (uniqueReviews : list review) : gmap string Z :=
  foldl (fun countryCount r =>
           let country := to_string (or_else (country r) (VStr "unknown")) in
           <[country := default 0 (countryCount !! country) + 1]>
             countryCount)
        ∅ uniqueReviews.
End WithHost.
End GooglePlayStats.

(** ** Definitions used to state and prove the properties *)

Module Described.
Import JS.

(** The fingerprint of the description of the de-duplication: the triple
    (author, body text, date) of a record. *)
Definition fingerprint (r : GooglePlay.review) : value * value * value :=
  (GooglePlay.userName r, GooglePlay.text r, GooglePlay.date r).

Definition is_str (s : string) (v : value) : bool := strict_eq v (VStr s).

(** The rating derived from a ticket as the description words it: base
    3, plus 1 for a solved or closed status, minus 1 for an open or
    pending one, minus 1 for an urgent or high priority, plus 1 for a
    low one, the sum clamped to [1,5]. *)
Definition derived_rating (status priority : value) : Z :=
  let base := 3 in
  let resolved :=
    if is_str "solved" status || is_str "closed" status then 1 else 0 in
  let waiting :=
    if is_str "open" status || is_str "pending" status then 1 else 0 in
  let pressing :=
    if is_str "urgent" priority || is_str "high" priority then 1 else 0 in
  let minor := if is_str "low" priority then 1 else 0 in
  Z.max 1 (Z.min 5 (base + resolved - waiting - pressing + minor)).

(** A rating of the canonical schema: null or an integer from 1 to 5. *)
Definition canonical_rating (v : value) : Prop :=
  v = VNull ∨ ∃ n, v = VNum n ∧ 1 <= n <= 5.

Section WithHost.
Context {host : Host}.

(** [a] is dated no earlier than [b], both dates being valid. *)
Definition newer_or_same (a b : GooglePlay.review) : Prop :=
  exists ta tb,
    new_Date (GooglePlay.date a) = Some ta
    ∧ new_Date (GooglePlay.date b) = Some tb
    ∧ tb <= ta.

(** What every ticket that [convertTicketsToReviews] converts without an
    exception satisfies: [created_at] is falsy or gives a valid date, and
    [tags] is not a non-empty string.  Among the values of [JS.value]
    these tickets are exactly the ones that are converted; a payload with
    a plain object as [tags] can satisfy this and still not be converted,
    so the condition is used as a necessary one. *)
Definition convertible (t : Zendesk.ticket) : Prop :=
  (truthy (Zendesk.created_at t) = true ->
   new_Date (Zendesk.created_at t) ≠ None)
  ∧ (forall c s, Zendesk.tags t ≠ VStr (String c s)).
End WithHost.
End Described.

(** ** Inputs of the examples *)

Module Examples.
Import JS.

(** Two Google Play reviews with different authors and texts. *)
Definition review_a_b : GooglePlay.review :=
  {| GooglePlay.userName := VStr "a_b";
     GooglePlay.text := VStr "c";
     GooglePlay.date := VStr "2024-01-15T00:00:00.000Z";
     GooglePlay.score := VNum 4;
     GooglePlay.helpfulCount := VNum 0;
     GooglePlay.replyDate := VUndefined;
     GooglePlay.replyText := VUndefined;
     GooglePlay.country := VStr "us" |}.

Definition review_b_c : GooglePlay.review :=
  {| GooglePlay.userName := VStr "a";
     GooglePlay.text := VStr "b_c";
     GooglePlay.date := VStr "2024-01-15T00:00:00.000Z";
     GooglePlay.score := VNum 5;
     GooglePlay.helpfulCount := VNum 2;
     GooglePlay.replyDate := VUndefined;
     GooglePlay.replyText := VUndefined;
     GooglePlay.country := VStr "gb" |}.

(** A ticket with every property missing. *)
Definition empty_ticket : Zendesk.ticket :=
  {| Zendesk.id := VUndefined; Zendesk.subject := VUndefined;
     Zendesk.description := VUndefined; Zendesk.tags := VUndefined;
     Zendesk.status := VUndefined; Zendesk.priority := VUndefined;
     Zendesk.created_at := VUndefined; Zendesk.requester_id := VUndefined;
     Zendesk.satisfaction_rating := None |}.

(** A ticket whose [tags] is a string instead of an array. *)
Definition ticket_tags_string : Zendesk.ticket :=
  {| Zendesk.id := VNum 18; Zendesk.subject := VStr "Refund";
     Zendesk.description := VUndefined; Zendesk.tags := VStr "vip";
     Zendesk.status := VStr "open"; Zendesk.priority := VUndefined;
     Zendesk.created_at := VUndefined; Zendesk.requester_id := VUndefined;
     Zendesk.satisfaction_rating := None |}.

(** A ticket whose [created_at] is not a date. *)
Definition ticket_bad_date : Zendesk.ticket :=
  {| Zendesk.id := VNum 19; Zendesk.subject := VStr "Refund";
     Zendesk.description := VUndefined; Zendesk.tags := VArr [];
     Zendesk.status := VStr "open"; Zendesk.priority := VUndefined;
     Zendesk.created_at := VStr "yesterday";
     Zendesk.requester_id := VUndefined;
     Zendesk.satisfaction_rating := None |}.

(** A solved ticket of low priority. *)
Definition ticket_solved_low : Zendesk.ticket :=
  {| Zendesk.id := VNum 17; Zendesk.subject := VStr "Login broken";
     Zendesk.description := VStr "Cannot log in";
     Zendesk.tags := VArr [VStr "login"; VStr "ios"];
     Zendesk.status := VStr "solved"; Zendesk.priority := VStr "low";
     Zendesk.created_at := VStr "2025-07-01T08:00:00Z";
     Zendesk.requester_id := VNum 99;
     Zendesk.satisfaction_rating := None |}.

(** Three more Google Play reviews; the second repeats the author, the
    text and the date of [review_a_b] from another country. *)
Definition review_march : GooglePlay.review :=
  {| GooglePlay.userName := VStr "Bob";
     GooglePlay.text := VStr "Crashes";
     GooglePlay.date := VStr "2024-03-02T10:00:00.000Z";
     GooglePlay.score := VNum 1;
     GooglePlay.helpfulCount := VNum 7;
     GooglePlay.replyDate := VUndefined;
     GooglePlay.replyText := VUndefined;
     GooglePlay.country := VStr "us" |}.

Definition review_a_b_gb : GooglePlay.review :=
  {| GooglePlay.userName := VStr "a_b";
     GooglePlay.text := VStr "c";
     GooglePlay.date := VStr "2024-01-15T00:00:00.000Z";
     GooglePlay.score := VNum 5;
     GooglePlay.helpfulCount := VNum 1;
     GooglePlay.replyDate := VUndefined;
     GooglePlay.replyText := VUndefined;
     GooglePlay.country := VStr "gb" |}.

Definition review_february : GooglePlay.review :=
  {| GooglePlay.userName := VStr "Carol";
     GooglePlay.text := VStr "Fine";
     GooglePlay.date := VStr "2024-02-10T08:30:00.000Z";
     GooglePlay.score := VNum 4;
     GooglePlay.helpfulCount := VUndefined;
     GooglePlay.replyDate := VUndefined;
     GooglePlay.replyText := VUndefined;
     GooglePlay.country := VStr "gb" |}.

(** Reviews in the order two countries returned them. *)
Definition gathered : list GooglePlay.review :=
  [review_a_b; review_march; review_a_b_gb; review_february].

(** An App Store review whose score is 7. *)
Definition review_score_7 : AppStore.review :=
  {| AppStore.userName := VStr "Dan"; AppStore.text := VStr "Seven";
     AppStore.score := VNum 7; AppStore.title := VStr "Off the scale";
     AppStore.version := VStr "2.1.0"; AppStore.helpfulCount := VNum 0;
     AppStore.updated := VStr "2024-01-15T09:30:00-07:00";
     AppStore.date := VUndefined; AppStore.country := VUndefined |}.

(** A page of twelve Google Play reviews. *)
Definition play_page : list GooglePlay.review := replicate 12 review_a_b.

(** A provider that gives one page everywhere, except in Germany, where
    the first request fails, and in France, where the second one does. *)
Definition flaky_play (countryCode : string) (batch : nat)
    (token : option value) : GooglePlay.response :=
  if String.eqb countryCode "de" then
    GooglePlay.RejectedWith (Rejected "timeout")
  else if String.eqb countryCode "fr" then
    match batch with
    | 1%nat => GooglePlay.ResolvedObject (Some play_page) (VStr "next")
    | _ => GooglePlay.RejectedWith (Rejected "timeout")
    end
  else GooglePlay.ResolvedObject (Some play_page) VNull.

(** An App Store review and a page of five of them. *)
Definition app_review : AppStore.review :=
  {| AppStore.userName := VStr "Alice"; AppStore.text := VStr "Great app";
     AppStore.score := VNum 5; AppStore.title := VStr "Love it";
     AppStore.version := VStr "2.1.0"; AppStore.helpfulCount := VNum 0;
     AppStore.updated := VStr "2024-01-15T09:30:00-07:00";
     AppStore.date := VUndefined; AppStore.country := VUndefined |}.

Definition full_page : list AppStore.review := replicate 5 app_review.

(** A storefront that answers every request with the same full page. *)
Definition endless_store (countryCode : string) (page : nat)
    : AppStore.response :=
  AppStore.Resolved (Some full_page).

(** A storefront with one full page and nothing after it. *)
Definition one_page_store (countryCode : string) (page : nat)
    : AppStore.response :=
  match page with
  | 1%nat => AppStore.Resolved (Some full_page)
  | _ => AppStore.Resolved (Some [])
  end.

(** A storefront whose second page is empty and whose other pages are
    full. *)
Definition gap_store (countryCode : string) (page : nat)
    : AppStore.response :=
  match page with
  | 2%nat => AppStore.Resolved (Some [])
  | _ => AppStore.Resolved (Some full_page)
  end.

(** A storefront whose second page holds two reviews. *)
Definition short_page_store (countryCode : string) (page : nat)
    : AppStore.response :=
  match page with
  | 2%nat => AppStore.Resolved (Some [app_review; app_review])
  | _ => AppStore.Resolved (Some full_page)
  end.

(** A file system that refuses every write. *)
Definition read_only : FileSystem AppStore.file_content := {|
  fs_state := unit;
  writeFileSync := fun _ _ files =>
    (Some (SystemError "EACCES: permission denied"), files);
  statSync := fun _ _ => Throw (SystemError "ENOENT: no such file")
|}.

(** A file system that keeps what is written; the size it reports for a
    file is the number of writes so far. *)
Definition disk : FileSystem AppStore.file_content := {|
  fs_state := list (string * AppStore.file_content);
  writeFileSync := fun filename data files =>
    (None, files ++ [(filename, data)]);
  statSync := fun _ files => Ok (Z.of_nat (length files))
|}.

Definition timestamp : string := "2025-07-27T12-00-00".

(** The CSV lines of [full_page]. *)
Definition full_page_rows : list string :=
  Eval vm_compute in
    match mapM (AppStore.csv_row (host := UTCHost.host)) full_page with
    | Ok rows => rows
    | Throw _ => []
    end.

Definition rating_good_17 : Zendesk.satisfaction :=
  {| Zendesk.ticket_id := VNum 17; Zendesk.score := VStr "good" |}.

Definition rating_bad_17 : Zendesk.satisfaction :=
  {| Zendesk.ticket_id := VNum 17; Zendesk.score := VStr "bad" |}.
End Examples.

Module Aux.
Import JS GooglePlay.

(** The names of the files a trace tried to write, in order. *)
Fixpoint written_files {content} (tr : list (event content))
    : list string :=
  match tr with
  | [] => []
  | WriteFile filename _ :: rest => filename :: written_files rest
  | _ :: rest => written_files rest
  end.

(** The trace left by a run started in the state [files] of the file
    system. *)
Definition run_trace {content} {fs : FileSystem content}
    (script : option (IO unit)) (files : fs_state)
    : option (list (event content)) :=
  io ← script;
  Some (trace (io {| files := files; trace := [] |}).2).

Section WithHost.
Context {host : Host}.

(** [removeDuplicates_loop] without the accumulator [unique]. *)
Fixpoint dedup_from (seen : gset string) (reviews : list review)
    : list review :=
  match reviews with
  | [] => []
  | r :: rest =>
      if decide (dedup_key r ∈ seen) then dedup_from seen rest
      else r :: dedup_from ({[dedup_key r]} ∪ seen) rest
  end.
End WithHost.
End Aux.

(** ** A reader of CSV lines, and other definitions for the properties
    of the rest of the scripts *)

Module Reader.
Import JS.

(** The inverse of the doubling of the quotes: every pair of quotes is
    read as one quote. *)
Fixpoint undouble_quotes (s : string) : string :=
  match s with
  | String c (String c' rest as tail) =>
      if Ascii.eqb c quote && Ascii.eqb c' quote
      then String quote (undouble_quotes rest)
      else String c (undouble_quotes tail)
  | _ => s
  end.

(** Reads a field after its opening quote, up to its closing quote: the
    text of the field and what follows the closing quote. *)
Fixpoint read_field (s : string) : option (string * string) :=
  match s with
  | EmptyString => None
  | String c rest =>
      if Ascii.eqb c quote then
        match rest with
        | String c' rest' =>
            if Ascii.eqb c' quote then
              '(field, after) ← read_field rest';
              Some (String quote field, after)
            else Some (EmptyString, rest)
        | EmptyString => Some (EmptyString, EmptyString)
        end
      else
        '(field, after) ← read_field rest;
        Some (String c field, after)
  end.

(** Reads a line of quoted fields separated by commas. *)
Fixpoint read_row (fuel : nat) (s : string) : option (list string) :=
  match fuel, s with
  | S fuel', String c rest =>
      if Ascii.eqb c quote then
        '(field, after) ← read_field rest;
        match after with
        | EmptyString => Some [field]
        | String c' rest' =>
            if Ascii.eqb c' ","%char then
              fields ← read_row fuel' rest';
              Some (field :: fields)
            else None
        end
      else None
  | _, _ => None
  end.

(** A line as every script writes it: each field between quotes, the
    fields separated by commas. *)
Definition quoted_line (fields : list string) : string :=
  join_strings "," ((fun field => dq +:+ field +:+ dq) <$> fields).

(** The string holds no quote. *)
Fixpoint quote_free (s : string) : bool :=
  match s with
  | EmptyString => true
  | String c rest => negb (Ascii.eqb c quote) && quote_free rest
  end.

(** The string holds no character [c]. *)
Fixpoint free_of (c : ascii) (s : string) : bool :=
  match s with
  | EmptyString => true
  | String x rest => negb (Ascii.eqb x c) && free_of c rest
  end.

(** A review of the worldwide App Store script that the provider served
    for a storefront on one of its first pages, with the country set. *)
Definition served (store_reviews : string -> nat -> AppStore.response)
    (countryCode : string) (maxPages : nat) (r : AppStore.review) : Prop :=
  exists p page r0,
    (1 <= p <= 1 `max` maxPages)%nat
    ∧ store_reviews countryCode p = AppStore.Resolved (Some page)
    ∧ r0 ∈ page
    ∧ r = AppStoreWorldwide.with_country countryCode r0.

(** A value on which [replace] can be called once [|| ''] has been
    applied: a falsy value or a string. *)
Definition text_like (v : value) : Prop :=
  truthy v = false ∨ exists s, v = VStr s.

(** The Google Play reviews whose CSV line can be built. *)
Definition play_printable (r : GooglePlay.review) : Prop :=
  text_like (GooglePlay.country r) ∧ text_like (GooglePlay.userName r)
  ∧ text_like (GooglePlay.text r) ∧ text_like (GooglePlay.replyText r).

Section WithHost.
Context {host : Host}.

(** The eight values of a Google Play review that its CSV line holds,
    with the defaults of the script. *)
Definition play_columns (r : GooglePlay.review) : list value :=
  [ or_else (GooglePlay.date r) (VStr EmptyString);
    or_else (GooglePlay.country r) (VStr "unknown");
    or_else (GooglePlay.userName r) (VStr EmptyString);
    or_else (GooglePlay.score r) (VStr EmptyString);
    or_else (GooglePlay.text r) (VStr EmptyString);
    or_else (GooglePlay.helpfulCount r) (VStr EmptyString);
    or_else (GooglePlay.replyDate r) (VStr EmptyString);
    or_else (GooglePlay.replyText r) (VStr EmptyString) ].

(** The columns that the script writes without doubling their quotes
    hold no quote. *)
Definition play_plain_columns_quote_free (r : GooglePlay.review) : bool :=
  quote_free (to_string (or_else (GooglePlay.date r) (VStr EmptyString)))
  && quote_free (to_string (or_else (GooglePlay.score r) (VStr EmptyString)))
  && quote_free
       (to_string (or_else (GooglePlay.helpfulCount r) (VStr EmptyString)))
  && quote_free
       (to_string (or_else (GooglePlay.replyDate r) (VStr EmptyString))).
End WithHost.
End Reader.

(** ** Payloads of the expected shape, and the behaviour that the
    description expects of them *)

Module Shapes.
Import JS.

(** A property that the payload does not give: it reads as undefined, or
    it is null. *)
Definition missing (v : value) : Prop := v = VUndefined ∨ v = VNull.

(** A string. *)
Definition text (v : value) : Prop := exists s, v = VStr s.

(** An identifier of Zendesk: a positive integer that a number holds
    exactly. *)
Definition identifier (v : value) : Prop :=
  exists n, v = VNum n ∧ 0 < n < 2 ^ 53.

(** What a subject or a description adds to the text of a ticket: its
    characters when it is a string, nothing otherwise. *)
Definition string_of (v : value) : string :=
  match v with
  | VStr s => s
  | _ => EmptyString
  end.

(** The tags of a ticket, none unless [tags] is an array. *)
Definition items_of (v : value) : list value :=
  match v with
  | VArr items => items
  | _ => []
  end.

Section WithHost.
Context {host : Host}.

(** A ticket as the API documents it, any property of which may be
    missing: [id] and [requester_id] are identifiers, [subject] and
    [description] are strings, [tags] is an array of strings and
    [created_at] is a string that the engine reads as a date.  [status]
    and [priority] are only compared and copied: they may be anything. *)
Definition ticket_typed (t : Zendesk.ticket) : Prop :=
  (missing (Zendesk.id t) ∨ identifier (Zendesk.id t))
  ∧ (missing (Zendesk.requester_id t)
     ∨ identifier (Zendesk.requester_id t))
  ∧ (missing (Zendesk.subject t) ∨ text (Zendesk.subject t))
  ∧ (missing (Zendesk.description t) ∨ text (Zendesk.description t))
  ∧ (missing (Zendesk.tags t)
     ∨ exists items, Zendesk.tags t = VArr items ∧ Forall text items)
  ∧ (missing (Zendesk.created_at t)
     ∨ exists s, Zendesk.created_at t = VStr s ∧ Date_parse s ≠ None).

(** A satisfaction rating as the API documents it: [ticket_id] is an
    identifier, or is missing; [score] may be anything. *)
Definition rating_typed (r : Zendesk.satisfaction) : Prop :=
  missing (Zendesk.ticket_id r) ∨ identifier (Zendesk.ticket_id r).

(** The body text of a ticket as the description words it: the subject
    and the description joined when both exist and differ, else the one
    that exists; then the tags, when there are any, as a suffix in
    brackets; and a fixed text when all of this is empty. *)
Definition body_text (subject description : string) (tags : list value)
    : string :=
  let main :=
    if Zendesk.nonempty subject && Zendesk.nonempty description
       && negb (String.eqb description subject)
    then subject +:+ ". " +:+ description
    else if Zendesk.nonempty subject then subject else description in
  let suffix :=
    match tags with
    | [] => EmptyString
    | _ => " [Tags: " +:+ array_join ", " tags +:+ "]"
    end in
  if Zendesk.nonempty (main +:+ suffix) then main +:+ suffix
  else "No description available".

(** The first record of the JSON file is dated no earlier than the
    second, both dates being valid. *)
Definition entry_newer_or_same (a b : GooglePlay.Json.entry) : Prop :=
  exists ta tb,
    new_Date (GooglePlay.Json.date a) = Some ta
    ∧ new_Date (GooglePlay.Json.date b) = Some tb
    ∧ tb <= ta.
End WithHost.

(** *** The pages of an App Store storefront *)

Section Pages.
Variable store_reviews : string -> nat -> AppStore.response.
Variable countryCode : string.

(** The reviews of page [p], none when the request fails. *)
Definition page_reviews (p : nat) : list AppStore.review :=
  match store_reviews countryCode p with
  | AppStore.Resolved reviews => default [] reviews
  | AppStore.RejectedWith _ => []
  end.

(** Page [p] was answered, without a review. *)
Definition empty_page (p : nat) : bool :=
  match store_reviews countryCode p with
  | AppStore.Resolved reviews => (length (default [] reviews) =? 0)%nat
  | AppStore.RejectedWith _ => false
  end.

(** Why the fetch of a storefront ends at page [p] once it got there, as
    the description has it: the request failed; or the page holds
    reviews, but fewer than 5; or it is the second page in a row without
    reviews; or it is page [maxPages].  [None] when the fetch goes on. *)
Definition ends_at (maxPages p : nat) : option AppStoreWorldwide.exit :=
  match store_reviews countryCode p with
  | AppStore.RejectedWith e => Some (AppStoreWorldwide.Caught e)
  | AppStore.Resolved reviews =>
      let n := length (default [] reviews) in
      if (0 <? n)%nat && (n <? 5)%nat
      then Some AppStoreWorldwide.FewReviews
      else if (n =? 0)%nat && (2 <=? p)%nat && empty_page (p - 1)
      then Some AppStoreWorldwide.EmptyPages
      else if (p <? maxPages)%nat then None
      else Some AppStoreWorldwide.PageLimit
  end.
End Pages.

(** *** The requests of a Google Play fetch *)

(** The pagination token that request [batch] carries when the answers
    before it gave the tokens [tokens]: none on the first request, then
    the token of the answer before. *)
Definition token_sent (tokens : nat -> value) (batch : nat)
    : option value :=
  match batch with
  | 0%nat | 1%nat => None
  | S previous => Some (tokens previous)
  end.
End Shapes.

Module Fixtures.
Import JS.

(** Tickets in pages: two pages chained by their [next_page], then an
    end. *)
Definition tickets_page_1 : list Zendesk.ticket :=
  [Examples.ticket_solved_low; Examples.empty_ticket].

Definition tickets_page_2 : list Zendesk.ticket :=
  [Examples.ticket_solved_low].

Definition two_pages (n : nat) (url : option value)
    : ZendeskRun.response Zendesk.ticket :=
  match n with
  | 1%nat => ZendeskRun.Resolved (Some tickets_page_1) (VStr "https://x/2")
  | 2%nat => ZendeskRun.Resolved (Some tickets_page_2) VNull
  | _ => ZendeskRun.RejectedWith (Rejected "unexpected request")
  end.

Definition no_ratings (n : nat) (url : option value)
    : ZendeskRun.response Zendesk.satisfaction :=
  ZendeskRun.Resolved (Some []) VNull.

Definition one_rating (n : nat) (url : option value)
    : ZendeskRun.response Zendesk.satisfaction :=
  ZendeskRun.Resolved (Some [Examples.rating_good_17]) VNull.

Definition no_tickets (n : nat) (url : option value)
    : ZendeskRun.response Zendesk.ticket :=
  ZendeskRun.Resolved (Some []) VNull.

Definition good_config : ZendeskRun.config :=
  {| ZendeskRun.subdomain := VStr "mendi";
     ZendeskRun.email := VStr "ops@mendi.io";
     ZendeskRun.apiToken := VStr "s3cr3t" |}.

Definition placeholder_config : ZendeskRun.config :=
  {| ZendeskRun.subdomain := VStr "your-subdomain";
     ZendeskRun.email := VStr "ops@mendi.io";
     ZendeskRun.apiToken := VStr "s3cr3t" |}.

(** A file system for the Zendesk script that keeps what is written. *)
Definition zendesk_disk : FileSystem ZendeskRun.file_content := {|
  fs_state := list (string * ZendeskRun.file_content);
  writeFileSync := fun filename data files =>
    (None, files ++ [(filename, data)]);
  statSync := fun _ files => Ok (Z.of_nat (length files))
|}.

(** A Google Play provider with one page of twelve reviews in every
    country. *)
Definition steady_play (countryCode : string) (batch : nat)
    (token : option value) : GooglePlay.response :=
  GooglePlay.ResolvedObject (Some Examples.play_page) VNull.

(** A Google Play review whose text holds quotes, a comma and a line
    end. *)
Definition review_with_quotes : GooglePlay.review :=
  {| GooglePlay.userName := VStr "Dora, the tester";
     GooglePlay.text :=
       VStr ("She said " +:+ dq +:+ "wow" +:+ dq +:+ ", twice" +:+ newline
             +:+ "then left");
     GooglePlay.date := VStr "2024-03-02T10:00:00.000Z";
     GooglePlay.score := VNum 5;
     GooglePlay.helpfulCount := VUndefined;
     GooglePlay.replyDate := VUndefined;
     GooglePlay.replyText := VUndefined;
     GooglePlay.country := VStr "us" |}.

Definition review_with_quotes_row : string :=
  Eval vm_compute in
    match GooglePlay.csv_row (host := UTCHost.host) review_with_quotes with
    | Ok row => row
    | Throw _ => EmptyString
    end.

(** What the worldwide run gives with [steady_play]. *)
Definition steady_csv : string :=
  Eval vm_compute in
    match GooglePlay.scrapeAllReviewsGlobal (host := UTCHost.host)
            steady_play with
    | Some (Ok (csv, _)) => csv
    | _ => EmptyString
    end.

Definition steady_json : list GooglePlay.Json.entry :=
  Eval vm_compute in
    match GooglePlay.scrapeAllReviewsGlobal (host := UTCHost.host)
            steady_play with
    | Some (Ok (_, jsonData)) => jsonData
    | _ => []
    end.

(** A storefront with two full pages, whose third request is
    rejected. *)
Definition failing_store (countryCode : string) (page : nat)
    : AppStore.response :=
  match page with
  | 1%nat | 2%nat => AppStore.Resolved (Some Examples.full_page)
  | _ => AppStore.RejectedWith (Rejected "socket hang up")
  end.

(** Two App Store reviews without [updated] that differ in [date]
    only. *)
Definition undated_1 : AppStore.review :=
  {| AppStore.userName := VStr "Eve"; AppStore.text := VStr "Nice";
     AppStore.score := VNum 5; AppStore.title := VStr "Ok";
     AppStore.version := VStr "2.0"; AppStore.helpfulCount := VNum 0;
     AppStore.updated := VUndefined;
     AppStore.date := VStr "2024-01-15"; AppStore.country := VStr "us" |}.

Definition undated_2 : AppStore.review :=
  {| AppStore.userName := VStr "Eve"; AppStore.text := VStr "Nice";
     AppStore.score := VNum 2; AppStore.title := VStr "Ok";
     AppStore.version := VStr "2.0"; AppStore.helpfulCount := VNum 0;
     AppStore.updated := VUndefined;
     AppStore.date := VStr "2023-06-01"; AppStore.country := VStr "gb" |}.

(** A ticket without subject and description whose [tags] is a string. *)
Definition ticket_only_string_tags : Zendesk.ticket :=
  {| Zendesk.id := VNum 20; Zendesk.subject := VUndefined;
     Zendesk.description := VUndefined; Zendesk.tags := VStr "vip";
     Zendesk.status := VStr "open"; Zendesk.priority := VUndefined;
     Zendesk.created_at := VUndefined; Zendesk.requester_id := VUndefined;
     Zendesk.satisfaction_rating := None |}.

(** A ticket whose subject and description are the same text. *)
Definition ticket_same_text : Zendesk.ticket :=
  {| Zendesk.id := VNum 21; Zendesk.subject := VStr "Refund";
     Zendesk.description := VStr "Refund"; Zendesk.tags := VArr [];
     Zendesk.status := VStr "closed"; Zendesk.priority := VStr "high";
     Zendesk.created_at := VStr "2025-07-02T09:00:00Z";
     Zendesk.requester_id := VNum 7;
     Zendesk.satisfaction_rating := None |}.

(** A ticket named like a member of [Object.prototype]. *)
Definition ticket_constructor : Zendesk.ticket :=
  {| Zendesk.id := VStr "constructor"; Zendesk.subject := VStr "Refund";
     Zendesk.description := VUndefined; Zendesk.tags := VUndefined;
     Zendesk.status := VStr "open"; Zendesk.priority := VUndefined;
     Zendesk.created_at := VUndefined; Zendesk.requester_id := VUndefined;
     Zendesk.satisfaction_rating := None |}.

(** A Google Play review whose date is no date, and three reviews that
    survive the de-duplication, the second one being that review. *)
Definition review_no_date : GooglePlay.review :=
  {| GooglePlay.userName := VStr "Eve";
     GooglePlay.text := VStr "Soon";
     GooglePlay.date := VStr "not a date";
     GooglePlay.score := VNum 3;
     GooglePlay.helpfulCount := VUndefined;
     GooglePlay.replyDate := VUndefined;
     GooglePlay.replyText := VUndefined;
     GooglePlay.country := VStr "us" |}.

Definition gathered_with_no_date : list GooglePlay.review :=
  [Examples.review_a_b; review_no_date; Examples.review_march].

(** A storefront whose pages 2 and 4 are empty and whose other pages are
    full. *)
Definition two_gaps_store (countryCode : string) (page : nat)
    : AppStore.response :=
  match page with
  | 2%nat | 4%nat => AppStore.Resolved (Some [])
  | _ => AppStore.Resolved (Some Examples.full_page)
  end.
End Fixtures.

(** * Properties *)

(** ** Strings *)

Lemma append_nil_r (s : string) : s +:+ EmptyString = s.
Proof.
  induction s as [|c s IH]; [done|].
  cbv [String.append]; fold String.append. by rewrite IH.
Qed.

Lemma append_assoc (a b c : string) : (a +:+ b) +:+ c = a +:+ (b +:+ c).
Proof.
  induction a as [|x a IH]; [done|].
  cbv [String.append]; fold String.append. by rewrite IH.
Qed.

(** ** Mapping a callback that may throw *)

Lemma imapM_from_Ok {A B} (f : nat -> A -> JS.result B) (l : list A) k :
  (forall j x, l !! j = Some x -> exists y, f (k + j)%nat x = JS.Ok y) ->
  exists ys,
    JS.imapM_from k f l = JS.Ok ys
    ∧ length ys = length l
    ∧ forall j x y,
        l !! j = Some x -> ys !! j = Some y -> f (k + j)%nat x = JS.Ok y.
Proof.
  revert k. induction l as [|x l IH]; intros k Hf.
  - exists []. by split_and!.
  - destruct (Hf 0%nat x eq_refl) as [y Hy].
    destruct (IH (S k)) as (ys & Hys & Hlen & Hnth).
    { intros j x' Hj. specialize (Hf (S j) x' Hj).
      by replace (S k + j)%nat with (k + S j)%nat by lia. }
    exists (y :: ys). split_and!.
    + cbn. rewrite Nat.add_0_r in Hy. by rewrite Hy, Hys.
    + cbn. by rewrite Hlen.
    + intros [|j] x' y'; cbn.
      * by intros [= <-] [= <-].
      * intros Hx' Hy'. specialize (Hnth j x' y' Hx' Hy').
        by replace (k + S j)%nat with (S k + j)%nat by lia.
Qed.

Lemma imapM_from_Throw {A B} (f : nat -> A -> JS.result B) (l : list A) k j x e :
  l !! j = Some x -> f (k + j)%nat x = JS.Throw e ->
  exists e', JS.imapM_from k f l = JS.Throw e'.
Proof.
  revert k j. induction l as [|x0 l IH]; intros k [|j]; cbn; try done.
  - intros [= ->]. rewrite Nat.add_0_r. intros ->. by eexists.
  - intros Hj Hf. destruct (f k x0); [|by eexists]. cbn.
    replace (k + S j)%nat with (S k + j)%nat in Hf by lia.
    destruct (IH (S k) j Hj Hf) as [e' ->]. by eexists.
Qed.

(** ** De-duplication *)

Section Dedup.
Import JS GooglePlay Aux.
Context {host : Host}.

Lemma removeDuplicates_loop_dedup_from reviews seen unique :
  removeDuplicates_loop reviews seen unique
  = unique ++ dedup_from seen reviews.
Proof.
  revert seen unique.
  induction reviews as [|r rest IH]; intros seen unique; simpl.
  - by rewrite app_nil_r.
  - case_decide; rewrite IH; [done|].
    by rewrite <- app_assoc.
Qed.

Lemma removeDuplicates_dedup_from reviews :
  removeDuplicates reviews = dedup_from ∅ reviews.
Proof. unfold removeDuplicates. by rewrite removeDuplicates_loop_dedup_from. Qed.

Lemma dedup_from_sublist seen reviews :
  dedup_from seen reviews `sublist_of` reviews.
Proof.
  revert seen. induction reviews as [|r rest IH]; intros seen; simpl.
  - constructor.
  - case_decide; [apply sublist_cons | apply sublist_skip]; apply IH.
Qed.

(** A list that holds no key of [seen] and no key twice is left as it
    is. *)
Lemma dedup_from_fixed seen reviews :
  NoDup (dedup_key <$> reviews) ->
  (forall r, r ∈ reviews -> dedup_key r ∉ seen) ->
  dedup_from seen reviews = reviews.
Proof.
  revert seen. induction reviews as [|r rest IH]; intros seen Hnd Hseen.
  - done.
  - simpl. rewrite fmap_cons in Hnd. apply NoDup_cons in Hnd as [Hr Hnd].
    rewrite decide_False by (apply Hseen; left).
    f_equal. apply IH; [done|].
    intros r' Hr'. apply not_elem_of_union. split.
    + rewrite elem_of_singleton. intros Heq. apply Hr. rewrite <- Heq.
      by apply list_elem_of_fmap_2.
    + apply Hseen. by right.
Qed.

Lemma dedup_from_fresh seen reviews r :
  r ∈ dedup_from seen reviews -> dedup_key r ∉ seen.
Proof.
  revert seen. induction reviews as [|r0 rest IH]; intros seen; simpl.
  - by intros ?%elem_of_nil.
  - case_decide as Hin.
    + apply IH.
    + intros [->|Hr]%elem_of_cons; [done|].
      apply IH in Hr. set_solver.
Qed.

Lemma dedup_from_NoDup seen reviews :
  NoDup (dedup_key <$> dedup_from seen reviews).
Proof.
  revert seen. induction reviews as [|r rest IH]; intros seen; simpl.
  - constructor.
  - case_decide as Hin; [apply IH|].
    rewrite fmap_cons. apply NoDup_cons. split; [|apply IH].
    intros (r' & Heq & Hr')%list_elem_of_fmap.
    apply dedup_from_fresh in Hr'. set_solver.
Qed.

Lemma dedup_from_snoc seen reviews r :
  dedup_from seen (reviews ++ [r])
  = dedup_from seen reviews
    ++ (if decide (dedup_key r ∈ seen ∨ dedup_key r ∈ dedup_key <$> reviews)
        then [] else [r]).
Proof.
  revert seen.
  induction reviews as [|r0 rest IH]; intros seen; cbn [dedup_from app].
  - rewrite fmap_nil.
    destruct (decide (dedup_key r ∈ seen)) as [Hin|Hin];
      destruct (decide (_ ∨ _)) as [Hor|Hor]; try done.
    + exfalso. apply Hor. by left.
    + exfalso. destruct Hor as [?|Hnil]; [done|]. by apply elem_of_nil in Hnil.
  - rewrite fmap_cons.
    destruct (decide (dedup_key r0 ∈ seen)) as [Hin|Hin].
    + rewrite IH. f_equal.
      destruct (decide (_ ∨ _)) as [Hor|Hor];
        destruct (decide (_ ∨ _)) as [Hor'|Hor']; try done.
      * exfalso. apply Hor'. destruct Hor as [?|?]; [by left|].
        right. by right.
      * exfalso. apply Hor. destruct Hor' as [?|[Heq|?]%elem_of_cons].
        -- by left.
        -- left. by rewrite Heq.
        -- by right.
    + rewrite IH. cbn [app]. do 2 f_equal.
      destruct (decide (_ ∨ _)) as [Hor|Hor];
        destruct (decide (_ ∨ _)) as [Hor'|Hor']; try done.
      * exfalso. apply Hor'.
        destruct Hor as [[Heq%elem_of_singleton|?]%elem_of_union|?].
        -- right. rewrite Heq. by left.
        -- by left.
        -- right. by right.
      * exfalso. apply Hor. destruct Hor' as [?|[Heq|?]%elem_of_cons].
        -- left. apply elem_of_union. by right.
        -- left. apply elem_of_union. left. by apply elem_of_singleton.
        -- by right.
Qed.

(** Records with the same author, text and date have the same key,
    whatever their rating, country and helpful count; the second of two
    such records is removed. *)
Lemma dedup_key_fingerprint a b :
  Described.fingerprint a = Described.fingerprint b ->
  dedup_key a = dedup_key b.
Proof. unfold dedup_key. by intros [= -> -> ->]. Qed.

Lemma same_fingerprint_merged a b :
  Described.fingerprint a = Described.fingerprint b ->
  removeDuplicates [a; b] = [a].
Proof.
  intros Hab%dedup_key_fingerprint. unfold removeDuplicates.
  cbn [removeDuplicates_loop].
  rewrite decide_False by apply not_elem_of_empty.
  rewrite decide_True; [done|].
  apply elem_of_union. left. by apply elem_of_singleton.
Qed.

(** C5.  Running [removeDuplicates] on its own output changes nothing,
    and its output is a subsequence of its input: the records that are
    kept stay in their input order.  The kept records are the first
    occurrences: the last record of a list is kept exactly when no
    record before it has its key. *)
Theorem removeDuplicates_idempotent_subsequence :
  forall reviews : list review,
    removeDuplicates (removeDuplicates reviews) = removeDuplicates reviews
    ∧ removeDuplicates reviews `sublist_of` reviews
    ∧ forall r,
        removeDuplicates (reviews ++ [r])
        = removeDuplicates reviews
          ++ (if decide (dedup_key r ∈ dedup_key <$> reviews)
              then [] else [r]).
Proof.
  intros reviews. rewrite !removeDuplicates_dedup_from. split_and!.
  - apply dedup_from_fixed; [apply dedup_from_NoDup|]. set_solver.
  - apply dedup_from_sublist.
  - intros r. rewrite !removeDuplicates_dedup_from, dedup_from_snoc.
    f_equal.
    destruct (decide (_ ∨ _)) as [Hor|Hor];
      destruct (decide (_ ∈ _ <$> _)) as [Hin|Hin]; try done.
    + exfalso. destruct Hor as [Hor|?]; [|done]. by apply not_elem_of_empty in Hor.
    + exfalso. apply Hor. by right.
Qed.
End Dedup.

(** ** Tickets *)

Section Tickets.
Import JS Zendesk Described Reader Shapes.
Context {host : Host}.

Lemma ticketToRating_without_satisfaction t :
  ticketToRating (with_satisfaction_rating t None)
  = VNum (derived_rating (status t) (priority t)).
Proof.
  unfold ticketToRating, derived_rating, is_str; cbn.
  destruct (status t) as [| |b|n|s|d|items]; cbn;
    destruct (priority t) as [| |b'|n'|s'|d'|items']; cbn; try done;
    repeat (match goal with
            | |- context [String.eqb ?a ?b] =>
                destruct (String.eqb_spec a b); subst; cbn
            end); try done; try congruence.
Qed.

Lemma derived_rating_range status priority :
  1 <= derived_rating status priority <= 5.
Proof. unfold derived_rating. lia. Qed.

(** An inherited member has no score: it changes nothing to the rating. *)
Lemma determine_rating_get ratingsMap key t :
  determine_rating t (ratingsMap_get ratingsMap key)
  = determine_rating t (ratingsMap !! key).
Proof.
  unfold ratingsMap_get. destruct (ratingsMap !! key); [done|].
  by case_decide.
Qed.

(** C2.  With no satisfaction rating joined to the ticket, its rating
    is the derived one: 3, plus 1 for solved or closed, minus 1 for open
    or pending, minus 1 for urgent or high, plus 1 for low, clamped to
    [1,5].  A joined satisfaction rating with score good gives 5 and with
    score bad gives 1.  A solved ticket of low priority without a
    satisfaction rating gets 5.  The rating of the record built from the
    ticket is this rating. *)
Theorem ticket_rating_derivation :
  forall (satisfactionRatings : list satisfaction) (t : ticket),
    let satisfaction :=
      ratingsMap_of satisfactionRatings !! to_string (id t) in
    (satisfaction = None ->
     determine_rating t satisfaction
     = VNum (derived_rating (status t) (priority t)))
    ∧ (forall s, satisfaction = Some s -> score s = VStr "good" ->
       determine_rating t satisfaction = VNum 5)
    ∧ (forall s, satisfaction = Some s -> score s = VStr "bad" ->
       determine_rating t satisfaction = VNum 1)
    ∧ (satisfaction = None -> status t = VStr "solved" ->
       priority t = VStr "low" ->
       determine_rating t satisfaction = VNum 5)
    ∧ (forall i entry,
       convertTicket (ratingsMap_of satisfactionRatings) i t = Ok entry ->
       Json.rating entry = determine_rating t satisfaction).
Proof.
  intros satisfactionRatings t satisfaction. split_and!.
  - intros ->. apply ticketToRating_without_satisfaction.
  - intros s -> Hs. unfold determine_rating. by rewrite Hs.
  - intros s -> Hs. unfold determine_rating. by rewrite Hs.
  - intros -> Hst Hpr. unfold determine_rating.
    rewrite ticketToRating_without_satisfaction. by rewrite Hst, Hpr.
  - intros i entry. unfold convertTicket.
    destruct (if truthy (created_at t) then _ else _); [|done]. cbn.
    destruct (extractTicketText t); [|done]. cbn.
    intros [= <-]. apply determine_rating_get.
Qed.

Lemma nonempty_app_r a b : nonempty b = true -> nonempty (a +:+ b) = true.
Proof. destruct a; [done|]. by intros _. Qed.

Lemma nonempty_app_l a b : nonempty a = true -> nonempty (a +:+ b) = true.
Proof. by destruct a. Qed.

(** Unless [tags] is a non-empty string a text is returned, and it is
    never empty. *)
Lemma extractTicketText_returns t :
  (forall c s, tags t ≠ VStr (String c s)) ->
  exists body, extractTicketText t = Ok body ∧ nonempty body = true.
Proof.
  intros Hshape. unfold extractTicketText.
  set (text := if truthy (description t) && _ then _ else _).
  destruct (tags t) as [| |b|n|s|d|items] eqn:Htags; cbn.
  1-4,6: rewrite ?andb_false_r; eexists; split; [reflexivity|];
         by destruct (nonempty text) eqn:?.
  + destruct s as [|c s]; [|by destruct (Hshape c s)]. cbn.
    eexists; split; [reflexivity|]. by destruct (nonempty text) eqn:?.
  + destruct items as [|x items]; cbn.
    * eexists; split; [reflexivity|]. by destruct (nonempty text) eqn:?.
    * eexists; split; [reflexivity|].
      rewrite nonempty_app_r by done. by apply nonempty_app_r.
Qed.

(** A subject or a description that is a string or falsy: it is falsy
    and adds nothing, or it is a string with a first character. *)
Lemma text_like_cases v :
  text_like v ->
  (truthy v = false ∧ string_of v = EmptyString)
  ∨ exists c s, v = VStr (String c s).
Proof.
  intros [Hfalsy|[s ->]].
  - left. split; [done|]. destruct v as [| |b|n|s|d|items]; try done.
    by destruct s.
  - destruct s as [|c s]; [by left|]. right. by exists c, s.
Qed.

Lemma string_of_falsy v : truthy v = false -> string_of v = EmptyString.
Proof. destruct v as [| |b|n|s|d|items]; try done. by destruct s. Qed.

Lemma items_of_falsy v : truthy v = false -> items_of v = [].
Proof. by destruct v. Qed.

Lemma strict_eq_string_falsy c s v :
  truthy v = false -> strict_eq (VStr (String c s)) v = false.
Proof. destruct v as [| |b|n|s'|d|items]; try done. by destruct s'. Qed.

(** The text of a ticket of the expected shape is the one that the
    description words. *)
Lemma extractTicketText_body_text t :
  text_like (subject t) -> text_like (description t) ->
  truthy (tags t) = false ∨ (exists items, tags t = VArr items) ->
  extractTicketText t
  = Ok (body_text (string_of (subject t)) (string_of (description t))
          (items_of (tags t))).
Proof.
  intros Hsubject Hdescription Htags.
  assert (exists items,
            items_of (tags t) = items
            ∧ (if truthy (tags t) && gt_zero (length_of (tags t))
               then match tags t with
                    | VArr items' => items' = items ∧ items ≠ []
                    | _ => False
                    end
               else items = [])) as (items & Hitems & Hjoin).
  { destruct Htags as [Hfalsy|[items Harray]].
    - exists []. rewrite Hfalsy. split; [|done].
      by destruct (tags t) as [| |b|n|s|d|items].
    - exists items. rewrite Harray. split; [done|].
      by destruct items. }
  unfold extractTicketText, body_text. rewrite Hitems.
  destruct (text_like_cases _ Hsubject) as [[Hs ->]|(c & s & Hs)];
    destruct (text_like_cases _ Hdescription) as [[Hd ->]|(c' & d & Hd)].
  - rewrite Hs, Hd. cbn [andb nonempty].
    destruct (truthy (tags t) && gt_zero (length_of (tags t))).
    + destruct (tags t) as [| |b|n|s|dt|items']; try done.
      destruct Hjoin as [-> Hne]. destruct items as [|x items]; [done|].
      cbn. by rewrite nonempty_app_r.
    + by rewrite Hjoin.
  - rewrite Hs, Hd. cbn [truthy string_of andb nonempty].
    rewrite strict_eq_string_falsy by done. cbn [negb nonempty].
    destruct (truthy (tags t) && gt_zero (length_of (tags t))).
    + destruct (tags t) as [| |b|n|s'|dt|items']; try done.
      destruct Hjoin as [-> Hne]. destruct items as [|x items]; [done|].
      cbn. done.
    + rewrite Hjoin. cbn. by rewrite append_nil_r.
  - rewrite Hs, Hd. cbn [truthy string_of andb nonempty].
    destruct (truthy (tags t) && gt_zero (length_of (tags t))).
    + destruct (tags t) as [| |b|n|s'|dt|items']; try done.
      destruct Hjoin as [-> Hne]. destruct items as [|x items]; [done|].
      cbn. done.
    + rewrite Hjoin. cbn. by rewrite append_nil_r.
  - rewrite Hs, Hd. cbn [truthy string_of strict_eq andb nonempty].
    destruct (String.eqb (String c' d) (String c s)); cbn [negb nonempty].
    + destruct (truthy (tags t) && gt_zero (length_of (tags t))).
      * destruct (tags t) as [| |b|n|s'|dt|items']; try done.
        destruct Hjoin as [-> Hne]. destruct items as [|x items]; [done|].
        cbn. done.
      * rewrite Hjoin. cbn. by rewrite append_nil_r.
    + destruct (truthy (tags t) && gt_zero (length_of (tags t))).
      * destruct (tags t) as [| |b|n|s'|dt|items']; try done.
        destruct Hjoin as [-> Hne]. destruct items as [|x items]; [done|].
        cbn. done.
      * rewrite Hjoin. cbn. by rewrite append_nil_r.
Qed.

(** C9, for the tickets whose text can be built.  When the subject and
    the description are strings, or falsy, and [tags] is an array, or
    falsy, the text of a ticket is the text that the description words:
    the subject, a full stop and a space, and the description when both
    exist and differ, the one that exists otherwise (once, when they are
    equal); tags that are present are appended as a bracketed suffix,
    whatever the subject and the description are; a ticket without
    subject, description and tags gets a fixed text; the text is never
    empty. *)
Theorem extractTicketText_body :
  forall t : ticket,
    text_like (subject t) -> text_like (description t) ->
    truthy (tags t) = false ∨ (exists items, tags t = VArr items) ->
    extractTicketText t
    = Ok (body_text (string_of (subject t)) (string_of (description t))
            (items_of (tags t)))
    ∧ (forall s d,
         subject t = VStr s -> description t = VStr d ->
         s ≠ EmptyString -> d ≠ EmptyString -> d ≠ s ->
         extractTicketText t
         = Ok (s +:+ ". " +:+ d
               +:+ match items_of (tags t) with
                   | [] => EmptyString
                   | items => " [Tags: " +:+ array_join ", " items +:+ "]"
                   end))
    ∧ (forall s,
         subject t = VStr s -> description t = VStr s -> s ≠ EmptyString ->
         extractTicketText t
         = Ok (s +:+ match items_of (tags t) with
                     | [] => EmptyString
                     | items => " [Tags: " +:+ array_join ", " items +:+ "]"
                     end))
    ∧ (forall items,
         tags t = VArr items -> items ≠ [] ->
         exists main,
           extractTicketText t
           = Ok (main +:+ " [Tags: " +:+ array_join ", " items +:+ "]"))
    ∧ (truthy (subject t) = false -> truthy (description t) = false ->
       items_of (tags t) = [] ->
       extractTicketText t = Ok "No description available")
    ∧ exists body, extractTicketText t = Ok body ∧ nonempty body = true.
Proof.
  intros t Hsubject Hdescription Htags.
  pose proof (extractTicketText_body_text t Hsubject Hdescription Htags)
    as Hbody.
  split_and!; [done| | | | |].
  - intros s d Hs Hd Hsne Hdne Hneq. rewrite Hbody, Hs, Hd.
    unfold body_text. cbn [string_of].
    destruct s as [|c s]; [done|]. destruct d as [|c' d]; [done|].
    cbn [nonempty andb].
    destruct (String.eqb_spec (String c' d) (String c s)) as [?|_]; [done|].
    cbn [negb]. destruct (items_of (tags t)) as [|x items].
    + by rewrite !append_nil_r.
    + rewrite nonempty_app_l by done. by rewrite !append_assoc.
  - intros s Hs Hd Hsne. rewrite Hbody, Hs, Hd.
    unfold body_text. cbn [string_of].
    destruct s as [|c s]; [done|]. cbn [nonempty andb].
    rewrite String.eqb_refl. cbn [negb].
    destruct (items_of (tags t)) as [|x items].
    + by rewrite !append_nil_r.
    + by rewrite nonempty_app_l by done.
  - intros items Harray Hne. rewrite Hbody, Harray.
    unfold body_text. cbn [items_of].
    destruct items as [|x items]; [done|]. eexists.
    by rewrite nonempty_app_r by done.
  - intros Hs Hd Hnone. rewrite Hbody, Hnone. unfold body_text.
    destruct (text_like_cases _ Hsubject) as [[_ ->]|(c & s & Hc)];
      [|by rewrite Hc in Hs].
    destruct (text_like_cases _ Hdescription) as [[_ ->]|(c & s & Hc)];
      [|by rewrite Hc in Hd].
    done.
  - apply extractTicketText_returns. intros c s Hstring.
    destruct Htags as [Hfalsy|[items Harray]]; [|congruence].
    by rewrite Hstring in Hfalsy.
Qed.

Lemma extractTicketText_Ok t :
  (exists body, extractTicketText t = Ok body)
  <-> (forall c s, tags t ≠ VStr (String c s)).
Proof.
  split.
  - intros [body Hbody] c s Htags. unfold extractTicketText in Hbody.
    by rewrite Htags in Hbody.
  - intros Hshape.
    destruct (extractTicketText_returns t Hshape) as (body & -> & _).
    by eexists.
Qed.

(** Among the values of this model a ticket is converted without an
    exception exactly when it is [convertible]. *)
Lemma convertTicket_Ok ratingsMap i t :
  (exists entry, convertTicket ratingsMap i t = Ok entry) <-> convertible t.
Proof.
  unfold convertTicket, convertible. split.
  - intros [entry Hentry]. split.
    + intros Htruthy Hdate. by rewrite Htruthy, Hdate in Hentry.
    + apply extractTicketText_Ok.
      destruct (if truthy (created_at t) then _ else _); [|done].
      cbn in Hentry. destruct (extractTicketText t); [by eexists|done].
  - intros [Hdate Htags].
    apply extractTicketText_Ok in Htags as [body Hbody].
    rewrite Hbody.
    destruct (truthy (created_at t)); cbn; [|by eexists].
    destruct (new_Date (created_at t)); [|by destruct Hdate].
    cbn. by eexists.
Qed.

(** *** The join with the satisfaction ratings *)

(** The property that the map owns for a key is the last rating whose
    [ticket_id] is truthy and prints as the key. *)
Lemma ratingsMap_of_last rs key :
  ratingsMap_of rs !! key
  = last (filter (fun rating =>
                    truthy (ticket_id rating) = true
                    ∧ to_string (ticket_id rating) = key) rs).
Proof.
  unfold ratingsMap_of.
  induction rs as [|rating rs IH] using rev_ind; [done|].
  rewrite foldl_app, filter_app. cbn [foldl].
  destruct (truthy (ticket_id rating)) eqn:Htruthy.
  - destruct (decide (to_string (ticket_id rating) = key)) as [<-|Hkey].
    + rewrite lookup_insert_eq, filter_cons_True by done.
      by rewrite filter_nil, last_snoc.
    + rewrite lookup_insert_ne by done.
      rewrite filter_cons_False by (by intros [_ ?]).
      by rewrite filter_nil, app_nil_r.
  - rewrite filter_cons_False by (intros [? _]; congruence).
    by rewrite filter_nil, app_nil_r.
Qed.

(** A positive integer prints with a digit first. *)
Lemma pretty_N_char_digit x :
  (48 <=? nat_of_ascii (pretty_N_char x))%nat
  && (nat_of_ascii (pretty_N_char x) <=? 57)%nat = true.
Proof. unfold pretty_N_char. by repeat case_match. Qed.

Lemma pretty_N_go_head x s :
  (exists c rest,
     s = String c rest
     ∧ ((48 <=? nat_of_ascii c)%nat && (nat_of_ascii c <=? 57)%nat) = true) ->
  exists c rest,
    pretty_N_go x s = String c rest
    ∧ ((48 <=? nat_of_ascii c)%nat && (nat_of_ascii c <=? 57)%nat) = true.
Proof.
  revert s. induction (N.lt_wf_0 x) as [x _ IH]; intros s Hs.
  destruct (decide (x = 0%N)) as [->|Hx]; [by rewrite pretty_N_go_0|].
  rewrite pretty_N_go_step by lia. apply IH; [apply N.div_lt; lia|].
  eexists _, _. split; [done|]. apply pretty_N_char_digit.
Qed.

Lemma pretty_pos_head n :
  0 < n ->
  exists c rest,
    pretty n = String c rest
    ∧ ((48 <=? nat_of_ascii c)%nat && (nat_of_ascii c <=? 57)%nat) = true.
Proof.
  destruct n as [|p|p]; [lia| |lia]. intros _.
  unfold pretty, pretty_Z, pretty, pretty_positive, pretty, pretty_N.
  rewrite decide_False by done. rewrite pretty_N_go_step by lia.
  apply pretty_N_go_head. eexists _, _. split; [done|].
  apply pretty_N_char_digit.
Qed.

(** The key of an identifier names no member of [Object.prototype], and
    is not the key of a missing id. *)
Lemma identifier_key v :
  identifier v ->
  truthy v = true
  ∧ (to_string v ∉ Object_prototype_members)
  ∧ to_string v ≠ "undefined" ∧ to_string v ≠ "null".
Proof.
  intros (n & -> & Hn). cbn [truthy to_string].
  destruct (pretty_pos_head n) as (c & rest & Hpretty & Hdigit); [lia|].
  rewrite Hpretty. split_and!.
  - apply negb_true_iff, Z.eqb_neq. lia.
  - intros Hin%list_elem_of_In. cbn in Hin.
    repeat (destruct Hin as [Hin|Hin];
            [injection Hin as <- _; by vm_compute in Hdigit|]).
    done.
  - intros [= -> _]. by vm_compute in Hdigit.
  - intros [= -> _]. by vm_compute in Hdigit.
Qed.

Lemma missing_falsy v : missing v -> truthy v = false.
Proof. by intros [-> | ->]. Qed.

(** With ratings of the expected shape, a ticket that no rating names
    is joined to nothing. *)
Lemma ratingsMap_get_None rs v :
  Forall rating_typed rs ->
  missing v ∨ identifier v ->
  (forall r, r ∈ rs -> identifier (ticket_id r) -> ticket_id r ≠ v) ->
  ratingsMap_get (ratingsMap_of rs) (to_string v) = None.
Proof.
  intros Htyped Hv Hfresh. unfold ratingsMap_get.
  rewrite ratingsMap_of_last.
  assert (filter (fun rating =>
                    truthy (ticket_id rating) = true
                    ∧ to_string (ticket_id rating) = to_string v) rs = [])
    as ->.
  { apply filter_nil_iff_lookup || idtac.
    induction Htyped as [|r rs Hr _ IH]; [done|].
    rewrite filter_cons_False.
    - apply IH. intros r' Hr'. apply Hfresh. by right.
    - intros [Htruthy Hkey]. destruct Hr as [Hr|Hr].
      { by rewrite (missing_falsy _ Hr) in Htruthy. }
      destruct (identifier_key _ Hr) as (_ & _ & Hu & Hnull).
      destruct Hv as [[-> | ->]|Hv]; [by apply Hu|by apply Hnull|].
      apply (Hfresh r); [by left|done|].
      destruct Hr as (m & Hm & _), Hv as (n & -> & _).
      rewrite Hm in Hkey |- *. cbn in Hkey.
      by apply (inj pretty) in Hkey as ->. }
  cbn. rewrite decide_False; [done|].
  destruct Hv as [[-> | ->]|Hv].
  - intros Hin%list_elem_of_In. cbn in Hin.
    repeat (destruct Hin as [Hin|Hin]; [done|]). done.
  - intros Hin%list_elem_of_In. cbn in Hin.
    repeat (destruct Hin as [Hin|Hin]; [done|]). done.
  - by destruct (identifier_key _ Hv) as (_ & ? & _).
Qed.

(** What a converted ticket holds. *)
Lemma convertTicket_fields ratingsMap i t entry :
  convertTicket ratingsMap i t = Ok entry ->
  Json.helpful entry = 0
  ∧ (truthy (requester_id t) = false -> Json.author entry = "Anonymous")
  ∧ (truthy (subject t) = false -> Json.title entry = VStr EmptyString)
  ∧ (truthy (created_at t) = false -> Json.date entry = EmptyString)
  ∧ (truthy (tags t) = false -> Json.tags entry = VArr [])
  ∧ extractTicketText t = Ok (Json.review entry)
  ∧ Json.satisfaction_score entry
    = match ratingsMap_get ratingsMap (to_string (id t)) with
      | Some s => score s
      | None => VNull
      end
  ∧ Json.ticket_id entry = id t
  ∧ Json.status entry = status t
  ∧ Json.priority entry = priority t.
Proof.
  unfold convertTicket. intros Hentry.
  destruct (truthy (created_at t)) eqn:Hcreated.
  - destruct (toISOString _); [|done]. cbn in Hentry.
    destruct (extractTicketText t); [|done]. cbn in Hentry.
    injection Hentry as <-. cbn. unfold or_else. split_and!; try done.
    + by intros ->.
    + by intros ->.
    + by intros ->.
  - cbn in Hentry.
    destruct (extractTicketText t); [|done]. cbn in Hentry.
    injection Hentry as <-. cbn. unfold or_else. split_and!; try done.
    + by intros ->.
    + by intros ->.
    + by intros ->.
Qed.

Lemma ticket_typed_convertible t : ticket_typed t -> convertible t.
Proof.
  intros (_ & _ & _ & _ & Htags & Hcreated). split.
  - intros Htruthy. destruct Hcreated as [Hmissing|(s & -> & Hdate)].
    + by rewrite (missing_falsy _ Hmissing) in Htruthy.
    + done.
  - intros c s Hstring. destruct Htags as [[?|?]|(items & ? & _)];
      congruence.
Qed.

(** C6, for the tickets of the expected shape.  Converting tickets
    raises no exception when every property of a ticket and of a
    satisfaction rating is missing or has its type: identifiers for [id],
    [requester_id] and [ticket_id], strings for [subject] and
    [description], an array of strings for [tags], a string that reads
    as a date for [created_at].  There is then one record per ticket.  A
    missing [requester_id], [subject], [created_at] or [tags] becomes a
    default, as the text does when nothing is there to build it from;
    [helpful] is 0; the satisfaction score is null when no rating names
    the ticket.  [id], [status] and [priority] are copied as they are: a
    missing one stays undefined. *)
Theorem convertTicketsToReviews_total_on_typed :
  forall (tickets : list ticket) (satisfactionRatings : list satisfaction),
    Forall ticket_typed tickets ->
    Forall rating_typed satisfactionRatings ->
    exists entries,
      convertTicketsToReviews tickets satisfactionRatings = Ok entries
      ∧ length entries = length tickets
      ∧ forall i t entry,
          tickets !! i = Some t -> entries !! i = Some entry ->
          Json.helpful entry = 0
          ∧ (missing (requester_id t) -> Json.author entry = "Anonymous")
          ∧ (missing (subject t) -> Json.title entry = VStr EmptyString)
          ∧ (missing (created_at t) -> Json.date entry = EmptyString)
          ∧ (missing (tags t) -> Json.tags entry = VArr [])
          ∧ (missing (subject t) -> missing (description t) ->
             missing (tags t) ->
             Json.review entry = "No description available")
          ∧ ((forall r,
                r ∈ satisfactionRatings -> identifier (ticket_id r) ->
                ticket_id r ≠ id t) ->
             Json.satisfaction_score entry = VNull)
          ∧ Json.ticket_id entry = id t
          ∧ Json.status entry = status t
          ∧ Json.priority entry = priority t.
Proof.
  intros tickets satisfactionRatings Htickets Hratings.
  unfold convertTicketsToReviews, imapM.
  destruct (imapM_from_Ok
              (convertTicket (ratingsMap_of satisfactionRatings)) tickets 0)
    as (entries & Hentries & Hlen & Hnth).
  { intros j t Hj. apply convertTicket_Ok, ticket_typed_convertible.
    rewrite Forall_lookup in Htickets. by apply (Htickets j). }
  exists entries. split_and!; [done..|].
  intros i t entry Ht Hentry.
  assert (ticket_typed t) as Htyped
    by (rewrite Forall_lookup in Htickets; by apply (Htickets i)).
  destruct (convertTicket_fields _ (0 + i) t entry (Hnth i t entry Ht Hentry))
    as (Hhelpful & Hauthor & Htitle & Hdate & Htags & Hreview & Hscore
        & Hid & Hstatus & Hpriority).
  split_and!; try done.
  - intros ?%missing_falsy. by apply Hauthor.
  - intros ?%missing_falsy. by apply Htitle.
  - intros ?%missing_falsy. by apply Hdate.
  - intros ?%missing_falsy. by apply Htags.
  - intros Hs%missing_falsy Hd%missing_falsy Hnone%missing_falsy.
    rewrite extractTicketText_body_text in Hreview by (by left).
    rewrite !string_of_falsy, items_of_falsy in Hreview by done.
    by injection Hreview as <-.
  - intros Hfresh. rewrite Hscore.
    destruct Htyped as (Hidt & _).
    by rewrite (ratingsMap_get_None _ (id t)).
Qed.
End Tickets.

Lemma ticket_rating_derivation_witness :
  let host := UTCHost.host in
  Zendesk.determine_rating Examples.ticket_solved_low None = JS.VNum 5
  ∧ Zendesk.determine_rating Examples.ticket_solved_low
      (Some Examples.rating_good_17) = JS.VNum 5
  ∧ Zendesk.determine_rating Examples.ticket_solved_low
      (Some Examples.rating_bad_17) = JS.VNum 1.
Proof.
  intros host. split_and!.
  - apply (ticket_rating_derivation [] Examples.ticket_solved_low);
      reflexivity.
  - apply (ticket_rating_derivation [Examples.rating_good_17]
             Examples.ticket_solved_low) with Examples.rating_good_17;
      reflexivity.
  - apply (ticket_rating_derivation [Examples.rating_bad_17]
             Examples.ticket_solved_low) with Examples.rating_bad_17;
      reflexivity.
Defined.

Lemma extractTicketText_body_witness :
  Zendesk.extractTicketText (host := UTCHost.host) Examples.ticket_solved_low
  = JS.Ok "Login broken. Cannot log in [Tags: login, ios]"
  ∧ Zendesk.extractTicketText (host := UTCHost.host)
      Fixtures.ticket_same_text
    = JS.Ok "Refund".
Proof.
  split.
  - apply (extractTicketText_body (host := UTCHost.host)
             Examples.ticket_solved_low); right; by eexists.
  - apply (extractTicketText_body (host := UTCHost.host)
             Fixtures.ticket_same_text); right; by eexists.
Defined.

(** C9 does not hold for every ticket: a ticket without subject and
    description whose [tags] is a string yields no text at all, the call
    of [join] throws. *)
Lemma extractTicketText_raises_on_string_tags :
  Zendesk.extractTicketText (host := UTCHost.host)
    Fixtures.ticket_only_string_tags
  = JS.Throw (JS.TypeError "ticket.tags.join is not a function").
Proof. reflexivity. Qed.

(** C6 does not hold for every ticket.  A ticket whose [tags] is a string
    makes the conversion throw, and so does a [created_at] that the engine
    cannot read as a date; the tickets before it are lost with it.  And
    not every missing property becomes a default: the record of a ticket
    without properties has no status, no priority and no ticket id, and a
    ticket named like a member of [Object.prototype] gets an undefined
    satisfaction score. *)
Lemma convertTicketsToReviews_not_total :
  Zendesk.convertTicketsToReviews (host := UTCHost.host)
    [Examples.ticket_solved_low; Examples.ticket_tags_string] []
  = JS.Throw (JS.TypeError "ticket.tags.join is not a function")
  ∧ Zendesk.convertTicketsToReviews (host := UTCHost.host)
      [Examples.ticket_bad_date] []
    = JS.Throw (JS.RangeError "Invalid time value")
  ∧ (exists entry,
       Zendesk.convertTicketsToReviews (host := UTCHost.host)
         [Examples.empty_ticket] []
       = JS.Ok [entry]
       ∧ Zendesk.Json.status entry = JS.VUndefined
       ∧ Zendesk.Json.priority entry = JS.VUndefined
       ∧ Zendesk.Json.ticket_id entry = JS.VUndefined)
  ∧ (exists entry,
       Zendesk.convertTicketsToReviews (host := UTCHost.host)
         [Fixtures.ticket_constructor] []
       = JS.Ok [entry]
       ∧ Zendesk.Json.satisfaction_score entry = JS.VUndefined).
Proof.
  split_and!.
  - reflexivity.
  - reflexivity.
  - eexists. split; [reflexivity|]. by split_and!.
  - eexists. split; [vm_compute; reflexivity|]. done.
Qed.

Lemma convertTicketsToReviews_total_on_typed_witness :
  exists entries,
    Zendesk.convertTicketsToReviews (host := UTCHost.host)
      [Examples.ticket_solved_low; Examples.empty_ticket]
      [Examples.rating_good_17]
    = JS.Ok entries
    ∧ length entries = 2%nat.
Proof.
  destruct (convertTicketsToReviews_total_on_typed
              (host := UTCHost.host)
              [Examples.ticket_solved_low; Examples.empty_ticket]
              [Examples.rating_good_17])
    as (entries & Hentries & Hlen & _).
  - apply Forall_cons. split; [|apply Forall_cons; split; [|constructor]].
    + unfold Shapes.ticket_typed. cbn. split_and!.
      * right. exists 17. split; [done|lia].
      * right. exists 99. split; [done|lia].
      * right. by eexists.
      * right. by eexists.
      * right. eexists. split; [done|]. repeat constructor; by eexists.
      * right. eexists. split; [done|]. by vm_compute.
    + unfold Shapes.ticket_typed. cbn. split_and!; left; by left.
  - apply Forall_cons. split; [|constructor].
    right. exists 17. split; [done|lia].
  - by exists entries.
Defined.

(** ** Pagination of one App Store country *)

Section CountryPages.
Import JS AppStore AppStoreWorldwide.
Variable store_reviews : string -> nat -> response.
Variable countryCode : string.
Variable maxPages : nat.

Lemma loop_terminates fuel st :
  (1 <= fuel)%nat -> (maxPages <= fuel + pageCount st)%nat ->
  exists ex st',
    scrapeCountryReviews_loop store_reviews fuel countryCode maxPages st
    = Some (ex, st')
    ∧ (pageCount st < pageCount st')%nat
    ∧ (pageCount st' <= S (pageCount st) `max` maxPages)%nat.
Proof.
  revert st. induction fuel as [|fuel IH]; intros st Hfuel Hmax; [lia|].
  cbn [scrapeCountryReviews_loop].
  destruct (store_reviews countryCode (S (pageCount st))) as [e|reviews].
  { eexists _, _. split; [done|]. cbn. lia. }
  destruct (0 <? length (default [] reviews))%nat.
  - destruct (length (default [] reviews) <? 5)%nat.
    { eexists _, _. split; [done|]. cbn. lia. }
    destruct (Nat.ltb_spec (S (pageCount st)) maxPages).
    + edestruct IH as (ex & st' & -> & Hlt & Hle); [lia| |].
      2:{ eexists _, _. split; [done|]. cbn in Hlt, Hle. lia. }
      cbn. lia.
    + eexists _, _. split; [done|]. cbn. lia.
  - destruct (2 <=? _)%nat.
    { eexists _, _. split; [done|]. cbn. lia. }
    destruct (Nat.ltb_spec (S (pageCount st)) maxPages).
    + edestruct IH as (ex & st' & -> & Hlt & Hle); [lia| |].
      2:{ eexists _, _. split; [done|]. cbn in Hlt, Hle. lia. }
      cbn. lia.
    + eexists _, _. split; [done|]. cbn. lia.
Qed.

(** The loop is left for empty pages only with the counter at 2. *)
Lemma loop_empty_exit fuel st st' :
  (consecutiveEmptyPages st <= 1)%nat ->
  scrapeCountryReviews_loop store_reviews fuel countryCode maxPages st
  = Some (EmptyPages, st') ->
  consecutiveEmptyPages st' = 2%nat.
Proof.
  revert st. induction fuel as [|fuel IH]; intros st Hcount; [done|].
  cbn [scrapeCountryReviews_loop].
  destruct (store_reviews countryCode (S (pageCount st))) as [e|reviews];
    [done|].
  destruct (0 <? length (default [] reviews))%nat.
  - destruct (length (default [] reviews) <? 5)%nat; [done|].
    destruct (S (pageCount st) <? maxPages)%nat; [|done].
    apply IH. cbn. lia.
  - cbn [consecutiveEmptyPages].
    destruct (Nat.leb_spec 2 (S (consecutiveEmptyPages st))).
    + intros [= <-]. cbn. lia.
    + destruct (S (pageCount st) <? maxPages)%nat; [|done].
      apply IH. cbn. lia.
Qed.

(** Where the loop ends, and with what: it ends at the first page at
    which [ends_at] gives a reason, with the reviews of the pages up to
    that one.  The counter is 1 exactly when the page before is empty. *)
Lemma loop_ends_at fuel st :
  (1 <= fuel)%nat -> (maxPages <= fuel + pageCount st)%nat ->
  consecutiveEmptyPages st
  = (if (1 <=? pageCount st)%nat
        && Shapes.empty_page store_reviews countryCode (pageCount st)
     then 1 else 0)%nat ->
  exists ex st',
    scrapeCountryReviews_loop store_reviews fuel countryCode maxPages st
    = Some (ex, st')
    ∧ (pageCount st < pageCount st')%nat
    ∧ Shapes.ends_at store_reviews countryCode maxPages (pageCount st')
      = Some ex
    ∧ (forall q,
         (pageCount st < q < pageCount st')%nat ->
         Shapes.ends_at store_reviews countryCode maxPages q = None)
    ∧ allReviews st'
      = allReviews st
        ++ concat ((fun q =>
                      map (with_country countryCode)
                        (Shapes.page_reviews store_reviews countryCode q))
                   <$> seq (S (pageCount st))
                         (pageCount st' - pageCount st)).
Proof.
  revert st. induction fuel as [|fuel IH]; intros st Hfuel Hmax Hcounter;
    [lia|].
  cbn [scrapeCountryReviews_loop].
  remember (pageCount st) as j eqn:Hj.
  assert (forall page,
            Shapes.page_reviews store_reviews countryCode (S j) = page ->
            allReviews st ++ map (with_country countryCode) page
            = allReviews st
              ++ concat ((fun q =>
                            map (with_country countryCode)
                              (Shapes.page_reviews store_reviews
                                 countryCode q))
                         <$> seq (S j) (S j - j))) as Hone.
  { intros page <-. replace (S j - j)%nat with 1%nat by lia.
    cbn. by rewrite app_nil_r. }
  destruct (store_reviews countryCode (S j)) as [e|reviews] eqn:Hstore.
  { eexists _, _. split; [done|]. cbn [pageCount allReviews].
    split_and!; [lia| |intros q Hq; lia|].
    - unfold Shapes.ends_at. by rewrite Hstore.
    - rewrite <- (Hone []); [by rewrite app_nil_r|].
      unfold Shapes.page_reviews. by rewrite Hstore. }
  assert (Shapes.page_reviews store_reviews countryCode (S j)
          = default [] reviews) as Hpage
    by (unfold Shapes.page_reviews; by rewrite Hstore).
  assert (Shapes.empty_page store_reviews countryCode (S j)
          = (length (default [] reviews) =? 0)%nat) as Hempty
    by (unfold Shapes.empty_page; by rewrite Hstore).
  assert (forall ex st',
            scrapeCountryReviews_loop store_reviews fuel countryCode
              maxPages
              {| allReviews :=
                   allReviews st
                   ++ map (with_country countryCode) (default [] reviews);
                 pageCount := S j;
                 consecutiveEmptyPages :=
                   if (length (default [] reviews) =? 0)%nat
                   then 1%nat else 0%nat |}
            = Some (ex, st') ->
            Shapes.ends_at store_reviews countryCode maxPages (S j)
            = None ->
            (S j < pageCount st')%nat ->
            Shapes.ends_at store_reviews countryCode maxPages
              (pageCount st') = Some ex ->
            (forall q,
               (S j < q < pageCount st')%nat ->
               Shapes.ends_at store_reviews countryCode maxPages q = None) ->
            allReviews st'
            = (allReviews st
               ++ map (with_country countryCode) (default [] reviews))
              ++ concat ((fun q =>
                            map (with_country countryCode)
                              (Shapes.page_reviews store_reviews
                                 countryCode q))
                         <$> seq (S (S j)) (pageCount st' - S j)) ->
            (j < pageCount st')%nat
            ∧ Shapes.ends_at store_reviews countryCode maxPages
                (pageCount st') = Some ex
            ∧ (forall q,
                 (j < q < pageCount st')%nat ->
                 Shapes.ends_at store_reviews countryCode maxPages q
                 = None)
            ∧ allReviews st'
              = allReviews st
                ++ concat ((fun q =>
                              map (with_country countryCode)
                                (Shapes.page_reviews store_reviews
                                   countryCode q))
                           <$> seq (S j) (pageCount st' - j))) as Hnext.
  { intros ex st' _ Hgoes Hlt Hends Hbefore Hall. split_and!; [lia|done| |].
    - intros q Hq. destruct (decide (q = S j)) as [->|Hne]; [done|].
      apply Hbefore. lia.
    - rewrite Hall, <- app_assoc. f_equal.
      replace (pageCount st' - j)%nat with (S (pageCount st' - S j))
        by lia.
      cbn [seq fmap list_fmap concat]. by rewrite Hpage. }
  cbn [from_option id] in *.
  destruct (Nat.ltb_spec 0 (length (default [] reviews))) as [Hsome|Hnone].
  - assert ((length (default [] reviews) =? 0)%nat = false) as Hnot
      by (apply Nat.eqb_neq; lia).
    destruct (Nat.ltb_spec (length (default [] reviews)) 5) as [Hfew|Hfull].
    { eexists _, _. split; [done|]. cbn [pageCount allReviews].
      split_and!; [lia| |intros q Hq; lia|by apply Hone].
      unfold Shapes.ends_at. rewrite Hstore. cbn zeta.
      destruct (Nat.ltb_spec 0 (length (default [] reviews))); [|lia].
      by destruct (Nat.ltb_spec (length (default [] reviews)) 5); [|lia]. }
    assert (Shapes.ends_at store_reviews countryCode maxPages (S j)
            = if (S j <? maxPages)%nat then None
              else Some PageLimit) as Hends.
    { unfold Shapes.ends_at. rewrite Hstore. cbn zeta.
      destruct (Nat.ltb_spec (length (default [] reviews)) 5); [lia|].
      by rewrite Hnot, andb_false_r. }
    destruct (Nat.ltb_spec (S j) maxPages) as [Hgo|Hstop].
    + edestruct (IH {| allReviews :=
                         allReviews st
                         ++ map (with_country countryCode)
                              (default [] reviews);
                       pageCount := S j;
                       consecutiveEmptyPages := 0 |})
        as (ex & st' & Hrun & Hlt & Hex & Hbefore & Hall);
        [lia|cbn; lia| |].
      { cbn [pageCount consecutiveEmptyPages]. by rewrite Hempty, Hnot. }
      exists ex, st'. split; [done|].
      apply (Hnext ex st'); try done. by rewrite Hnot.
    + eexists _, _. split; [done|]. cbn [pageCount allReviews].
      split_and!; [lia|done|intros q Hq; lia|by apply Hone].
  - assert (default [] reviews = []) as Hnil
      by (destruct (default [] reviews); [done|cbn in Hnone; lia]).
    rewrite Hnil in *. cbn [length Nat.eqb] in *.
    cbn [consecutiveEmptyPages].
    destruct (Nat.leb_spec 2 (S (consecutiveEmptyPages st))) as [Htwo|Hone'].
    + eexists _, _. split; [done|]. cbn [pageCount allReviews].
      split_and!; [lia| |intros q Hq; lia|].
      * unfold Shapes.ends_at. rewrite Hstore, Hnil. cbn.
        replace (j - 0)%nat with j by lia.
        destruct ((1 <=? j)%nat
                  && Shapes.empty_page store_reviews countryCode j)
          eqn:Hprevious; [|lia].
        apply andb_true_iff in Hprevious as [Hpos ->].
        apply Nat.leb_le in Hpos.
        by destruct j; [lia|].
      * rewrite <- (Hone []); [by rewrite app_nil_r|done].
    + assert ((1 <=? j)%nat
              && Shapes.empty_page store_reviews countryCode j = false)
        as Hprevious.
      { destruct ((1 <=? j)%nat
                  && Shapes.empty_page store_reviews countryCode j);
          [lia|done]. }
      assert (Shapes.ends_at store_reviews countryCode maxPages (S j)
              = if (S j <? maxPages)%nat then None
                else Some PageLimit) as Hends.
      { unfold Shapes.ends_at. rewrite Hstore, Hnil. cbn.
        replace (j - 0)%nat with j by lia.
        destruct j as [|j']; [done|]. cbn in Hprevious.
        by rewrite Hprevious. }
      destruct (Nat.ltb_spec (S j) maxPages) as [Hgo|Hstop].
      * edestruct (IH {| allReviews := allReviews st;
                         pageCount := S j;
                         consecutiveEmptyPages :=
                           S (consecutiveEmptyPages st) |})
          as (ex & st' & Hrun & Hlt & Hex & Hbefore & Hall);
          [lia|cbn; lia| |].
        { cbn [pageCount consecutiveEmptyPages]. rewrite Hempty. cbn.
          rewrite Hcounter, Hprevious. done. }
        exists ex, st'. split; [done|].
        cbn [pageCount allReviews] in *.
        apply (Hnext ex st'); try done.
        -- rewrite app_nil_r. rewrite <- Hrun. do 3 f_equal.
           rewrite Hcounter, Hprevious. done.
        -- by rewrite app_nil_r.
      * eexists _, _. split; [done|]. cbn [pageCount allReviews].
        split_and!; [lia|done|intros q Hq; lia|].
        rewrite <- (Hone []); [by rewrite app_nil_r|done].
Qed.

(** Pages of one constant size of at least 5: the loop runs until the
    page limit. *)
Lemma loop_constant_pages page k fuel st :
  (forall p, store_reviews countryCode p = Resolved (Some page)) ->
  (5 <= length page)%nat ->
  (1 <= k)%nat -> (k <= fuel)%nat -> (pageCount st + k = maxPages)%nat ->
  scrapeCountryReviews_loop store_reviews fuel countryCode maxPages st
  = Some (PageLimit,
          {| allReviews :=
               allReviews st
               ++ concat (replicate k (map (with_country countryCode) page));
             pageCount := maxPages;
             consecutiveEmptyPages := 0 |}).
Proof.
  intros Hstore Hlen. revert fuel st.
  induction k as [|k IH]; intros fuel st Hk Hfuel Hpages; [lia|].
  destruct fuel as [|fuel]; [lia|].
  cbn [scrapeCountryReviews_loop]. rewrite Hstore. cbn [from_option id].
  destruct (Nat.ltb_spec 0 (length page)); [|lia].
  destruct (Nat.ltb_spec (length page) 5); [lia|].
  destruct (Nat.ltb_spec (S (pageCount st)) maxPages).
  - rewrite IH; cbn [allReviews pageCount]; [|lia..].
    cbn [replicate concat]. by rewrite <- app_assoc.
  - assert (k = 0%nat) as -> by lia. cbn [replicate concat].
    rewrite app_nil_r. do 3 f_equal. lia.
Qed.
End CountryPages.

(** ** Pagination of the single App Store storefront *)

Section StorefrontPages.
Import JS AppStore.
Variable store_reviews : string -> nat -> response.

Lemma fetch_loop_terminates fuel all page :
  (1 <= fuel)%nat -> (200 <= fuel + page)%nat ->
  exists fetched, fetch_loop store_reviews fuel all page = Some fetched.
Proof.
  revert all page.
  induction fuel as [|fuel IH]; intros all page Hfuel Hmax; [lia|].
  cbn [fetch_loop].
  destruct (store_reviews _ _) as [e|reviews]; [by eexists|].
  destruct (0 <? _)%nat; [|by eexists].
  destruct (Nat.ltb_spec (S page) 200); [|by eexists].
  apply IH; lia.
Qed.

(** The loop of the single storefront leaves at the first page without
    reviews, and goes on after a page with few reviews. *)
Lemma fetch_loop_first_empty_page fuel all page reviews :
  store_reviews "us" (S page) = Resolved reviews ->
  default [] reviews = [] ->
  fetch_loop store_reviews (S fuel) all page = Some (Ok all).
Proof. intros Hstore Hnone. cbn [fetch_loop]. by rewrite Hstore, Hnone. Qed.

Lemma fetch_loop_next_page fuel all page reviews :
  store_reviews "us" (S page) = Resolved (Some reviews) ->
  reviews ≠ [] -> (S page < 200)%nat ->
  fetch_loop store_reviews (S fuel) all page
  = fetch_loop store_reviews fuel (all ++ reviews) (S page).
Proof.
  intros Hstore Hsome Hpage. cbn [fetch_loop]. rewrite Hstore.
  cbn [from_option id]. destruct reviews as [|r reviews]; [done|].
  destruct (Nat.ltb_spec 0 (length (r :: reviews))); [|cbn in *; lia].
  by destruct (Nat.ltb_spec (S page) 200); [|lia].
Qed.

Lemma fetch_loop_rejected fuel all page e :
  store_reviews "us" (S page) = RejectedWith e ->
  fetch_loop store_reviews (S fuel) all page = Some (Throw e).
Proof. intros Hstore. cbn [fetch_loop]. by rewrite Hstore. Qed.

(** Pages of one constant size that are not empty: the loop runs until
    its limit of 200 pages. *)
Lemma fetch_loop_constant_pages page k fuel all pageCount :
  (forall p, store_reviews "us" p = Resolved (Some page)) ->
  page ≠ [] ->
  (1 <= k)%nat -> (k <= fuel)%nat -> (pageCount + k = 200)%nat ->
  fetch_loop store_reviews fuel all pageCount
  = Some (Ok (all ++ concat (replicate k page))).
Proof.
  intros Hstore Hpage. revert fuel all pageCount.
  induction k as [|k IH]; intros fuel all pageCount Hk Hfuel Hpages; [lia|].
  destruct fuel as [|fuel]; [lia|].
  destruct (decide (k = 0%nat)) as [->|Hk0].
  - cbn [fetch_loop]. rewrite Hstore. cbn [from_option id].
    destruct (Nat.ltb_spec 0 (length page));
      [|by destruct page; cbn in *; [|lia]].
    destruct (Nat.ltb_spec (S pageCount) 200); [lia|].
    cbn [replicate concat]. by rewrite app_nil_r.
  - rewrite (fetch_loop_next_page fuel all pageCount page) by (done || lia).
    rewrite IH by lia. cbn [replicate concat]. by rewrite <- app_assoc.
Qed.
End StorefrontPages.

(** C3, for the two loops over the pages of the App Store.  The loop of
    [scrapeCountryReviews] always ends, within [maxPages] requests: it ends
    at the first page at which the request fails, or that holds between 1
    and 4 reviews, or that is the second page in a row without reviews, or
    that is page [maxPages]; and it returns the reviews of every page up
    to that one, in order, each with its country.  When
    every page has one constant size of at least 5 it ends after exactly
    [maxPages] requests, every page kept.  A page without reviews adds one
    to the counter of consecutive empty pages, and the loop stops for that
    reason only when the counter reaches 2.  A page with fewer than 5
    reviews is kept and ends the loop.  The loop of the single storefront,
    in [scrapeAllReviews], always ends too, after exactly 200 requests
    when every page has one constant size; it has no counter: it ends at
    the first page without reviews, and it goes on after a page with few
    reviews. *)
Theorem fetch_loops_pagination :
  forall (store_reviews : string -> nat -> AppStore.response)
         (countryCode : string) (maxPages : nat),
    let loop :=
      AppStoreWorldwide.scrapeCountryReviews_loop store_reviews in
    let run :=
      AppStoreWorldwide.scrapeCountryReviews_run store_reviews countryCode
        maxPages in
    (exists ex st,
       run = Some (ex, st)
       ∧ (1 <= AppStoreWorldwide.pageCount st <= 1 `max` maxPages)%nat
       ∧ Shapes.ends_at store_reviews countryCode maxPages
           (AppStoreWorldwide.pageCount st) = Some ex
       ∧ (forall q,
            (1 <= q < AppStoreWorldwide.pageCount st)%nat ->
            Shapes.ends_at store_reviews countryCode maxPages q = None)
       ∧ AppStoreWorldwide.allReviews st
         = concat ((fun q =>
                      map (AppStoreWorldwide.with_country countryCode)
                        (Shapes.page_reviews store_reviews countryCode q))
                   <$> seq 1 (AppStoreWorldwide.pageCount st)))
    ∧ (forall page,
         (forall p,
            store_reviews countryCode p = AppStore.Resolved (Some page)) ->
         (5 <= length page)%nat -> (1 <= maxPages)%nat ->
         run
         = Some (AppStoreWorldwide.PageLimit,
                 {| AppStoreWorldwide.allReviews :=
                      concat (replicate maxPages
                                (map (AppStoreWorldwide.with_country
                                        countryCode) page));
                    AppStoreWorldwide.pageCount := maxPages;
                    AppStoreWorldwide.consecutiveEmptyPages := 0 |}))
    ∧ (forall fuel st reviews,
         store_reviews countryCode (S (AppStoreWorldwide.pageCount st))
         = AppStore.Resolved reviews ->
         default [] reviews = [] ->
         let st' :=
           {| AppStoreWorldwide.allReviews :=
                AppStoreWorldwide.allReviews st;
              AppStoreWorldwide.pageCount :=
                S (AppStoreWorldwide.pageCount st);
              AppStoreWorldwide.consecutiveEmptyPages :=
                S (AppStoreWorldwide.consecutiveEmptyPages st) |} in
         loop (S fuel) countryCode maxPages st
         = if (2 <=? S (AppStoreWorldwide.consecutiveEmptyPages st))%nat
           then Some (AppStoreWorldwide.EmptyPages, st')
           else if (S (AppStoreWorldwide.pageCount st) <? maxPages)%nat
           then loop fuel countryCode maxPages st'
           else Some (AppStoreWorldwide.PageLimit, st'))
    ∧ (forall st,
         run = Some (AppStoreWorldwide.EmptyPages, st) ->
         AppStoreWorldwide.consecutiveEmptyPages st = 2%nat)
    ∧ (forall fuel st page,
         store_reviews countryCode (S (AppStoreWorldwide.pageCount st))
         = AppStore.Resolved (Some page) ->
         (0 < length page < 5)%nat ->
         loop (S fuel) countryCode maxPages st
         = Some (AppStoreWorldwide.FewReviews,
                 {| AppStoreWorldwide.allReviews :=
                      AppStoreWorldwide.allReviews st
                      ++ map (AppStoreWorldwide.with_country countryCode)
                           page;
                    AppStoreWorldwide.pageCount :=
                      S (AppStoreWorldwide.pageCount st);
                    AppStoreWorldwide.consecutiveEmptyPages := 0 |}))
    ∧ (exists fetched,
         AppStore.fetch_loop store_reviews 200 [] 0 = Some fetched)
    ∧ (forall page,
         (forall p, store_reviews "us" p = AppStore.Resolved (Some page)) ->
         page ≠ [] ->
         AppStore.fetch_loop store_reviews 200 [] 0
         = Some (JS.Ok (concat (replicate 200 page))))
    ∧ (forall fuel all pageCount reviews,
         store_reviews "us" (S pageCount) = AppStore.Resolved reviews ->
         default [] reviews = [] ->
         AppStore.fetch_loop store_reviews (S fuel) all pageCount
         = Some (JS.Ok all))
    ∧ (forall fuel all pageCount reviews,
         store_reviews "us" (S pageCount)
         = AppStore.Resolved (Some reviews) ->
         reviews ≠ [] -> (S pageCount < 200)%nat ->
         AppStore.fetch_loop store_reviews (S fuel) all pageCount
         = AppStore.fetch_loop store_reviews fuel (all ++ reviews)
             (S pageCount)).
Proof.
  intros store_reviews countryCode maxPages loop run. split_and!.
  - destruct (loop_terminates store_reviews countryCode maxPages
                (S maxPages) AppStoreWorldwide.initial)
      as (ex & st & Hrun & Hlt & Hle); [lia|cbn; lia|].
    destruct (loop_ends_at store_reviews countryCode maxPages
                (S maxPages) AppStoreWorldwide.initial)
      as (ex' & st' & Hrun' & _ & Hends & Hbefore & Hall);
      [lia|cbn; lia|done|].
    rewrite Hrun in Hrun'. injection Hrun' as <- <-.
    exists ex, st. cbn in Hlt, Hle, Hbefore, Hall.
    rewrite Nat.sub_0_r in Hall.
    split_and!; [done|lia|lia|done| |done].
    intros q Hq. apply Hbefore. lia.
  - intros page Hstore Hlen Hmax. unfold run.
    unfold AppStoreWorldwide.scrapeCountryReviews_run.
    by rewrite (loop_constant_pages store_reviews countryCode maxPages
                  page maxPages) by (done || cbn; lia).
  - intros fuel st reviews Hstore Hnone st'. unfold loop.
    cbn [AppStoreWorldwide.scrapeCountryReviews_loop].
    by rewrite Hstore, Hnone.
  - intros st Hrun.
    apply (loop_empty_exit store_reviews countryCode maxPages
             (S maxPages) AppStoreWorldwide.initial); [cbn; lia|done].
  - intros fuel st page Hstore [Hpos Hfew]. unfold loop.
    cbn [AppStoreWorldwide.scrapeCountryReviews_loop].
    rewrite Hstore. cbn [from_option id].
    destruct (Nat.ltb_spec 0 (length page)); [|lia].
    by destruct (Nat.ltb_spec (length page) 5); [|lia].
  - apply fetch_loop_terminates; lia.
  - intros page Hstore Hpage.
    by rewrite (fetch_loop_constant_pages store_reviews page 200)
      by (done || lia).
  - apply fetch_loop_first_empty_page.
  - apply fetch_loop_next_page.
Qed.

Lemma fetch_loops_pagination_witness :
  AppStoreWorldwide.scrapeCountryReviews_run Examples.endless_store "us" 20
  = Some (AppStoreWorldwide.PageLimit,
          {| AppStoreWorldwide.allReviews :=
               concat (replicate 20
                         (map (AppStoreWorldwide.with_country "us")
                            Examples.full_page));
             AppStoreWorldwide.pageCount := 20;
             AppStoreWorldwide.consecutiveEmptyPages := 0 |})
  ∧ (forall st,
       AppStoreWorldwide.scrapeCountryReviews_run Examples.one_page_store
         "us" 20 = Some (AppStoreWorldwide.EmptyPages, st) ->
       AppStoreWorldwide.consecutiveEmptyPages st = 2%nat)
  ∧ AppStore.fetch_loop Examples.endless_store 200 [] 0
    = Some (JS.Ok (concat (replicate 200 Examples.full_page)))
  ∧ (exists ex st,
       AppStoreWorldwide.scrapeCountryReviews_run Fixtures.two_gaps_store
         "us" 20 = Some (ex, st)
       ∧ (1 <= AppStoreWorldwide.pageCount st <= 1 `max` 20)%nat
       ∧ Shapes.ends_at Fixtures.two_gaps_store "us" 20
           (AppStoreWorldwide.pageCount st) = Some ex
       ∧ (forall q,
            (1 <= q < AppStoreWorldwide.pageCount st)%nat ->
            Shapes.ends_at Fixtures.two_gaps_store "us" 20 q = None)
       ∧ AppStoreWorldwide.allReviews st
         = concat ((fun q =>
                      map (AppStoreWorldwide.with_country "us")
                        (Shapes.page_reviews Fixtures.two_gaps_store "us" q))
                   <$> seq 1 (AppStoreWorldwide.pageCount st))).
Proof.
  split_and!; [| | |apply (fetch_loops_pagination Fixtures.two_gaps_store)].
  - apply (fetch_loops_pagination Examples.endless_store "us" 20).
    + reflexivity.
    + cbn. lia.
    + lia.
  - apply (fetch_loops_pagination Examples.one_page_store "us" 20).
  - apply (fetch_loops_pagination Examples.endless_store "us" 20).
    + reflexivity.
    + done.
Defined.

(** C3 does not hold for the loop of the single storefront.  When the
    second page is empty and the third is not, that loop ends at the second
    page with the first page only, while the loop of [scrapeCountryReviews]
    goes on; and a second page of two reviews does not end it: it fetches
    all 200 pages. *)
Lemma single_storefront_stops_at_first_empty_page :
  AppStore.fetch_loop Examples.gap_store 200 [] 0
  = Some (JS.Ok Examples.full_page)
  ∧ (exists st,
       AppStoreWorldwide.scrapeCountryReviews_run Examples.gap_store "us" 20
       = Some (AppStoreWorldwide.PageLimit, st)
       ∧ length (AppStoreWorldwide.allReviews st) = 95%nat)
  ∧ (exists all,
       AppStore.fetch_loop Examples.short_page_store 200 [] 0
       = Some (JS.Ok all)
       ∧ length all = 997%nat).
Proof.
  split_and!.
  - vm_compute. reflexivity.
  - eexists. split; vm_compute; reflexivity.
  - eexists. split; vm_compute; reflexivity.
Qed.

(** The storefront with one page: the run goes on after the first empty
    page and stops after the second one. *)
Example one_page_store_run :
  AppStoreWorldwide.scrapeCountryReviews_run Examples.one_page_store "us" 20
  = Some (AppStoreWorldwide.EmptyPages,
          {| AppStoreWorldwide.allReviews :=
               map (AppStoreWorldwide.with_country "us") Examples.full_page;
             AppStoreWorldwide.pageCount := 3;
             AppStoreWorldwide.consecutiveEmptyPages := 2 |}).
Proof. reflexivity. Qed.

(** Two empty pages that are not next to each other do not stop the run:
    a page with reviews between them sets the counter back to 0. *)
Example two_gaps_store_run :
  exists st,
    AppStoreWorldwide.scrapeCountryReviews_run Fixtures.two_gaps_store
      "us" 20 = Some (AppStoreWorldwide.PageLimit, st)
    ∧ AppStoreWorldwide.pageCount st = 20%nat
    ∧ AppStoreWorldwide.consecutiveEmptyPages st = 0%nat
    ∧ length (AppStoreWorldwide.allReviews st) = 90%nat.
Proof. eexists. split; [vm_compute; reflexivity|]. by split_and!. Qed.

(** The storefront with a short second page: the run keeps it and stops. *)
Example short_page_store_run :
  exists st,
    AppStoreWorldwide.scrapeCountryReviews_run Examples.short_page_store
      "us" 20 = Some (AppStoreWorldwide.FewReviews, st)
    ∧ AppStoreWorldwide.pageCount st = 2%nat
    ∧ length (AppStoreWorldwide.allReviews st) = 7%nat.
Proof. eexists. split; [reflexivity|]. by split. Qed.

(** ** Failures of the Google Play provider *)

Section PlayFetch.
Import JS GooglePlay.
Variable gplay_reviews : string -> nat -> option value -> response.

Lemma play_loop_terminates fuel countryCode maxBatches all token batch :
  (1 <= fuel)%nat -> (maxBatches <= fuel + batch)%nat ->
  exists reviews,
    scrapeCountryReviews_loop gplay_reviews fuel countryCode maxBatches
      all token batch = Some reviews.
Proof.
  revert all token batch.
  induction fuel as [|fuel IH]; intros all token batch Hfuel Hmax; [lia|].
  cbn [scrapeCountryReviews_loop].
  destruct (gplay_reviews _ _ _) as [e|reviews|data next];
    [by eexists|..].
  - destruct (0 <? _)%nat; [|by eexists].
    destruct (_ <? 10)%nat; [by eexists|].
    cbn [token_of truthy andb]. by eexists.
  - destruct (0 <? _)%nat; [|by eexists].
    destruct (_ <? 10)%nat; [by eexists|].
    destruct (truthy _); cbn [andb]; [|by eexists].
    destruct (Nat.ltb_spec (S batch) maxBatches); [|by eexists].
    apply IH; lia.
Qed.

Lemma scrapeCountryReviews_returns countryCode maxBatches :
  exists reviews,
    scrapeCountryReviews gplay_reviews countryCode maxBatches
    = Some reviews.
Proof. apply play_loop_terminates; lia. Qed.

(** The loop on its way to a request that fails: every page before that
    request is kept, and the failure returns them all. *)
Lemma play_loop_fails_at fuel countryCode maxBatches pages tokens k e
    all token batch :
  (batch < k)%nat -> (k - batch <= fuel)%nat ->
  (k <= maxBatches ∨ k = S batch)%nat ->
  (if truthy token then Some token else None)
  = Shapes.token_sent tokens (S batch) ->
  (forall i,
     (batch < i < k)%nat ->
     gplay_reviews countryCode i (Shapes.token_sent tokens i)
     = ResolvedObject (Some (pages i)) (tokens i)
     ∧ (10 <= length (pages i))%nat
     ∧ truthy (tokens i) = true) ->
  gplay_reviews countryCode k (Shapes.token_sent tokens k)
  = RejectedWith e ->
  scrapeCountryReviews_loop gplay_reviews fuel countryCode maxBatches
    all token batch
  = Some (all ++ concat ((fun i => map (with_country countryCode) (pages i))
                         <$> seq (S batch) (k - S batch))).
Proof.
  revert all token batch.
  induction fuel as [|fuel IH];
    intros all token batch Hbatch Hfuel Hmax Htoken Hpages Hfail; [lia|].
  cbn [scrapeCountryReviews_loop]. rewrite Htoken.
  destruct (decide (k = S batch)) as [->|Hlater].
  { rewrite Hfail. replace (S batch - S batch)%nat with 0%nat by lia.
    cbn. by rewrite app_nil_r. }
  destruct (Hpages (S batch)) as (-> & Hlen & Htruthy); [lia|].
  cbn [reviews_of token_of].
  destruct (Nat.ltb_spec 0 (length (pages (S batch)))); [|lia].
  destruct (Nat.ltb_spec (length (pages (S batch))) 10); [lia|].
  rewrite Htruthy. cbn [andb].
  destruct (Nat.ltb_spec (S batch) maxBatches); [|lia].
  rewrite (IH _ _ (S batch)); [|lia|lia|lia| | |done].
  - replace (k - S batch)%nat with (S (k - S (S batch))) by lia.
    cbn [seq fmap list_fmap concat]. by rewrite <- app_assoc.
  - by rewrite Htruthy.
  - intros i Hi. apply Hpages. lia.
Qed.

Lemma countries_loop_concat countries all n :
  exists perCountry,
    Forall2 (fun country reviews =>
               scrapeCountryReviews gplay_reviews country 10
               = Some reviews) countries perCountry
    ∧ countries_loop gplay_reviews countries all n
      = Some (all ++ concat perCountry,
              (n + length (filter (fun reviews => reviews ≠ [])
                             perCountry))%nat).
Proof.
  revert all n. induction countries as [|country rest IH]; intros all n.
  - exists []. split; [constructor|]. cbn.
    by rewrite app_nil_r, Nat.add_0_r.
  - destruct (scrapeCountryReviews_returns country 10) as [reviews Hc].
    cbn [countries_loop]. rewrite Hc. cbn [mbind option_bind].
    destruct reviews as [|r reviews].
    + destruct (IH all n) as (per & Hper & ->).
      exists ([] :: per). split; [by constructor|].
      cbn [concat app]. rewrite filter_cons_False by naive_solver.
      done.
    + cbn [length Nat.ltb Nat.leb].
      destruct (IH (all ++ r :: reviews) (S n)) as (per & Hper & ->).
      exists ((r :: reviews) :: per). split; [by constructor|].
      cbn [concat]. rewrite filter_cons_True by done.
      cbn [length]. rewrite <- app_assoc. do 2 f_equal. lia.
Qed.
End PlayFetch.

(** C7.  A request that fails, on any page of a country, ends the fetch
    of that country only.  When request [k] of a country fails, after
    [k - 1] pages were served, [scrapeCountryReviews] returns the reviews
    of these [k - 1] pages, in order and each with its country: none when
    the first request fails.  The [catch] returns the reviews gathered so
    far whatever they are; [scrapeCountryReviews] returns for every
    provider; and the run over the countries visits every country and
    gathers what each of them returned, in order. *)
Theorem provider_failure_ends_one_country :
  forall gplay_reviews : string -> nat -> option JS.value -> GooglePlay.response,
    (forall countryCode maxBatches pages tokens k e,
       (1 <= k)%nat -> (k <= 1 `max` maxBatches)%nat ->
       (forall i,
          (1 <= i < k)%nat ->
          gplay_reviews countryCode i (Shapes.token_sent tokens i)
          = GooglePlay.ResolvedObject (Some (pages i)) (tokens i)
          ∧ (10 <= length (pages i))%nat
          ∧ JS.truthy (tokens i) = true) ->
       gplay_reviews countryCode k (Shapes.token_sent tokens k)
       = GooglePlay.RejectedWith e ->
       GooglePlay.scrapeCountryReviews gplay_reviews countryCode maxBatches
       = Some (concat ((fun i =>
                          map (GooglePlay.with_country countryCode)
                            (pages i))
                       <$> seq 1 (k - 1))))
    ∧ (forall fuel countryCode maxBatches allReviews token batchCount e,
       gplay_reviews countryCode (S batchCount)
         (if JS.truthy token then Some token else None)
       = GooglePlay.RejectedWith e ->
       GooglePlay.scrapeCountryReviews_loop gplay_reviews (S fuel)
         countryCode maxBatches allReviews token batchCount
       = Some allReviews)
    ∧ (forall countryCode maxBatches e,
         gplay_reviews countryCode 1%nat None = GooglePlay.RejectedWith e ->
         GooglePlay.scrapeCountryReviews gplay_reviews countryCode maxBatches
         = Some [])
    ∧ (forall countryCode maxBatches,
         exists reviews,
           GooglePlay.scrapeCountryReviews gplay_reviews countryCode
             maxBatches = Some reviews)
    ∧ (forall countries,
         exists perCountry,
           Forall2 (fun country reviews =>
                      GooglePlay.scrapeCountryReviews gplay_reviews country 10
                      = Some reviews) countries perCountry
           ∧ GooglePlay.countries_loop gplay_reviews countries [] 0
             = Some (concat perCountry,
                     length (filter (fun reviews => reviews ≠ [])
                               perCountry))).
Proof.
  intros gplay_reviews. split_and!.
  - intros countryCode maxBatches pages tokens k e Hk Hmax Hpages Hfail.
    unfold GooglePlay.scrapeCountryReviews.
    by rewrite (play_loop_fails_at gplay_reviews (S maxBatches) countryCode
                  maxBatches pages tokens k e [] JS.VNull 0)
      by (done || lia || (intros i Hi; apply Hpages; lia)).
  - intros fuel countryCode maxBatches allReviews token batchCount e He.
    cbn [GooglePlay.scrapeCountryReviews_loop]. by rewrite He.
  - intros countryCode maxBatches e He.
    unfold GooglePlay.scrapeCountryReviews.
    cbn [GooglePlay.scrapeCountryReviews_loop JS.truthy]. by rewrite He.
  - apply scrapeCountryReviews_returns.
  - intros countries.
    destruct (countries_loop_concat gplay_reviews countries [] 0)
      as (per & Hper & Hloop).
    by exists per.
Qed.

Lemma provider_failure_ends_one_country_witness :
  GooglePlay.scrapeCountryReviews Examples.flaky_play "de" 10 = Some []
  ∧ GooglePlay.scrapeCountryReviews Examples.flaky_play "fr" 10
    = Some (map (GooglePlay.with_country "fr") Examples.play_page).
Proof.
  split.
  - apply (proj1 (provider_failure_ends_one_country Examples.flaky_play)
             "de" 10%nat (fun _ => []) (fun _ => JS.VNull) 1%nat
             (JS.Rejected "timeout")).
    + lia.
    + cbn. lia.
    + intros i Hi. lia.
    + reflexivity.
  - rewrite <- (app_nil_r (map _ Examples.play_page)).
    apply (proj1 (provider_failure_ends_one_country Examples.flaky_play)
             "fr" 10%nat (fun _ => Examples.play_page)
             (fun _ => JS.VStr "next") 2%nat (JS.Rejected "timeout")).
    + lia.
    + cbn. lia.
    + intros i Hi. assert (i = 1%nat) as -> by lia.
      split_and!; [reflexivity|cbn; lia|reflexivity].
    + reflexivity.
Defined.

(** Germany fails at once and France on its second page; both are passed
    over and the run goes on: three countries give 12, 0, 12 and 12
    reviews. *)
Example flaky_play_run :
  exists all,
    GooglePlay.countries_loop Examples.flaky_play ["us"; "de"; "fr"; "jp"]
      [] 0 = Some (all, 3%nat)
    ∧ length all = 36%nat
    ∧ GooglePlay.country <$> all
      = replicate 12 (JS.VStr "us") ++ replicate 12 (JS.VStr "fr")
        ++ replicate 12 (JS.VStr "jp").
Proof. eexists. split; [reflexivity|]. by split. Qed.

(** ** The key of the de-duplication *)

(** C1, on two records that it merges.  Two reviews with different authors and different
    texts get the same key, and the second one is removed although no
    earlier record has its (author, body text, date) triple. *)
Theorem removeDuplicates_merges_distinct_fingerprints :
  forall host : JS.Host,
    Described.fingerprint Examples.review_a_b
    ≠ Described.fingerprint Examples.review_b_c
    ∧ GooglePlay.dedup_key Examples.review_a_b
      = GooglePlay.dedup_key Examples.review_b_c
    ∧ GooglePlay.removeDuplicates [Examples.review_a_b; Examples.review_b_c]
      = [Examples.review_a_b].
Proof.
  intros H. split_and!.
  - by intros [=].
  - reflexivity.
  - unfold GooglePlay.removeDuplicates.
    cbn [GooglePlay.removeDuplicates_loop].
    rewrite decide_False by apply not_elem_of_empty.
    rewrite decide_True; [done|].
    apply elem_of_union. left. by apply elem_of_singleton.
Qed.

(** ** The two files of the App Store script *)

Section AppStoreFiles.
Import JS AppStore.
Context {host : Host} {fs : FileSystem file_content}.
Variable store_reviews : string -> nat -> response.

Lemma scrapeAllReviews_defined timestamp :
  exists io, scrapeAllReviews store_reviews timestamp = Some io.
Proof.
  unfold scrapeAllReviews.
  destruct (fetch_loop_terminates store_reviews 200 [] 0)
    as [fetched ->]; [lia..|].
  by eexists.
Qed.

End AppStoreFiles.


(** On a file system that accepts the writes both files are written. *)
Example both_files_written :
  Aux.written_files
    <$> Aux.run_trace
          (AppStore.scrapeAllReviews (host := UTCHost.host)
             (fs := Examples.disk) Examples.one_page_store
             Examples.timestamp) []
  = Some ["mendi_apple-app-store_reviews_2025-07-27T12-00-00.csv";
          "mendi_apple-app-store_reviews_2025-07-27T12-00-00.json"].
Proof. vm_compute. reflexivity. Qed.


(** ** The order of the worldwide output *)

Section ArraySort.
Import JS.
Context {A : Type} (comparefn : A -> A -> option Z).

Lemma sort_insert_Permutation x l : sort_insert comparefn x l ≡ₚ x :: l.
Proof.
  induction l as [|y l IH]; cbn; [done|].
  case_decide; [done|]. rewrite IH. apply Permutation_swap.
Qed.

Lemma Array_sort_Permutation l : Array_sort comparefn l ≡ₚ l.
Proof.
  induction l as [|x l IH]; cbn; [done|].
  rewrite sort_insert_Permutation. by f_equiv.
Qed.

Lemma sort_insert_Sorted `{!Total (cmp_le comparefn)} x l :
  Sorted (cmp_le comparefn) l ->
  Sorted (cmp_le comparefn) (sort_insert comparefn x l).
Proof.
  induction l as [|y l IH]; cbn; intros Hsorted.
  - by repeat constructor.
  - case_decide as Hxy; [constructor; [done|by constructor]|].
    apply Sorted_inv in Hsorted as [Hl Hhd].
    constructor; [by apply IH|].
    destruct l as [|z l]; cbn.
    + constructor. by destruct (total (cmp_le comparefn) x y).
    + case_decide.
      * constructor. by destruct (total (cmp_le comparefn) x y).
      * constructor. by apply HdRel_inv in Hhd.
Qed.

Lemma Array_sort_Sorted `{!Total (cmp_le comparefn)} l :
  Sorted (cmp_le comparefn) (Array_sort comparefn l).
Proof.
  induction l as [|x l IH]; cbn; [constructor|].
  by apply sort_insert_Sorted.
Qed.
End ArraySort.

Section WorldwideOrder.
Import JS GooglePlay Described.
Context {host : Host}.

#[local] Instance by_date_desc_total : Total (cmp_le by_date_desc).
Proof.
  intros a b. unfold cmp_le, by_date_desc.
  destruct (new_Date (date a)), (new_Date (date b)); cbn; lia.
Qed.

#[local] Instance newer_or_same_trans : Transitive newer_or_same.
Proof.
  intros a b c (ta & tb & Ha & Hb & Hab) (tb' & tc & Hb' & Hc & Hbc).
  exists ta, tc. split_and!; [done..|]. simplify_eq. lia.
Qed.

Lemma cmp_le_newer_or_same a b :
  new_Date (date a) ≠ None -> new_Date (date b) ≠ None ->
  cmp_le by_date_desc a b -> newer_or_same a b.
Proof.
  unfold cmp_le, by_date_desc, newer_or_same. intros Ha Hb.
  destruct (new_Date (date a)) as [ta|]; [|done].
  destruct (new_Date (date b)) as [tb|]; [|done].
  cbn. intros Hle. exists ta, tb. split_and!; [done..|]. lia.
Qed.

Lemma Sorted_newer_or_same l :
  Forall (fun r => new_Date (date r) ≠ None) l ->
  Sorted (cmp_le by_date_desc) l -> Sorted newer_or_same l.
Proof.
  induction 1 as [|r l Hr Hl IH]; [constructor|].
  intros [Hsorted Hhd]%Sorted_inv. constructor; [by apply IH|].
  destruct Hhd as [|r' l' Hle]; constructor.
  apply Forall_cons in Hl as [Hr' _]. by apply cmp_le_newer_or_same.
Qed.

Lemma mapM_Forall2 {A B} (f : A -> result B) l ys :
  mapM f l = Ok ys -> Forall2 (fun x y => f x = Ok y) l ys.
Proof.
  revert ys. induction l as [|x l IH]; intros ys; cbn.
  - intros [= <-]. constructor.
  - destruct (f x) as [y|] eqn:Hy; [|done]. cbn.
    destruct (mapM f l) as [ys'|]; [|done]. cbn.
    intros [= <-]. constructor; [done|by apply IH].
Qed.

(** A line of the CSV begins with the date of its record. *)
Lemma csv_row_starts_with_date r row :
  csv_row r = Ok row ->
  exists rest,
    row = dq +:+ to_string (or_else (date r) (VStr EmptyString)) +:+ dq
          +:+ rest.
Proof.
  unfold csv_row.
  destruct (replace_quotes (or_else (country r) _)); [|done].
  destruct (replace_quotes (or_else (userName r) _)); [|done].
  destruct (replace_quotes (or_else (text r) _)); [|done].
  destruct (replace_quotes (or_else (replyText r) _)); [|done].
  cbn [bind]. intros [= <-]. by eexists.
Qed.

(** The objects built from records that are sorted by date are sorted by
    date, when every date is truthy and so is copied as it is. *)
Lemma entries_newer_or_same (f : nat -> review -> Json.entry) l :
  (forall i r, Json.date (f i r) = or_else (date r) (VStr EmptyString)) ->
  Forall (fun r => truthy (date r) = true) l ->
  StronglySorted newer_or_same l ->
  StronglySorted Shapes.entry_newer_or_same (imap f l).
Proof.
  revert f.
  induction l as [|a l IH]; intros f Hf Htruthy Hsorted; [constructor|].
  apply Forall_cons in Htruthy as [Ha Hl].
  apply StronglySorted_inv in Hsorted as [Hsorted Hafter].
  cbn [imap]. constructor.
  - apply IH; [intros i r; apply Hf|done..].
  - assert (forall g,
              (forall i r,
                 Json.date (g i r) = or_else (date r) (VStr EmptyString)) ->
              Forall (Shapes.entry_newer_or_same (f 0%nat a)) (imap g l))
      as Hg; [|apply Hg; intros i r; apply Hf].
    clear IH Hsorted.
    induction l as [|b l IH]; intros g Hg; [constructor|].
    apply Forall_cons in Hl as [Hb Hl].
    apply Forall_cons in Hafter as [Hab Hafter].
    cbn [imap]. constructor.
    + unfold Shapes.entry_newer_or_same. rewrite Hf, Hg.
      unfold or_else. by rewrite Ha, Hb.
    + apply IH; [done..|]. intros i r. apply Hg.
Qed.

(** A list of two records or more that is sorted by date holds valid
    dates only. *)
Lemma StronglySorted_newer_valid l :
  StronglySorted newer_or_same l -> (2 <= length l)%nat ->
  Forall (fun r => new_Date (date r) ≠ None) l.
Proof.
  intros Hsorted Hlen. destruct l as [|a [|b l]]; [cbn in Hlen; lia..|].
  apply StronglySorted_inv in Hsorted as [_ Hafter].
  constructor.
  - apply Forall_cons in Hafter as [(ta & tb & Ha & _) _]. by rewrite Ha.
  - eapply Forall_impl; [exact Hafter|].
    intros r (ta & tb & _ & Hr & _). by rewrite Hr.
Qed.

(** C10, for the records that have a valid date.  The records that
    survive the de-duplication are sorted before the two files are built.
    When their dates are valid, [uniqueReviews] is a rearrangement of the
    output of [removeDuplicates] in which every record is dated no earlier
    than the records after it; the lines of the CSV are the lines of these
    records in that order, each line beginning with the date of its
    record; the objects of the JSON are built from these records in that
    order, and their dates, when no date is falsy, are sorted too. *)
Theorem worldwide_output_sorted_by_date :
  forall allGlobalReviews : list review,
    let sorted := uniqueReviews allGlobalReviews in
    Forall (fun r => new_Date (date r) ≠ None)
      (removeDuplicates allGlobalReviews) ->
    sorted ≡ₚ removeDuplicates allGlobalReviews
    ∧ StronglySorted newer_or_same sorted
    ∧ forall csv jsonData,
        outputs allGlobalReviews = Ok (csv, jsonData) ->
        (exists rows,
           mapM csv_row sorted = Ok rows
           ∧ Forall2 (fun r row =>
                        csv_row r = Ok row
                        ∧ exists rest,
                            row = dq
                                  +:+ to_string
                                        (or_else (date r) (VStr EmptyString))
                                  +:+ dq +:+ rest) sorted rows
           ∧ csv = csv_header +:+ join_strings newline rows)
        ∧ jsonData = imap json_entry sorted
        ∧ (Forall (fun r => truthy (date r) = true)
             (removeDuplicates allGlobalReviews) ->
           StronglySorted Shapes.entry_newer_or_same jsonData).
Proof.
  intros allGlobalReviews sorted Hvalid.
  assert (sorted ≡ₚ removeDuplicates allGlobalReviews) as Hperm
    by apply Array_sort_Permutation.
  assert (StronglySorted newer_or_same sorted) as Hsorted.
  { apply Sorted_StronglySorted; [apply _|].
    apply Sorted_newer_or_same; [by rewrite Hperm|].
    apply Array_sort_Sorted, _. }
  split_and!; [done..|].
  intros csv jsonData. unfold outputs. fold sorted.
  destruct (mapM csv_row sorted) as [rows|e] eqn:Hrows; [|done]. cbn.
  intros [= <- <-]. split_and!; [|done|].
  - exists rows. split_and!; [done| |done].
    eapply Forall2_impl; [by apply mapM_Forall2|].
    intros r row Hrow. split; [done|by apply csv_row_starts_with_date].
  - intros Htruthy. apply entries_newer_or_same; [done| |done].
    by rewrite Hperm.
Qed.
End WorldwideOrder.

Lemma worldwide_output_sorted_by_date_witness :
  GooglePlay.uniqueReviews (host := UTCHost.host) Examples.gathered
  = [Examples.review_march; Examples.review_february; Examples.review_a_b]
  ∧ StronglySorted (Described.newer_or_same (host := UTCHost.host))
      (GooglePlay.uniqueReviews (host := UTCHost.host) Examples.gathered)
  ∧ exists csv jsonData,
      GooglePlay.outputs (host := UTCHost.host) Examples.gathered
      = JS.Ok (csv, jsonData)
      ∧ StronglySorted (Shapes.entry_newer_or_same (host := UTCHost.host))
          jsonData
      ∧ GooglePlay.Json.date <$> jsonData
        = [JS.VStr "2024-03-02T10:00:00.000Z";
           JS.VStr "2024-02-10T08:30:00.000Z";
           JS.VStr "2024-01-15T00:00:00.000Z"].
Proof.
  assert (Forall (fun r => JS.new_Date (host := UTCHost.host)
                             (GooglePlay.date r) ≠ None)
            (GooglePlay.removeDuplicates (host := UTCHost.host)
               Examples.gathered)) as Hvalid
    by (repeat constructor; done).
  split_and!; [reflexivity| |].
  - by apply (worldwide_output_sorted_by_date (host := UTCHost.host)
                Examples.gathered).
  - eexists _, _. split_and!; [reflexivity| |reflexivity].
    eapply (worldwide_output_sorted_by_date (host := UTCHost.host)
              Examples.gathered); [done|reflexivity|].
    repeat constructor; done.
Defined.

(** C10 does not hold when a record has no valid date: the comparator is
    then NaN, read as 0, for every pair that holds this record.  Of three
    records dated 15 January 2024, with a date that cannot be read, and
    2 March 2024, gathered in this order, the sort leaves the order as it
    is, so the files list January before March.  The sort of Node.js does
    the same: it first looks for a run that is in order already, and with
    both comparisons of neighbours giving 0 the three records are one
    run.  Whatever the engine, no order of these three records is an
    order by date. *)
Lemma worldwide_output_not_sorted_with_invalid_date :
  GooglePlay.removeDuplicates (host := UTCHost.host)
    Fixtures.gathered_with_no_date
  = [Examples.review_a_b; Fixtures.review_no_date; Examples.review_march]
  ∧ GooglePlay.uniqueReviews (host := UTCHost.host)
      Fixtures.gathered_with_no_date
    = [Examples.review_a_b; Fixtures.review_no_date; Examples.review_march]
  ∧ JS.new_Date (host := UTCHost.host)
      (GooglePlay.date Examples.review_a_b) = Some 1705276800000
  ∧ JS.new_Date (host := UTCHost.host)
      (GooglePlay.date Fixtures.review_no_date) = None
  ∧ JS.new_Date (host := UTCHost.host)
      (GooglePlay.date Examples.review_march) = Some 1709373600000
  ∧ ¬ StronglySorted (Described.newer_or_same (host := UTCHost.host))
        (GooglePlay.uniqueReviews (host := UTCHost.host)
           Fixtures.gathered_with_no_date)
  ∧ (forall out,
       out ≡ₚ GooglePlay.removeDuplicates (host := UTCHost.host)
                Fixtures.gathered_with_no_date ->
       ¬ StronglySorted (Described.newer_or_same (host := UTCHost.host))
           out)
  ∧ exists csv jsonData,
      GooglePlay.outputs (host := UTCHost.host)
        Fixtures.gathered_with_no_date = JS.Ok (csv, jsonData)
      ∧ GooglePlay.Json.date <$> jsonData
        = [JS.VStr "2024-01-15T00:00:00.000Z"; JS.VStr "not a date";
           JS.VStr "2024-03-02T10:00:00.000Z"].
Proof.
  assert (forall out,
            out ≡ₚ GooglePlay.removeDuplicates (host := UTCHost.host)
                     Fixtures.gathered_with_no_date ->
            ¬ StronglySorted (Described.newer_or_same (host := UTCHost.host))
                out) as Hnone.
  { intros out Hperm Hsorted.
    assert (GooglePlay.removeDuplicates (host := UTCHost.host)
              Fixtures.gathered_with_no_date
            = [Examples.review_a_b; Fixtures.review_no_date;
               Examples.review_march]) as Hkept by reflexivity.
    rewrite Hkept in Hperm.
    apply StronglySorted_newer_valid in Hsorted;
      [|rewrite Hperm; cbn; lia].
    rewrite Hperm in Hsorted.
    apply Forall_cons in Hsorted as [_ Hsorted].
    apply Forall_cons in Hsorted as [Hdate _].
    by apply Hdate. }
  split_and!; [reflexivity..| |done|].
  - by apply Hnone.
  - eexists _, _. split; reflexivity.
Qed.

(** ** Ratings *)

Section Ratings.
Import JS Described.
Context {host : Host}.

Lemma canonical_or_else_null score :
  canonical_rating (or_else score VNull)
  <-> truthy score = false ∨ exists n, score = VNum n ∧ 1 <= n <= 5.
Proof.
  unfold or_else, canonical_rating.
  destruct (truthy score) eqn:Htruthy; split.
  - intros [->|(n & -> & Hn)]; [done|]. right. by exists n.
  - intros [?|(n & -> & Hn)]; [done|]. right. by exists n.
  - by left.
  - by left.
Qed.

Lemma ticketToRating_canonical t :
  canonical_rating (Zendesk.ticketToRating t).
Proof.
  unfold Zendesk.ticketToRating, canonical_rating.
  repeat case_match; simplify_eq;
    first [ by left | right; eexists; split; [reflexivity|lia] ].
Qed.

Lemma determine_rating_canonical t satisfaction :
  canonical_rating (Zendesk.determine_rating t satisfaction).
Proof.
  unfold Zendesk.determine_rating.
  destruct satisfaction as [s|]; [|apply ticketToRating_canonical].
  repeat case_match; try apply ticketToRating_canonical.
  - right. exists 5. split; [done|lia].
  - right. exists 1. split; [done|lia].
Qed.

(** C4, as the scripts behave.  The rating of a record built from an App Store or
    a Google Play review is the raw score when the score is truthy and
    null otherwise; it is null or an integer from 1 to 5 exactly when
    the raw score is falsy or is such an integer.  The rating of a
    record built from a ticket is always null or an integer from 1 to
    5. *)
Theorem rating_null_or_copied_score :
  (forall i r entry,
     AppStore.json_entry i r = Ok entry ->
     AppStore.Json.rating entry = or_else (AppStore.score r) VNull
     ∧ (canonical_rating (AppStore.Json.rating entry)
        <-> truthy (AppStore.score r) = false
            ∨ exists n, AppStore.score r = VNum n ∧ 1 <= n <= 5))
  ∧ (forall i r,
       GooglePlay.Json.rating (GooglePlay.json_entry i r)
       = or_else (GooglePlay.score r) VNull
       ∧ (canonical_rating
            (GooglePlay.Json.rating (GooglePlay.json_entry i r))
          <-> truthy (GooglePlay.score r) = false
              ∨ exists n, GooglePlay.score r = VNum n ∧ 1 <= n <= 5))
  ∧ (forall ratingsMap i t entry,
       Zendesk.convertTicket ratingsMap i t = Ok entry ->
       canonical_rating (Zendesk.Json.rating entry)).
Proof.
  split_and!.
  - intros i r entry. unfold AppStore.json_entry.
    destruct (AppStore.format_date r); [|done]. cbn.
    intros [= <-]. cbn. split; [done|]. apply canonical_or_else_null.
  - intros i r. cbn. split; [done|]. apply canonical_or_else_null.
  - intros ratingsMap i t entry. unfold Zendesk.convertTicket.
    destruct (if truthy (Zendesk.created_at t) then _ else _); [|done].
    cbn. destruct (Zendesk.extractTicketText t); [|done]. cbn.
    intros [= <-]. cbn. apply determine_rating_canonical.
Qed.
End Ratings.

(** C4 does not hold for every score: a score of 7 is copied as it is. *)
Lemma rating_copied_out_of_range :
  exists entry,
    AppStore.json_entry (host := UTCHost.host) 0 Examples.review_score_7
    = JS.Ok entry
    ∧ AppStore.Json.rating entry = JS.VNum 7
    ∧ ¬ Described.canonical_rating (AppStore.Json.rating entry).
Proof.
  eexists. split; [reflexivity|]. split; [reflexivity|].
  intros [Hnull|(n & Hn & Hrange)]; [done|].
  cbn in Hn. injection Hn as <-. lia.
Qed.

Lemma rating_null_or_copied_score_witness :
  exists entry,
    AppStore.json_entry (host := UTCHost.host) 0 Examples.app_review
    = JS.Ok entry
    ∧ AppStore.Json.rating entry = JS.VNum 5
    ∧ Described.canonical_rating (AppStore.Json.rating entry).
Proof.
  eexists. split; [reflexivity|].
  destruct (proj1 (rating_null_or_copied_score (host := UTCHost.host))
              0%nat Examples.app_review _ eq_refl) as [Hrating Hcanon].
  split; [exact Hrating|].
  apply Hcanon. right. exists 5. split; [reflexivity|lia].
Defined.


(** * Further properties of the scripts *)

(** ** The escaping of the CSV fields *)

Section Escaping.
Import JS Reader.

Lemma append_cons c (a b : string) : String c a +:+ b = String c (a +:+ b).
Proof. done. Qed.

(** X1.  The doubling of the quotes loses nothing: reading every pair of
    quotes as one quote gives the original text back. *)
Theorem undouble_double_quotes :
  forall s : string, undouble_quotes (double_quotes s) = s.
Proof.
  induction s as [|c s IH]; [done|].
  cbn [double_quotes].
  destruct (Ascii.eqb_spec c quote) as [->|Hc].
  - cbn [undouble_quotes]. rewrite Ascii.eqb_refl. cbn. by rewrite IH.
  - revert IH. destruct (double_quotes s) as [|c' tail] eqn:Htail.
    + cbn. by intros <-.
    + cbn [undouble_quotes]. intros IH.
      destruct (Ascii.eqb_spec c quote) as [?|_]; [done|].
      cbn [andb]. by rewrite IH.
Qed.

Lemma double_quotes_quote_free s :
  quote_free s = true -> double_quotes s = s.
Proof.
  induction s as [|c s IH]; [done|]. cbn.
  destruct (Ascii.eqb c quote); [done|]. cbn. by intros ->%IH.
Qed.

(** A field written with its quotes doubled and closed by a quote is read
    back whole, provided no quote follows the closing one. *)
Lemma read_field_double_quotes s after :
  match after with
  | EmptyString => True
  | String c _ => Ascii.eqb c quote = false
  end ->
  read_field (double_quotes s +:+ String quote after) = Some (s, after).
Proof.
  intros Hafter. induction s as [|c s IH].
  - cbn [double_quotes]. change (EmptyString +:+ ?x) with x.
    cbn [read_field]. rewrite Ascii.eqb_refl.
    destruct after as [|c' rest]; [done|]. by rewrite Hafter.
  - cbn [double_quotes].
    destruct (Ascii.eqb_spec c quote) as [->|Hc].
    + rewrite !append_cons. cbn [read_field]. rewrite Ascii.eqb_refl.
      by rewrite IH.
    + rewrite append_cons. cbn [read_field].
      destruct (Ascii.eqb_spec c quote) as [?|_]; [done|].
      by rewrite IH.
Qed.

Lemma join_strings_cons sep x y l :
  join_strings sep (x :: y :: l) = x +:+ sep +:+ join_strings sep (y :: l).
Proof. done. Qed.

Lemma read_row_quoted_line fields fuel :
  fields ≠ [] -> (length fields <= fuel)%nat ->
  read_row fuel (quoted_line (double_quotes <$> fields)) = Some fields.
Proof.
  revert fuel. induction fields as [|field fields IH]; [done|].
  intros fuel _ Hfuel. destruct fuel as [|fuel]; [cbn in Hfuel; lia|].
  unfold quoted_line. rewrite !fmap_cons.
  destruct fields as [|field' fields].
  - cbn [fmap list_fmap join_strings]. unfold dq at 1.
    rewrite append_cons. change (EmptyString +:+ ?x) with x.
    cbn [read_row]. rewrite Ascii.eqb_refl.
    unfold dq. by rewrite read_field_double_quotes.
  - set (rest := field' :: fields) in *.
    assert (join_strings ","
              ((dq +:+ double_quotes field +:+ dq)
               :: ((fun f => dq +:+ f +:+ dq) <$> (double_quotes <$> rest)))
            = String quote
                (double_quotes field
                 +:+ String quote
                       (String ","%char
                          (quoted_line (double_quotes <$> rest)))))
      as ->.
    { unfold rest. rewrite !fmap_cons, join_strings_cons.
      unfold quoted_line. rewrite !fmap_cons.
      unfold dq. by rewrite !append_assoc. }
    cbn [read_row]. rewrite Ascii.eqb_refl.
    rewrite read_field_double_quotes by done. cbn.
    rewrite IH; [done|done|]. cbn in Hfuel. unfold rest. cbn. lia.
Qed.
End Escaping.

(** ** The lines of the worldwide Google Play CSV *)

Section PlayLines.
Import JS GooglePlay Reader.
Context {host : Host}.

Lemma replace_quotes_Ok v :
  (exists s, replace_quotes v = Ok s) <-> exists s, v = VStr s.
Proof.
  split.
  - intros [s Hs]. destruct v; try done. by eexists.
  - intros [s ->]. by eexists.
Qed.

Lemma text_like_or_else v default :
  text_like v <-> exists s, or_else v (VStr default) = VStr s.
Proof.
  unfold text_like, or_else. destruct (truthy v) eqn:Hv; split.
  - intros [?|[s ->]]; [done|]. by eexists.
  - intros [s ->]. right. by eexists.
  - intros _. by eexists.
  - intros _. by left.
Qed.

Lemma csv_row_Ok r :
  (exists row, csv_row r = Ok row) <-> play_printable r.
Proof.
  unfold play_printable, csv_row.
  rewrite (text_like_or_else (country r) "unknown").
  rewrite (text_like_or_else (userName r) EmptyString).
  rewrite (text_like_or_else (text r) EmptyString).
  rewrite (text_like_or_else (replyText r) EmptyString).
  split.
  - intros [row Hrow].
    destruct (or_else (country r) _) as [| | | |s1| |]; try done.
    destruct (or_else (userName r) _) as [| | | |s2| |]; try done.
    destruct (or_else (text r) _) as [| | | |s3| |]; try done.
    destruct (or_else (replyText r) _) as [| | | |s4| |]; try done.
    split_and!; by eexists.
  - intros ([s1 ->] & [s2 ->] & [s3 ->] & [s4 ->]). cbn. by eexists.
Qed.

Lemma mapM_Ok {A B} (f : A -> result B) (l : list A) :
  (exists ys, mapM f l = Ok ys) <-> Forall (fun x => exists y, f x = Ok y) l.
Proof.
  induction l as [|x l IH]; cbn.
  - split; [constructor|by eexists].
  - rewrite Forall_cons, <- IH. split.
    + intros [ys Hys]. destruct (f x) as [y|]; [|done]. cbn in Hys.
      destruct (mapM f l) as [ys'|]; [|done]. split; by eexists.
    + intros [[y ->] [ys ->]]. cbn. by eexists.
Qed.

(** X2.  The worldwide run builds its CSV text and its JSON array exactly
    when, in every review that survives the de-duplication, the country,
    the user name, the text and the reply text are strings or falsy.  One
    review with, say, a number as user name makes the run throw before any
    file is written. *)
Theorem outputs_Ok_iff_printable :
  forall allGlobalReviews : list review,
    (exists out, outputs allGlobalReviews = Ok out)
    <-> Forall play_printable (removeDuplicates allGlobalReviews).
Proof.
  intros allGlobalReviews. unfold outputs.
  assert (Forall play_printable (removeDuplicates allGlobalReviews)
          <-> Forall play_printable (uniqueReviews allGlobalReviews)) as ->.
  { unfold uniqueReviews.
    by rewrite (Array_sort_Permutation by_date_desc). }
  rewrite <- (Forall_iff _ _ _ csv_row_Ok), <- mapM_Ok.
  split.
  - intros [out Hout].
    destruct (mapM csv_row _) as [rows|]; [by eexists|done].
  - intros [rows ->]. cbn. by eexists.
Qed.

Lemma csv_row_quoted_line r row :
  csv_row r = Ok row ->
  play_plain_columns_quote_free r = true ->
  row = quoted_line (double_quotes <$> (to_string <$> play_columns r)).
Proof.
  unfold csv_row, play_plain_columns_quote_free, play_columns.
  intros Hrow (((Hdate & Hscore)%andb_prop & Hhelpful)%andb_prop
               & Hreply)%andb_prop.
  destruct (or_else (country r) _) as [| | | |s1| |]; try done.
  destruct (or_else (userName r) _) as [| | | |s2| |]; try done.
  destruct (or_else (text r) _) as [| | | |s3| |]; try done.
  destruct (or_else (replyText r) _) as [| | | |s4| |]; try done.
  cbn in Hrow. injection Hrow as <-.
  unfold quoted_line. cbn [fmap list_fmap join_strings to_string].
  rewrite !(double_quotes_quote_free _ Hdate),
    !(double_quotes_quote_free _ Hscore),
    !(double_quotes_quote_free _ Hhelpful),
    !(double_quotes_quote_free _ Hreply).
  by rewrite !append_assoc.
Qed.

(** X3.  A line of the worldwide CSV reads back as the eight values of
    its review, even when the country, the user name, the text or the
    reply text hold commas, quotes or line ends.  The date, the score, the
    helpful count and the reply date are written without doubling their
    quotes, so they must hold none. *)
Theorem csv_row_reads_back :
  forall (r : review) (row : string),
    csv_row r = Ok row ->
    play_plain_columns_quote_free r = true ->
    read_row 8 row = Some (to_string <$> play_columns r).
Proof.
  intros r row Hrow Hfree.
  rewrite (csv_row_quoted_line r row Hrow Hfree).
  by apply read_row_quoted_line.
Qed.
End PlayLines.

Lemma csv_row_reads_back_witness :
  Reader.read_row 8 Fixtures.review_with_quotes_row
  = Some (JS.to_string (host := UTCHost.host)
            <$> Reader.play_columns Fixtures.review_with_quotes).
Proof.
  apply (csv_row_reads_back (host := UTCHost.host)
           Fixtures.review_with_quotes); reflexivity.
Defined.

(** ** The keys kept by the de-duplication *)

Section DedupKeys.
Import JS GooglePlay Aux.
Context {host : Host}.

Lemma dedup_from_key_set seen reviews :
  list_to_set (dedup_key <$> dedup_from seen reviews) ∪ seen
  =@{gset string} list_to_set (dedup_key <$> reviews) ∪ seen.
Proof.
  revert seen. induction reviews as [|r rest IH]; intros seen; [done|].
  cbn [dedup_from]. rewrite fmap_cons, list_to_set_cons.
  case_decide as Hin.
  - rewrite IH. apply set_eq. intros x.
    rewrite !elem_of_union, elem_of_singleton.
    split; [tauto|intros [[->|?]|?]; tauto].
  - rewrite fmap_cons, list_to_set_cons.
    specialize (IH ({[dedup_key r]} ∪ seen)).
    etrans; [|etrans; [exact IH|]];
      apply set_eq; intros x; rewrite !elem_of_union; tauto.
Qed.

(** X4.  The output of [removeDuplicates] holds every key of its input
    exactly once: no key is lost, no key appears twice, and the number of
    records kept is the number of distinct keys. *)
Theorem removeDuplicates_one_record_per_key :
  forall reviews : list review,
    NoDup (dedup_key <$> removeDuplicates reviews)
    ∧ list_to_set (dedup_key <$> removeDuplicates reviews)
      =@{gset string} list_to_set (dedup_key <$> reviews)
    ∧ length (removeDuplicates reviews)
      = size (list_to_set (dedup_key <$> reviews) : gset string).
Proof.
  intros reviews. rewrite removeDuplicates_dedup_from.
  assert (list_to_set (dedup_key <$> dedup_from ∅ reviews)
          =@{gset string} list_to_set (dedup_key <$> reviews)) as Hset.
  { pose proof (dedup_from_key_set ∅ reviews) as Hkeys.
    by rewrite !(right_id_L ∅ (∪)) in Hkeys. }
  split_and!; [apply dedup_from_NoDup|done|].
  rewrite <- Hset, size_list_to_set by apply dedup_from_NoDup.
  by rewrite length_fmap.
Qed.
End DedupKeys.

(** ** The country of the records of the worldwide Google Play run *)

Section PlayCountries.
Import JS GooglePlay.
Context {host : Host}.
Variable gplay_reviews : string -> nat -> option value -> response.

Lemma play_loop_tagged fuel countryCode maxBatches all token batch reviews :
  Forall (fun r => country r = VStr countryCode) all ->
  scrapeCountryReviews_loop gplay_reviews fuel countryCode maxBatches
    all token batch = Some reviews ->
  Forall (fun r => country r = VStr countryCode) reviews.
Proof.
  revert all token batch.
  induction fuel as [|fuel IH]; intros all token batch Hall; [done|].
  cbn [scrapeCountryReviews_loop].
  assert (forall page,
            Forall (fun r => country r = VStr countryCode)
              (all ++ map (with_country countryCode) page)) as Htag.
  { intros page. apply Forall_app. split; [done|].
    by apply Forall_forall; intros r (r' & -> & _)%list_elem_of_fmap. }
  destruct (gplay_reviews _ _ _) as [e|page|data next].
  - by intros [= <-].
  - destruct (0 <? _)%nat; [|by intros [= <-]].
    destruct (_ <? 10)%nat; [by intros [= <-]|].
    cbn [token_of truthy andb]. by intros [= <-].
  - destruct (0 <? _)%nat; [|by intros [= <-]].
    destruct (_ <? 10)%nat; [by intros [= <-]|].
    destruct (truthy _ && _); [|by intros [= <-]].
    by apply IH.
Qed.

Lemma countries_loop_tagged countries all n :
  countries_loop gplay_reviews countries [] 0 = Some (all, n) ->
  Forall (fun r => exists c, c ∈ countries ∧ country r = VStr c) all.
Proof.
  destruct (countries_loop_concat gplay_reviews countries [] 0)
    as (per & Hper & ->).
  intros [= <- _]. cbn [app]. clear n.
  induction Hper as [|c reviews countries per Hc Hper IH]; [constructor|].
  cbn [concat]. apply Forall_app. split.
  - unfold scrapeCountryReviews in Hc.
    apply play_loop_tagged in Hc; [|constructor].
    eapply Forall_impl; [exact Hc|]. intros r Hr. exists c.
    split; [by left|done].
  - eapply Forall_impl; [exact IH|]. intros r (c' & Hc' & Hr).
    exists c'. split; [by right|done].
Qed.

Lemma Forall_imap {A B} (P : B -> Prop) (f : nat -> A -> B) l :
  Forall (fun x => forall i, P (f i x)) l -> Forall P (imap f l).
Proof.
  revert f. induction l as [|x l IH]; intros f Hl; [constructor|].
  apply Forall_cons in Hl as [Hx Hl]. cbn. constructor; [done|].
  apply IH. eapply Forall_impl; [exact Hl|]. intros y Hy i. apply Hy.
Qed.

Lemma json_country_tagged (csv : string) (jsonData : list Json.entry) :
  scrapeAllReviewsGlobal gplay_reviews = Some (Ok (csv, jsonData)) ->
  Forall (fun entry =>
            exists c, c ∈ COUNTRIES ∧ Json.country entry = VStr c)
    jsonData.
Proof.
  unfold scrapeAllReviewsGlobal.
  destruct (countries_loop gplay_reviews COUNTRIES [] 0)
    as [[all n]|] eqn:Hloop; [|done].
  cbn [mbind option_bind]. intros [= Hout].
  apply countries_loop_tagged in Hloop.
  unfold outputs in Hout.
  destruct (mapM csv_row _) as [rows|]; [|done].
  cbn in Hout. injection Hout as _ <-.
  apply Forall_imap.
  assert (Forall (fun r => exists c, c ∈ COUNTRIES ∧ country r = VStr c)
            (uniqueReviews all)) as Hsorted.
  { unfold uniqueReviews. rewrite (Array_sort_Permutation by_date_desc).
    apply Forall_forall. intros r Hr. rewrite Forall_forall in Hloop.
    apply Hloop. eapply elem_of_sublist; [exact Hr|].
    rewrite removeDuplicates_dedup_from. apply dedup_from_sublist. }
  eapply Forall_impl; [exact Hsorted|].
  intros r (c & Hc & Hr) i. exists c. split; [done|].
  cbn. rewrite Hr. unfold or_else.
  assert (c ≠ EmptyString) as Hne.
  { intros ->. apply list_elem_of_In in Hc.
    cbn in Hc. repeat (destruct Hc as [Hc|Hc]; [done|]). done. }
  by destruct c.
Qed.

(** X5.  The worldwide run always comes to its end, and in the JSON array
    it then builds every record carries the code of one of the countries
    of [COUNTRIES]: the tag put on a review when it is fetched survives
    the de-duplication and the sort, and the default unknown is never
    used. *)
Theorem worldwide_json_country_known :
  exists out,
    scrapeAllReviewsGlobal gplay_reviews = Some out
    ∧ forall (csv : string) (jsonData : list Json.entry),
        out = Ok (csv, jsonData) ->
        Forall (fun entry =>
                  exists c, c ∈ COUNTRIES ∧ Json.country entry = VStr c)
          jsonData.
Proof.
  destruct (countries_loop_concat gplay_reviews COUNTRIES [] 0)
    as (perCountry & _ & Hloop).
  assert (exists out, scrapeAllReviewsGlobal gplay_reviews = Some out)
    as [out Hout].
  { unfold scrapeAllReviewsGlobal. rewrite Hloop. by eexists. }
  exists out. split; [done|]. intros csv jsonData ->.
  by apply (json_country_tagged csv).
Qed.

Lemma play_loop_length n fuel countryCode maxBatches all token batch reviews :
  (forall k tok,
     (length (reviews_of (gplay_reviews countryCode k tok)) <= n)%nat) ->
  scrapeCountryReviews_loop gplay_reviews fuel countryCode maxBatches
    all token batch = Some reviews ->
  (length reviews <= length all + (1 `max` (maxBatches - batch)) * n)%nat.
Proof.
  intros Hn. revert all token batch.
  induction fuel as [|fuel IH]; intros all token batch; [done|].
  cbn [scrapeCountryReviews_loop].
  set (tok := if truthy token then Some token else None).
  specialize (Hn (S batch) tok) as Hpage.
  assert (forall page,
            (length page <= n)%nat ->
            (length (all ++ map (with_country countryCode) page)
             <= length all + (1 `max` (maxBatches - batch)) * n)%nat)
    as Hone by (intros page Hp; rewrite length_app, length_map; nia).
  destruct (gplay_reviews countryCode (S batch) tok) as [e|page|data next];
    cbn [reviews_of] in *.
  - intros [= <-]. lia.
  - destruct (0 <? _)%nat; [|intros [= <-]; lia].
    destruct (_ <? 10)%nat; [intros [= <-]; by apply Hone|].
    cbn [token_of truthy andb]. intros [= <-]. by apply Hone.
  - set (page := match data with Some d => d | None => [] end) in *.
    destruct (0 <? _)%nat; [|intros [= <-]; lia].
    destruct (_ <? 10)%nat; [intros [= <-]; by apply Hone|].
    destruct (truthy (token_of _)); cbn [andb];
      [|intros [= <-]; by apply Hone].
    destruct (Nat.ltb_spec (S batch) maxBatches);
      [|intros [= <-]; by apply Hone].
    intros Hrec%IH. rewrite length_app, length_map in Hrec. nia.
Qed.

(** X6.  A fetch of one country always returns, and makes at most
    [maxBatches] requests (one when [maxBatches] is 0): when no answer of
    the provider holds more than [n] reviews, it returns at most
    [max 1 maxBatches * n] of them. *)
Theorem scrapeCountryReviews_length_bound :
  forall (countryCode : string) (maxBatches n : nat),
    (forall k tok,
       (length (reviews_of (gplay_reviews countryCode k tok)) <= n)%nat) ->
    exists reviews,
      scrapeCountryReviews gplay_reviews countryCode maxBatches
      = Some reviews
      ∧ (length reviews <= (1 `max` maxBatches) * n)%nat.
Proof.
  intros countryCode maxBatches n Hn.
  destruct (scrapeCountryReviews_returns gplay_reviews countryCode
              maxBatches) as [reviews Hrun].
  exists reviews. split; [done|].
  apply (play_loop_length n) in Hrun; [|done].
  cbn [length] in Hrun. by rewrite Nat.sub_0_r in Hrun.
Qed.
End PlayCountries.

Lemma worldwide_json_country_known_witness :
  Forall (fun entry =>
            exists c,
              c ∈ GooglePlay.COUNTRIES
              ∧ GooglePlay.Json.country entry = JS.VStr c)
    Fixtures.steady_json.
Proof.
  destruct (worldwide_json_country_known (host := UTCHost.host)
              Fixtures.steady_play) as (out & Hout & Hknown).
  apply (Hknown Fixtures.steady_csv).
  assert (GooglePlay.scrapeAllReviewsGlobal (host := UTCHost.host)
            Fixtures.steady_play
          = Some (JS.Ok (Fixtures.steady_csv, Fixtures.steady_json)))
    as Hrun by (vm_compute; reflexivity).
  congruence.
Defined.

Lemma scrapeCountryReviews_length_bound_witness :
  exists reviews,
    GooglePlay.scrapeCountryReviews Fixtures.steady_play "us" 10
    = Some reviews
    ∧ (length reviews <= 1 `max` 10 * 12)%nat.
Proof.
  apply (scrapeCountryReviews_length_bound Fixtures.steady_play "us" 10 12).
  intros k tok. cbn. lia.
Defined.

(** ** The rating of a ticket, again *)

Section TicketRatings.
Import JS Zendesk Shapes.
Context {host : Host}.

Lemma strict_eq_VStr v s : strict_eq v (VStr s) = true <-> v = VStr s.
Proof.
  destruct v; cbn; try (split; done).
  split.
  - by intros ->%String.eqb_eq.
  - intros [= ->]. apply String.eqb_refl.
Qed.

(** X7.  The override that follows the call of [ticketToRating] in
    [convertTicketsToReviews] never changes the rating: [ticketToRating]
    already gives 5 for the score good and 1 for the score bad of the
    joined satisfaction rating. *)
Theorem determine_rating_is_ticketToRating :
  forall (t : ticket) (satisfaction : option satisfaction),
    determine_rating t satisfaction
    = ticketToRating (with_satisfaction_rating t satisfaction).
Proof.
  intros t [s|]; [|done]. unfold determine_rating.
  destruct (strict_eq (score s) (VStr "good")) eqn:Hgood.
  - apply strict_eq_VStr in Hgood. unfold ticketToRating. cbn.
    by rewrite Hgood.
  - destruct (strict_eq (score s) (VStr "bad")) eqn:Hbad; [|done].
    apply strict_eq_VStr in Hbad. unfold ticketToRating. cbn.
    by rewrite Hbad.
Qed.

(** X8.  The rating of a ticket is null exactly when a satisfaction
    rating is joined to it whose score is offered, unoffered or received;
    every other ticket gets a number. *)
Theorem determine_rating_null_iff :
  forall (t : ticket) (satisfaction : option satisfaction),
    determine_rating t satisfaction = VNull
    <-> exists s,
          satisfaction = Some s
          ∧ (score s = VStr "offered" ∨ score s = VStr "unoffered"
             ∨ score s = VStr "received").
Proof.
  intros t satisfaction.
  assert (determine_rating t satisfaction
          = ticketToRating (with_satisfaction_rating t satisfaction)) as ->.
  { destruct satisfaction as [s|]; [|done]. unfold determine_rating.
    destruct (strict_eq (score s) (VStr "good")) eqn:Hgood.
    - apply strict_eq_VStr in Hgood. unfold ticketToRating. cbn.
      by rewrite Hgood.
    - destruct (strict_eq (score s) (VStr "bad")) eqn:Hbad; [|done].
      apply strict_eq_VStr in Hbad. unfold ticketToRating. cbn.
      by rewrite Hbad. }
  unfold ticketToRating. cbn [satisfaction_rating with_satisfaction_rating].
  destruct satisfaction as [s|].
  - destruct (truthy (score s)) eqn:Htruthy.
    + destruct (strict_eq (score s) (VStr "offered")) eqn:H1.
      { apply strict_eq_VStr in H1. split; [|done]. intros _. exists s.
        split; [done|]. by left. }
      destruct (strict_eq (score s) (VStr "unoffered")) eqn:H2.
      { apply strict_eq_VStr in H2. split; [|done]. intros _. exists s.
        split; [done|]. right. by left. }
      destruct (strict_eq (score s) (VStr "received")) eqn:H3.
      { apply strict_eq_VStr in H3. split; [|done]. intros _. exists s.
        split; [done|]. right. by right. }
      assert (forall r,
                match (if strict_eq (score s) (VStr "good")
                       then Some (VNum 5)
                       else if strict_eq (score s) (VStr "bad")
                            then Some (VNum 1) else None) with
                | Some rating => rating
                | None => VNum r
                end ≠ VNull) as Hnum.
      { intros r. destruct (strict_eq (score s) (VStr "good")); [done|].
        by destruct (strict_eq (score s) (VStr "bad")). }
      split; [by intros ?%Hnum|].
      intros (s' & [= <-] & [Hs|[Hs|Hs]]); apply strict_eq_VStr in Hs;
        congruence.
    + split; [done|].
      intros (s' & [= <-] & [Hs|[Hs|Hs]]); rewrite Hs in Htruthy; done.
  - split; [done|]. by intros (s' & ? & _).
Qed.

(** X9.  What [ratingsMap[key]] gives once the map is filled with
    satisfaction ratings of the expected shape (a [ticket_id] that is an
    identifier, or missing): the last element of the ratings whose
    [ticket_id] is truthy and prints as the key; without such an element,
    the member of [Object.prototype] of that name when the key names one,
    which the script sees as an object without score; and nothing
    otherwise. *)
Theorem ratingsMap_of_lookup :
  forall (satisfactionRatings : list satisfaction) (key : string),
    Forall rating_typed satisfactionRatings ->
    ratingsMap_get (ratingsMap_of satisfactionRatings) key
    = match last (filter (fun rating =>
                            truthy (ticket_id rating) = true
                            ∧ to_string (ticket_id rating) = key)
                    satisfactionRatings) with
      | Some rating => Some rating
      | None =>
          if decide (key ∈ Object_prototype_members)
          then Some {| ticket_id := VUndefined; score := VUndefined |}
          else None
      end.
Proof.
  intros ratings key _. unfold ratingsMap_get.
  assert (ratingsMap_of ratings !! key
          = last (filter (fun rating =>
                            truthy (ticket_id rating) = true
                            ∧ to_string (ticket_id rating) = key) ratings))
    as ->; [|done].
  unfold ratingsMap_of.
  induction ratings as [|rating ratings IH] using rev_ind; [done|].
  rewrite foldl_snoc, filter_app.
  destruct (truthy (ticket_id rating)) eqn:Htruthy.
  - destruct (decide (to_string (ticket_id rating) = key)) as [<-|Hne].
    + rewrite lookup_insert_eq, filter_cons_True by done.
      by rewrite filter_nil, last_snoc.
    + rewrite lookup_insert_ne by done.
      rewrite filter_cons_False by (intros [_ ?]; done).
      by rewrite filter_nil, app_nil_r.
  - rewrite filter_cons_False by (intros [? _]; congruence).
    by rewrite filter_nil, app_nil_r.
Qed.
End TicketRatings.

Lemma ratingsMap_of_lookup_witness :
  Zendesk.ratingsMap_get
    (Zendesk.ratingsMap_of (host := UTCHost.host)
       [Examples.rating_bad_17; Examples.rating_good_17]) "17"
  = Some Examples.rating_good_17
  ∧ Zendesk.ratingsMap_get
      (Zendesk.ratingsMap_of (host := UTCHost.host)
         [Examples.rating_bad_17; Examples.rating_good_17]) "constructor"
    = Some {| Zendesk.ticket_id := JS.VUndefined;
              Zendesk.score := JS.VUndefined |}
  ∧ Zendesk.ratingsMap_get
      (Zendesk.ratingsMap_of (host := UTCHost.host)
         [Examples.rating_bad_17; Examples.rating_good_17]) "18"
    = None.
Proof.
  assert (Forall Shapes.rating_typed
            [Examples.rating_bad_17; Examples.rating_good_17]) as Htyped.
  { repeat (apply Forall_cons; split; [|try by apply Forall_nil]);
      right; exists 17; (split; [done|lia]). }
  split_and!.
  - by rewrite (ratingsMap_of_lookup (host := UTCHost.host)
                  [Examples.rating_bad_17; Examples.rating_good_17] "17"
                  Htyped).
  - by rewrite (ratingsMap_of_lookup (host := UTCHost.host)
                  [Examples.rating_bad_17; Examples.rating_good_17]
                  "constructor" Htyped).
  - by rewrite (ratingsMap_of_lookup (host := UTCHost.host)
                  [Examples.rating_bad_17; Examples.rating_good_17] "18"
                  Htyped).
Defined.

(** ** The pages of tickets and of satisfaction ratings *)

Section ZendeskPages.
Import JS ZendeskRun.
Context {A : Type}.
Variable get : nat -> option value -> response A.
Variable limit : nat.

Lemma fetch_pages_loop_returns fuel all nextPage pageCount :
  (1 <= fuel)%nat -> (limit <= fuel + pageCount)%nat ->
  exists gathered,
    fetch_pages_loop get limit fuel all nextPage pageCount = Some gathered.
Proof.
  revert all nextPage pageCount.
  induction fuel as [|fuel IH]; intros all nextPage pageCount Hfuel Hmax;
    [lia|].
  cbn [fetch_pages_loop].
  destruct (get _ _) as [e|items next_page]; [by eexists|].
  destruct (0 <? _)%nat; [|by eexists].
  destruct (truthy next_page); cbn [andb]; [|by eexists].
  destruct (Nat.ltb_spec (S pageCount) limit); [|by eexists].
  apply IH; lia.
Qed.

Lemma fetch_pages_returns :
  exists gathered, fetch_pages get limit = Some gathered.
Proof. apply fetch_pages_loop_returns; lia. Qed.

Lemma fetch_pages_loop_length n fuel all nextPage pageCount gathered :
  (forall i url items next_page,
     get i url = Resolved items next_page ->
     (length (default [] items) <= n)%nat) ->
  fetch_pages_loop get limit fuel all nextPage pageCount = Some gathered ->
  (length gathered <= length all + (1 `max` (limit - pageCount)) * n)%nat.
Proof.
  intros Hn. revert all nextPage pageCount.
  induction fuel as [|fuel IH]; intros all nextPage pageCount; [done|].
  cbn [fetch_pages_loop].
  destruct (get _ _) as [e|items next_page] eqn:Hget.
  { intros [= <-]. lia. }
  apply Hn in Hget.
  destruct (0 <? _)%nat; [|intros [= <-]; lia].
  destruct (truthy next_page); cbn [andb].
  2:{ intros [= <-]. rewrite length_app. nia. }
  destruct (Nat.ltb_spec (S pageCount) limit).
  2:{ intros [= <-]. rewrite length_app. nia. }
  intros Hrec%IH. rewrite length_app in Hrec. nia.
Qed.

(** The pages of a well-behaved API: page [i] is answered to the request
    that follows the [next_page] of page [i - 1], no page is empty, and
    [next] is truthy up to the last page. *)
Variable page : nat -> list A.
Variable next : nat -> value.
Variable k : nat.
Hypothesis Hget :
  forall i, (1 <= i <= k)%nat ->
    get i (if (i =? 1)%nat then None else Some (next (i - 1)))
    = Resolved (Some (page i)) (next i).
Hypothesis Hpage : forall i, (1 <= i <= k)%nat -> page i ≠ [].
Hypothesis Hnext : forall i, (1 <= i < k)%nat -> truthy (next i) = true.
Hypothesis Hlast : truthy (next k) = false ∨ k = limit.
Hypothesis Hk : (1 <= k <= limit)%nat.

Lemma fetch_pages_loop_chain d j fuel all nextPage :
  (j + d = k)%nat -> (1 <= d)%nat -> (d <= fuel)%nat ->
  nextPage = (if (j =? 0)%nat then VNull else next j) ->
  fetch_pages_loop get limit fuel all nextPage j
  = Some (all ++ concat (page <$> seq (S j) d)).
Proof.
  revert j fuel all nextPage.
  induction d as [|d IH]; intros j fuel all nextPage Hj Hd Hfuel ->; [lia|].
  destruct fuel as [|fuel]; [lia|]. cbn [fetch_pages_loop].
  assert ((if truthy (if (j =? 0)%nat then VNull else next j)
           then Some (if (j =? 0)%nat then VNull else next j) else None)
          = (if (S j =? 1)%nat then None else Some (next (S j - 1)))) as ->.
  { destruct j as [|j]; [done|]. cbn [Nat.eqb].
    by rewrite Hnext by lia. }
  rewrite Hget by lia. cbn [from_option id].
  destruct (Nat.ltb_spec 0 (length (page (S j)))) as [_|Hempty].
  2:{ destruct (Hpage (S j)); [lia|]. destruct (page (S j)); [done|].
      cbn in Hempty. lia. }
  destruct (decide (d = 0%nat)) as [->|Hd0].
  - assert (truthy (next (S j)) && (S j <? limit)%nat = false) as ->.
    { destruct Hlast as [Hfalse| ->].
      - replace (S j) with k by lia. by rewrite Hfalse.
      - replace (S j) with limit by lia. rewrite Nat.ltb_irrefl.
        apply andb_false_r. }
    cbn. by rewrite app_nil_r.
  - rewrite Hnext by lia.
    destruct (Nat.ltb_spec (S j) limit); [|lia]. cbn [andb].
    rewrite (IH (S j)); [|lia|lia|lia|done].
    cbn [seq fmap list_fmap concat]. by rewrite <- app_assoc.
Qed.

(** X10.  Against an API that chains [k] pages, none of them empty, the
    fetch follows [next_page] from page to page and returns the items of
    all [k] pages in order, both for the tickets (limit 200) and for the
    satisfaction ratings (limit 50); it stops at the first falsy
    [next_page], or at the limit. *)
Theorem fetch_pages_follows_next_page :
  fetch_pages get limit = Some (concat (page <$> seq 1 k)).
Proof.
  unfold fetch_pages.
  by rewrite (fetch_pages_loop_chain k 0) by (done || lia).
Qed.
End ZendeskPages.

(** X11.  The fetch of the tickets makes at most 200 requests and the
    fetch of the satisfaction ratings at most 50: when no page holds more
    than [n] items they return at most [200 * n] tickets and [50 * n]
    ratings, whatever the API has beyond. *)
Theorem zendesk_fetch_bounds :
  forall (get_tickets : nat -> option JS.value
                        -> ZendeskRun.response Zendesk.ticket)
         (get_ratings : nat -> option JS.value
                        -> ZendeskRun.response Zendesk.satisfaction)
         (n : nat),
    (forall i url items next_page,
       get_tickets i url = ZendeskRun.Resolved items next_page ->
       (length (default [] items) <= n)%nat) ->
    (forall i url items next_page,
       get_ratings i url = ZendeskRun.Resolved items next_page ->
       (length (default [] items) <= n)%nat) ->
    (exists tickets,
       ZendeskRun.fetchAllTickets get_tickets = Some tickets
       ∧ (length tickets <= 200 * n)%nat)
    ∧ (exists ratings,
         ZendeskRun.fetchSatisfactionRatings get_ratings = Some ratings
         ∧ (length ratings <= 50 * n)%nat).
Proof.
  intros get_tickets get_ratings n Htickets Hratings. split.
  - destruct (fetch_pages_returns get_tickets 200) as [tickets Hfetch].
    exists tickets. split; [done|].
    apply (fetch_pages_loop_length get_tickets 200 n) in Hfetch; [|done].
    cbn [length] in Hfetch. lia.
  - destruct (fetch_pages_returns get_ratings 50) as [ratings Hfetch].
    exists ratings. split; [done|].
    apply (fetch_pages_loop_length get_ratings 50 n) in Hfetch; [|done].
    cbn [length] in Hfetch. lia.
Qed.

Lemma fetch_pages_follows_next_page_witness :
  ZendeskRun.fetchAllTickets Fixtures.two_pages
  = Some (Fixtures.tickets_page_1 ++ Fixtures.tickets_page_2).
Proof.
  apply (fetch_pages_follows_next_page Fixtures.two_pages 200
           (fun i => match i with
                     | 1%nat => Fixtures.tickets_page_1
                     | 2%nat => Fixtures.tickets_page_2
                     | _ => []
                     end)
           (fun i => match i with
                     | 1%nat => JS.VStr "https://x/2"
                     | _ => JS.VNull
                     end)
           2).
  - intros [|[|[|i]]] Hi; (lia || reflexivity).
  - intros [|[|[|i]]] Hi; (lia || done).
  - intros [|[|i]] Hi; (lia || reflexivity).
  - by left.
  - lia.
Defined.

Lemma zendesk_fetch_bounds_witness :
  exists tickets,
    ZendeskRun.fetchAllTickets Fixtures.two_pages = Some tickets
    ∧ (length tickets <= 200 * 2)%nat.
Proof.
  apply (zendesk_fetch_bounds Fixtures.two_pages Fixtures.no_ratings 2).
  - intros [|[|[|i]]] url items next_page; cbn; intros [= <- _]; cbn; lia.
  - intros i url items next_page. cbn. intros [= <- _]. cbn. lia.
Defined.

(** ** The run of the Zendesk script *)

Section ZendeskScript.
Import JS Zendesk ZendeskRun.
Context {host : Host} {fs : FileSystem file_content}.
Variable get_tickets : nat -> option value -> response ticket.
Variable get_ratings : nat -> option value -> response satisfaction.

Lemma scrapeZendeskData_unfold cfg timestamp :
  exists tickets satisfactionRatings,
    fetchAllTickets get_tickets = Some tickets
    ∧ fetchSatisfactionRatings get_ratings = Some satisfactionRatings
    ∧ scrapeZendeskData cfg get_tickets get_ratings timestamp
      = Some (try_catch
                (io_bind (lift (validate cfg)) (fun _ =>
                 save_tickets timestamp tickets satisfactionRatings))
                console_error).
Proof.
  destruct (fetch_pages_returns get_tickets 200) as [tickets Ht].
  destruct (fetch_pages_returns get_ratings 50) as [ratings Hr].
  exists tickets, ratings. unfold scrapeZendeskData, fetchAllTickets,
    fetchSatisfactionRatings. by rewrite Ht, Hr.
Qed.

(** X12.  With a credential that is missing, or still the placeholder of
    the script, the run prints one error and writes nothing, whatever the
    API would have answered. *)
Theorem scrapeZendeskData_misconfigured :
  forall cfg : config,
    truthy (subdomain cfg) = false ∨ truthy (email cfg) = false
    ∨ truthy (apiToken cfg) = false
    ∨ subdomain cfg = VStr "your-subdomain"
    ∨ email cfg = VStr "your-email@domain.com"
    ∨ apiToken cfg = VStr "your-api-token" ->
    exists e,
      validate cfg = Throw e
      ∧ forall (timestamp : string) (w : world),
          exists io,
            scrapeZendeskData cfg get_tickets get_ratings timestamp
            = Some io
            ∧ io w
              = (Ok tt,
                 {| files := files w;
                    trace := trace w ++ [ConsoleError e] |}).
Proof.
  intros cfg Hcfg.
  assert (exists e, validate cfg = Throw e) as [e He].
  { unfold validate.
    destruct (negb (truthy (subdomain cfg)) || negb (truthy (email cfg))
              || negb (truthy (apiToken cfg))) eqn:Hmissing;
      [by eexists|].
    apply orb_false_elim in Hmissing as [Hmissing H3].
    apply orb_false_elim in Hmissing as [H1 H2].
    apply negb_false_iff in H1, H2, H3.
    destruct Hcfg as [H|[H|[H|[H|[H|H]]]]]; try congruence;
      rewrite H; cbn; rewrite ?orb_true_r; by eexists. }
  exists e. split; [done|]. intros timestamp w.
  destruct (scrapeZendeskData_unfold cfg timestamp)
    as (tickets & ratings & _ & _ & ->).
  eexists. split; [done|].
  unfold try_catch, io_bind, lift. by rewrite He.
Qed.

Lemma imapM_from_Ok_inv {A B} (f : nat -> A -> result B) l k ys :
  imapM_from k f l = Ok ys ->
  forall j x, l !! j = Some x -> exists y, f (k + j)%nat x = Ok y.
Proof.
  revert k ys. induction l as [|x l IH]; intros k ys; [done|].
  cbn. destruct (f k x) as [y|] eqn:Hy; [|done]. cbn.
  destruct (imapM_from (S k) f l) as [ys'|] eqn:Hys; [|done].
  intros _ [|j] x'; cbn.
  - intros [= <-]. rewrite Nat.add_0_r. by eexists.
  - intros Hj. destruct (IH _ _ Hys j x' Hj) as [y' Hy'].
    exists y'. by replace (k + S j)%nat with (S k + j)%nat by lia.
Qed.

(** What a run leaves in its trace, case by case. *)
Lemma save_tickets_trace timestamp tickets ratings (w : world) :
  let tr := trace (try_catch
                     (save_tickets timestamp tickets ratings)
                     console_error w).2 in
  (exists e, tr = trace w ++ [ConsoleError e])
  ∨ tr = trace w
  ∨ exists reviews rows,
      tickets ≠ []
      ∧ convertTicketsToReviews tickets ratings = Ok reviews
      ∧ mapM csv_row reviews = Ok rows
      ∧ let csv := WriteFile (csvFilename timestamp)
                     (CsvText (csv_header +:+ join_strings newline rows)) in
        let json := WriteFile (jsonFilename timestamp) (JsonArray reviews) in
        let dash := WriteFile dashboardJsonPath (JsonArray reviews) in
        (exists e, tr = trace w ++ [csv; ConsoleError e])
        ∨ (exists e, tr = trace w ++ [csv; json; ConsoleError e])
        ∨ (exists e, tr = trace w ++ [csv; json; dash; ConsoleError e])
        ∨ tr = trace w ++ [csv; json; dash].
Proof.
  intros tr. subst tr. unfold save_tickets.
  destruct tickets as [|t tickets]; [right; by left|].
  cbn [length Nat.eqb].
  assert (t :: tickets ≠ []) as Hne by done.
  revert Hne. generalize (t :: tickets). clear t tickets.
  intros tickets Hne.
  cbv beta iota zeta
    delta [try_catch io_bind lift fs_writeFileSync io_ret console_error].
  destruct (convertTicketsToReviews tickets ratings) as [reviews|e]
    eqn:Hconv.
  2:{ left. by exists e. }
  destruct (mapM csv_row reviews) as [rows|e] eqn:Hrows.
  2:{ left. by exists e. }
  right. right. exists reviews, rows. split_and!; [done..|].
  destruct (writeFileSync (csvFilename timestamp) (CsvText _) (files w))
    as [[e|] files1]; cbn [files trace snd].
  { left. exists e. by rewrite <- app_assoc. }
  destruct (writeFileSync (jsonFilename timestamp) (JsonArray _) files1)
    as [[e|] files2]; cbn [files trace snd].
  { right. left. exists e. by rewrite <- !app_assoc. }
  destruct (writeFileSync dashboardJsonPath (JsonArray _) files2)
    as [[e|] files3]; cbn [files trace snd].
  { right. right. left. exists e. by rewrite <- !app_assoc. }
  right. right. right. by rewrite <- !app_assoc.
Qed.

Lemma scrapeZendeskData_trace cfg timestamp files0 io :
  scrapeZendeskData cfg get_tickets get_ratings timestamp = Some io ->
  exists tickets ratings,
    fetchAllTickets get_tickets = Some tickets
    ∧ fetchSatisfactionRatings get_ratings = Some ratings
    ∧ ((exists e, validate cfg = Throw e
                  ∧ trace (io {| files := files0; trace := [] |}).2
                    = [ConsoleError e])
       ∨ (validate cfg = Ok tt
          ∧ trace (io {| files := files0; trace := [] |}).2
            = trace (try_catch
                       (save_tickets timestamp tickets ratings)
                       console_error
                       {| files := files0; trace := [] |}).2)).
Proof.
  destruct (scrapeZendeskData_unfold cfg timestamp)
    as (tickets & ratings & Ht & Hr & ->).
  intros [= <-]. exists tickets, ratings. split_and!; [done..|].
  cbv beta iota zeta delta [try_catch io_bind lift].
  destruct (validate cfg) as [[]|e].
  - right. by split.
  - left. by exists e.
Qed.

(** X13.  The files are written in one order: the CSV, then the JSON,
    then the copy of the JSON for the dashboard; a failure stops the run
    there, so the files written are always a beginning of that list.  The
    copy for the dashboard holds the same records as the JSON file. *)
Theorem scrapeZendeskData_writes_in_order :
  forall (cfg : config) (timestamp : string) (files0 : fs_state),
    exists io,
      scrapeZendeskData cfg get_tickets get_ratings timestamp = Some io
      ∧ let tr := trace (io {| files := files0; trace := [] |}).2 in
        Aux.written_files tr
          `prefix_of` [csvFilename timestamp; jsonFilename timestamp;
                       dashboardJsonPath]
        ∧ exists reviews,
            forall filename written,
              WriteFile filename (JsonArray written) ∈ tr ->
              written = reviews.
Proof.
  intros cfg timestamp files0.
  destruct (scrapeZendeskData_unfold cfg timestamp)
    as (tickets0 & ratings0 & _ & _ & Hio).
  eexists. split; [exact Hio|].
  set (io := try_catch _ _) in *. intros tr.
  destruct (scrapeZendeskData_trace cfg timestamp files0 io Hio)
    as (tickets & ratings & _ & _ & [(e & _ & Htr)|[_ Htr]]).
  { unfold tr. rewrite Htr. split; [by eexists|].
    exists []. intros f written [?|[]%elem_of_nil]%elem_of_cons. done. }
  unfold tr. rewrite Htr.
  destruct (save_tickets_trace timestamp tickets ratings
              {| files := files0; trace := [] |})
    as [[e ->]|[->|(reviews & rows & _ & _ & _ & Hcases)]];
    cbn [trace app].
  - split; [by eexists|].
    exists []. intros f written [?|[]%elem_of_nil]%elem_of_cons. done.
  - split; [by eexists|]. exists []. by intros f written []%elem_of_nil.
  - cbn zeta in Hcases.
    destruct Hcases as [[e ->]|[[e ->]|[[e ->]| ->]]]; cbn [app];
      (split; [by eexists|]); exists reviews; intros f written Hin;
      repeat (apply elem_of_cons in Hin as [Hin|Hin]; [by simplify_eq|]);
      by apply elem_of_nil in Hin.
Qed.

(** X14.  The run writes all or nothing of its tickets: as soon as one
    file is written, the configuration passed the checks, there was at
    least one ticket, every fetched ticket could be converted and every
    CSV line could be built.  One ticket that cannot be converted keeps
    all three files from being written. *)
Theorem scrapeZendeskData_all_or_nothing :
  forall (cfg : config) (timestamp : string) (files0 : fs_state),
    exists io,
      scrapeZendeskData cfg get_tickets get_ratings timestamp = Some io
      ∧ (Aux.written_files
           (trace (io {| files := files0; trace := [] |}).2) ≠ [] ->
         validate cfg = Ok tt
         ∧ exists tickets ratings reviews rows,
             fetchAllTickets get_tickets = Some tickets
             ∧ fetchSatisfactionRatings get_ratings = Some ratings
             ∧ tickets ≠ []
             ∧ Forall Described.convertible tickets
             ∧ convertTicketsToReviews tickets ratings = Ok reviews
             ∧ mapM csv_row reviews = Ok rows).
Proof.
  intros cfg timestamp files0.
  destruct (scrapeZendeskData_unfold cfg timestamp)
    as (tickets0 & ratings0 & _ & _ & Hio).
  eexists. split; [exact Hio|].
  set (io := try_catch _ _) in *. revert Hio. generalize io. clear io.
  intros io Hio.
  destruct (scrapeZendeskData_trace cfg timestamp files0 io Hio)
    as (tickets & ratings & Ht & Hr & [(e & _ & ->)|[Hcfg ->]]); [done|].
  destruct (save_tickets_trace timestamp tickets ratings
              {| files := files0; trace := [] |})
    as [[e ->]|[->|(reviews & rows & Hne & Hconv & Hrows & _)]];
    cbn [trace app]; [done..|].
  intros _. split; [done|].
  exists tickets, ratings, reviews, rows. split_and!; try done.
  apply Forall_lookup. intros i t Hi.
  apply (convertTicket_Ok (ratingsMap_of ratings) (0 + i)).
  by apply (imapM_from_Ok_inv _ tickets 0 reviews).
Qed.

Lemma convertTicket_rating ratingsMap i t entry :
  convertTicket ratingsMap i t = Ok entry ->
  Json.rating entry
  = determine_rating t (ratingsMap_get ratingsMap (to_string (id t))).
Proof.
  unfold convertTicket.
  destruct (if truthy (created_at t) then _ else _); [|done]. cbn.
  destruct (extractTicketText t); [|done]. cbn. by intros [= <-].
Qed.

Lemma imapM_from_Forall {A B} (P : B -> Prop) (f : nat -> A -> result B)
    l k ys :
  (forall i x y, f i x = Ok y -> P y) ->
  imapM_from k f l = Ok ys -> Forall P ys.
Proof.
  intros Hf. revert k ys. induction l as [|x l IH]; intros k ys; cbn.
  - intros [= <-]. constructor.
  - destruct (f k x) as [y|] eqn:Hy; [|done]. cbn.
    destruct (imapM_from (S k) f l) as [ys'|] eqn:Hys; [|done]. cbn.
    intros [= <-]. constructor; [by eapply Hf|by eapply IH].
Qed.

Lemma star_count_cons i n l :
  star_count i (VNum n :: l)
  = ((if Z.eqb n i then 1 else 0) + star_count i l)%nat.
Proof.
  unfold star_count. destruct (n =? i) eqn:Hn.
  - by rewrite filter_cons_True by (cbn; by rewrite Hn).
  - by rewrite filter_cons_False by (cbn; by rewrite Hn).
Qed.

Lemma star_counts_sum ratings :
  Forall Described.canonical_rating ratings ->
  (star_count 1 (filter (fun r => truthy r = true) ratings)
   + star_count 2 (filter (fun r => truthy r = true) ratings)
   + star_count 3 (filter (fun r => truthy r = true) ratings)
   + star_count 4 (filter (fun r => truthy r = true) ratings)
   + star_count 5 (filter (fun r => truthy r = true) ratings)
   = length (filter (fun r => truthy r = true) ratings))%nat.
Proof.
  induction 1 as [|r ratings Hr _ IH]; [done|].
  destruct Hr as [->|(n & -> & Hn)].
  - by rewrite filter_cons_False by done.
  - rewrite filter_cons_True by (cbn; by destruct n; try lia).
    rewrite !star_count_cons. cbn [length]. rewrite <- IH.
    assert (n = 1 ∨ n = 2 ∨ n = 3 ∨ n = 4 ∨ n = 5) as Hcases by lia.
    destruct Hcases as [->|[->|[->|[->| ->]]]];
      cbn [Z.eqb Pos.eqb]; lia.
Qed.

(** X15.  The distribution of the ratings printed at the end of the run
    accounts for every rated ticket: the five counts, from one star to
    five, add up to the number of reviews with a rating. *)
Theorem zendesk_star_counts_add_up :
  forall (tickets : list ticket) (satisfactionRatings : list satisfaction)
         (reviews : list Json.entry),
    convertTicketsToReviews tickets satisfactionRatings = Ok reviews ->
    (star_count 1 (rated reviews) + star_count 2 (rated reviews)
     + star_count 3 (rated reviews) + star_count 4 (rated reviews)
     + star_count 5 (rated reviews)
     = length (rated reviews))%nat.
Proof.
  intros tickets ratings reviews Hconv. unfold rated.
  apply star_counts_sum. apply Forall_fmap.
  eapply (imapM_from_Forall (fun e => Described.canonical_rating
                                        (Json.rating e))); [|exact Hconv].
  intros i t e ->%convertTicket_rating. apply determine_rating_canonical.
Qed.
End ZendeskScript.

Lemma scrapeZendeskData_misconfigured_witness :
  exists e,
    ZendeskRun.validate Fixtures.placeholder_config = JS.Throw e
    ∧ forall (timestamp : string)
             (w : JS.world (fs := Fixtures.zendesk_disk)),
        exists io,
          ZendeskRun.scrapeZendeskData (host := UTCHost.host)
            (fs := Fixtures.zendesk_disk) Fixtures.placeholder_config
            Fixtures.two_pages Fixtures.one_rating timestamp
          = Some io
          ∧ io w
            = (JS.Ok tt,
               JS.Build_world (fs := Fixtures.zendesk_disk) (JS.files w)
                 (JS.trace w ++ [JS.ConsoleError e])).
Proof.
  apply (scrapeZendeskData_misconfigured (host := UTCHost.host)
           (fs := Fixtures.zendesk_disk) Fixtures.two_pages
           Fixtures.one_rating Fixtures.placeholder_config).
  right. right. right. left. reflexivity.
Defined.

Lemma scrapeZendeskData_writes_in_order_witness :
  exists io,
    ZendeskRun.scrapeZendeskData (host := UTCHost.host)
      (fs := Fixtures.zendesk_disk) Fixtures.good_config
      Fixtures.two_pages Fixtures.one_rating Examples.timestamp
    = Some io
    ∧ let tr :=
        JS.trace (io (JS.Build_world (fs := Fixtures.zendesk_disk) [] [])).2
      in
      Aux.written_files tr
        `prefix_of` [ZendeskRun.csvFilename Examples.timestamp;
                     ZendeskRun.jsonFilename Examples.timestamp;
                     ZendeskRun.dashboardJsonPath]
      ∧ exists reviews,
          forall filename written,
            JS.WriteFile filename (ZendeskRun.JsonArray written) ∈ tr ->
            written = reviews.
Proof.
  apply (scrapeZendeskData_writes_in_order (host := UTCHost.host)
           (fs := Fixtures.zendesk_disk) Fixtures.two_pages
           Fixtures.one_rating Fixtures.good_config Examples.timestamp []).
Defined.

Lemma scrapeZendeskData_all_or_nothing_witness :
  ZendeskRun.validate Fixtures.good_config = JS.Ok tt
  ∧ exists tickets ratings reviews rows,
      ZendeskRun.fetchAllTickets Fixtures.two_pages = Some tickets
      ∧ ZendeskRun.fetchSatisfactionRatings Fixtures.one_rating
        = Some ratings
      ∧ tickets ≠ []
      ∧ Forall (Described.convertible (host := UTCHost.host)) tickets
      ∧ Zendesk.convertTicketsToReviews (host := UTCHost.host)
          tickets ratings = JS.Ok reviews
      ∧ JS.mapM (ZendeskRun.csv_row (host := UTCHost.host)) reviews
        = JS.Ok rows.
Proof.
  destruct (scrapeZendeskData_all_or_nothing (host := UTCHost.host)
              (fs := Fixtures.zendesk_disk) Fixtures.two_pages
              Fixtures.one_rating Fixtures.good_config Examples.timestamp
              []) as (io & Hio & Hwritten).
  apply Hwritten. vm_compute in Hio. injection Hio as <-.
  vm_compute. discriminate.
Defined.

Lemma zendesk_star_counts_add_up_witness :
  exists reviews,
    Zendesk.convertTicketsToReviews (host := UTCHost.host)
      (Fixtures.tickets_page_1 ++ Fixtures.tickets_page_2)
      [Examples.rating_good_17]
    = JS.Ok reviews
    ∧ (ZendeskRun.star_count 1 (ZendeskRun.rated reviews)
       + ZendeskRun.star_count 2 (ZendeskRun.rated reviews)
       + ZendeskRun.star_count 3 (ZendeskRun.rated reviews)
       + ZendeskRun.star_count 4 (ZendeskRun.rated reviews)
       + ZendeskRun.star_count 5 (ZendeskRun.rated reviews)
       = length (ZendeskRun.rated reviews))%nat.
Proof.
  eexists. split; [vm_compute; reflexivity|].
  eapply (zendesk_star_counts_add_up (host := UTCHost.host)
            (Fixtures.tickets_page_1 ++ Fixtures.tickets_page_2)
            [Examples.rating_good_17]).
  vm_compute. reflexivity.
Defined.

(** ** The run of the single App Store script *)

Section AppStoreRun.
Import JS AppStore.
Context {host : Host} {fs : FileSystem file_content}.
Variable store_reviews : string -> nat -> response.

Lemma fetch_loop_rejected_at k e d fuel all pageCount :
  (forall p, (1 <= p < k)%nat ->
             exists page, store_reviews "us" p = Resolved (Some page)
                          ∧ page ≠ []) ->
  store_reviews "us" k = RejectedWith e ->
  (k <= 200)%nat -> (pageCount + S d = k)%nat -> (S d <= fuel)%nat ->
  fetch_loop store_reviews fuel all pageCount = Some (Throw e).
Proof.
  intros Hpages Hk Hmax. revert fuel all pageCount.
  induction d as [|d IH]; intros fuel all pageCount Hd Hfuel;
    (destruct fuel as [|fuel]; [lia|]).
  - apply fetch_loop_rejected. by replace (S pageCount) with k by lia.
  - destruct (Hpages (S pageCount)) as (page & Hpage & Hne); [lia|].
    rewrite (fetch_loop_next_page store_reviews fuel all pageCount page)
      by (done || lia).
    apply IH; lia.
Qed.

(** X16.  The single App Store script keeps nothing of a failed fetch:
    when the request of some page is rejected, even after many pages were
    gathered, the run prints the error and writes neither file. *)
Theorem appstore_rejected_page_writes_nothing :
  forall (k : nat) (e : error),
    (1 <= k <= 200)%nat ->
    (forall p, (1 <= p < k)%nat ->
               exists page, store_reviews "us" p = Resolved (Some page)
                            ∧ page ≠ []) ->
    store_reviews "us" k = RejectedWith e ->
    forall (timestamp : string) (w : world),
      exists io,
        scrapeAllReviews store_reviews timestamp = Some io
        ∧ io w
          = (Ok tt,
             {| files := files w; trace := trace w ++ [ConsoleError e] |}).
Proof.
  intros k e Hk Hpages Hrejected timestamp w.
  unfold scrapeAllReviews.
  rewrite (fetch_loop_rejected_at k e (k - 1) 200 [] 0) by (done || lia).
  eexists. split; [done|]. reflexivity.
Qed.

Lemma csv_row_date r row :
  csv_row r = Ok row ->
  exists date rest,
    format_date r = Ok date
    ∧ row = dq +:+ date +:+ dq +:+ "," +:+ rest.
Proof.
  unfold csv_row. destruct (format_date r) as [date|]; [|done]. cbn.
  destruct (replace_quotes (or_else (userName r) _)); [|done]. cbn.
  destruct (replace_quotes (or_else (title r) _)); [|done]. cbn.
  destruct (replace_quotes (or_else (text r) _)); [|done]. cbn.
  destruct (replace_quotes (or_else (version r) _)); [|done]. cbn.
  intros [= <-]. by eexists _, _.
Qed.

Lemma json_follows_csv_from i allReviews rows :
  mapM csv_row allReviews = Ok rows ->
  exists jsonData,
    imapM_from i json_entry allReviews = Ok jsonData
    ∧ Forall2 (fun row e =>
                 exists rest,
                   row = dq +:+ Json.date e +:+ dq +:+ "," +:+ rest)
              rows jsonData
    ∧ Forall2 (fun r e =>
                 Json.author e = or_else (userName r) (VStr "Anonymous")
                 ∧ Json.rating e = or_else (score r) VNull)
              allReviews jsonData.
Proof.
  revert i rows. induction allReviews as [|r rest IH]; intros i rows; cbn.
  - intros [= <-]. exists []. by split_and!.
  - destruct (csv_row r) as [row|] eqn:Hrow; [|done]. cbn.
    destruct (mapM csv_row rest) as [rows'|] eqn:Hrows; [|done]. cbn.
    intros [= <-].
    destruct (csv_row_date r row Hrow) as (date & tail & Hdate & ->).
    destruct (IH (S i) rows' eq_refl) as (jsonData & -> & Hdates & Hfields).
    unfold json_entry at 1. rewrite Hdate. cbn.
    eexists. split; [done|]. split; constructor; try done.
    cbn. by eexists.
Qed.

(** X17.  Once the lines of the CSV were built, building the records of
    the JSON file cannot fail: there is one record per line, in the same
    order, each line starts with the quoted date of its record, and each
    record has the user name of its review, or Anonymous, as author and
    its score, or null, as rating. *)
Theorem appstore_json_follows_csv :
  forall (allReviews : list review) (rows : list string),
    mapM csv_row allReviews = Ok rows ->
    exists jsonData,
      imapM json_entry allReviews = Ok jsonData
      ∧ Forall2 (fun row e =>
                   exists rest,
                     row = dq +:+ Json.date e +:+ dq +:+ "," +:+ rest)
                rows jsonData
      ∧ Forall2 (fun r e =>
                   Json.author e = or_else (userName r) (VStr "Anonymous")
                   ∧ Json.rating e = or_else (score r) VNull)
                allReviews jsonData.
Proof. intros allReviews rows. apply json_follows_csv_from. Qed.
End AppStoreRun.

Lemma appstore_rejected_page_writes_nothing_witness :
  exists io,
    AppStore.scrapeAllReviews (host := UTCHost.host)
      (fs := Examples.read_only) Fixtures.failing_store Examples.timestamp
    = Some io
    ∧ io (JS.Build_world (fs := Examples.read_only) tt [])
      = (JS.Ok tt,
         JS.Build_world (fs := Examples.read_only) tt
           [JS.ConsoleError (JS.Rejected "socket hang up")]).
Proof.
  apply (appstore_rejected_page_writes_nothing (host := UTCHost.host)
           (fs := Examples.read_only) Fixtures.failing_store 3
           (JS.Rejected "socket hang up")).
  - lia.
  - intros [|[|[|p]]] Hp; try lia; by exists Examples.full_page.
  - reflexivity.
Defined.

Lemma appstore_json_follows_csv_witness :
  exists jsonData,
    JS.imapM (AppStore.json_entry (host := UTCHost.host)) Examples.full_page
    = JS.Ok jsonData
    ∧ Forall2 (fun row e =>
                 exists rest,
                   row = JS.dq +:+ AppStore.Json.date e +:+ JS.dq +:+ ","
                           +:+ rest)
              Examples.full_page_rows jsonData
    ∧ Forall2 (fun r e =>
                 AppStore.Json.author e
                 = JS.or_else (AppStore.userName r) (JS.VStr "Anonymous")
                 ∧ AppStore.Json.rating e
                   = JS.or_else (AppStore.score r) JS.VNull)
              Examples.full_page jsonData.
Proof.
  apply (appstore_json_follows_csv (host := UTCHost.host)).
  vm_compute. reflexivity.
Defined.

(** ** De-duplication in the worldwide App Store script *)

Section AppStoreDedup.
Import JS AppStore AppStoreGlobal.
Context {host : Host}.

Lemma global_loop_inv reviews seen unique :
  (forall key, key ∈ seen <-> key ∈ dedup_key <$> unique) ->
  NoDup (dedup_key <$> unique) ->
  NoDup (dedup_key <$> removeDuplicates_loop reviews seen unique)
  ∧ (exists kept,
       removeDuplicates_loop reviews seen unique = unique ++ kept
       ∧ kept `sublist_of` reviews)
  ∧ forall r,
      r ∈ reviews ->
      dedup_key r ∈ dedup_key <$> removeDuplicates_loop reviews seen unique.
Proof.
  revert seen unique.
  induction reviews as [|r rest IH]; intros seen unique Hseen Hnodup.
  - cbn. split_and!; [done| |by intros r []%elem_of_nil].
    exists []. by rewrite app_nil_r.
  - cbn [removeDuplicates_loop].
    destruct (decide (dedup_key r ∈ seen)) as [Hin|Hnotin].
    + destruct (IH seen unique Hseen Hnodup)
        as (Hout & (kept & Hkept & Hsub) & Hall).
      split_and!; [done| |].
      * exists kept. split; [done|]. by apply sublist_cons.
      * intros r' [->|Hr']%elem_of_cons; [|by apply Hall].
        rewrite Hkept, fmap_app, elem_of_app. left. by apply Hseen.
    + destruct (IH ({[dedup_key r]} ∪ seen) (unique ++ [r]))
        as (Hout & (kept & Hkept & Hsub) & Hall).
      * intros key. rewrite elem_of_union, elem_of_singleton, fmap_app,
          elem_of_app, Hseen. cbn. rewrite list_elem_of_singleton. tauto.
      * rewrite fmap_app. apply NoDup_app. split_and!; [done| |].
        -- intros key Hkey [->|[]%elem_of_nil]%elem_of_cons.
           by apply Hnotin, Hseen.
        -- cbn. apply NoDup_singleton.
      * split_and!; [done| |].
        -- exists (r :: kept). rewrite Hkept, <- app_assoc. split; [done|].
           by apply sublist_skip.
        -- intros r' [->|Hr']%elem_of_cons; [|by apply Hall].
           rewrite Hkept, !fmap_app, !elem_of_app. left. right. cbn.
           by apply list_elem_of_singleton.
Qed.

(** X18.  The worldwide App Store script compares reviews by user name,
    text and [updated] only, each as it prints: the result takes reviews
    of the input in their order, no two of them agree on the three, and
    every review of the input agrees on the three with one that is kept.
    The [date], which the sort and the files fall back on when [updated]
    is missing, plays no part, nor do the score and the country. *)
Theorem appstore_removeDuplicates_by_updated :
  forall allGlobalReviews : list review,
    removeDuplicates allGlobalReviews `sublist_of` allGlobalReviews
    ∧ (forall i j a b,
         removeDuplicates allGlobalReviews !! i = Some a ->
         removeDuplicates allGlobalReviews !! j = Some b ->
         to_string (userName a) = to_string (userName b) ->
         to_string (text a) = to_string (text b) ->
         to_string (updated a) = to_string (updated b) ->
         i = j)
    ∧ (forall r,
         r ∈ allGlobalReviews ->
         exists kept,
           kept ∈ removeDuplicates allGlobalReviews
           ∧ dedup_key kept = dedup_key r).
Proof.
  intros all.
  destruct (global_loop_inv all ∅ [])
    as (Hnodup & (kept & Hkept & Hsub) & Hall).
  { intros key. cbn. rewrite elem_of_nil. set_solver. }
  { constructor. }
  fold (removeDuplicates all) in Hnodup, Hkept, Hall.
  cbn in Hkept. subst kept. split_and!; [done| |].
  - intros i j a b Ha Hb Hname Htext Hupdated.
    eapply NoDup_lookup; [exact Hnodup| |].
    + rewrite list_lookup_fmap, Ha. done.
    + rewrite list_lookup_fmap, Hb. cbn. unfold dedup_key.
      by rewrite Hname, Htext, Hupdated.
  - intros r Hr. apply Hall, list_elem_of_fmap in Hr as (k & Hkey & Hk).
    by exists k.
Qed.
End AppStoreDedup.

(** ** The environment file of the Zendesk script *)

Section EnvFile.
Import JS Zendesk ZendeskRun Reader.

Lemma split_on_spec c s :
  exists first others,
    split_on c s = first :: others
    ∧ free_of c first = true
    ∧ ((others = [] ∧ s = first)
       ∨ exists rest, s = first +:+ String c rest
                      ∧ others = split_on c rest).
Proof.
  induction s as [|x s (first & others & Hsplit & Hfree & Hcases)].
  - exists EmptyString, []. split_and!; [done..|]. by left.
  - cbn [split_on]. destruct (Ascii.eqb_spec x c) as [->|Hx].
    + exists EmptyString, (split_on c s). split_and!; [done..|].
      right. by exists s.
    + rewrite Hsplit. exists (String x first), others.
      split_and!; [done| |].
      * cbn. rewrite Hfree. by destruct (Ascii.eqb_spec x c).
      * destruct Hcases as [[-> ->]|(rest & -> & ->)]; [by left|].
        right. by exists rest.
Qed.

Lemma split_on_free c s : free_of c s = true -> split_on c s = [s].
Proof.
  induction s as [|x s IH]; [done|]. cbn.
  destruct (Ascii.eqb x c); [done|]. cbn. by intros ->%IH.
Qed.

Lemma split_on_app c first rest :
  free_of c first = true ->
  split_on c (first +:+ String c rest) = first :: split_on c rest.
Proof.
  induction first as [|x first IH]; cbn -[String.append].
  - intros _. change (EmptyString +:+ String c rest) with (String c rest).
    cbn. by rewrite Ascii.eqb_refl.
  - change (String x first +:+ String c rest)
      with (String x (first +:+ String c rest)).
    cbn -[String.append]. destruct (Ascii.eqb x c); [done|].
    cbn -[String.append]. by intros ->%IH.
Qed.

Lemma nonempty_true s : nonempty s = true <-> s ≠ EmptyString.
Proof. by destruct s. Qed.

(** X19.  What one line of the environment file assigns.  A line assigns
    something exactly when it starts with a key, an equals sign and a
    value, both without equals sign and not empty; it then assigns the
    trimmed value to the trimmed key, and whatever follows a second equals
    sign is dropped: a token that ends in an equals sign loses it. *)
Theorem env_assignment_spec :
  forall line k v : string,
    env_assignment line = Some (k, v)
    <-> exists key value,
          free_of "=" key = true ∧ free_of "=" value = true
          ∧ key ≠ EmptyString ∧ value ≠ EmptyString
          ∧ k = trim key ∧ v = trim value
          ∧ (line = key +:+ String "=" value
             ∨ exists rest,
                 line = key +:+ String "=" (value +:+ String "=" rest)).
Proof.
  intros line k v. unfold env_assignment. split.
  - destruct (split_on_spec "=" line)
      as (key & others & -> & Hkey & [[-> _]|(tail & -> & ->)]); [done|].
    destruct (split_on_spec "=" tail)
      as (value & others & -> & Hvalue & Hcases).
    destruct (nonempty key) eqn:Hk; [|done].
    destruct (nonempty value) eqn:Hv; [|done]. cbn.
    intros [= <- <-]. exists key, value.
    split_and!; try done; try by apply nonempty_true.
    destruct Hcases as [[_ ->]|(rest & -> & _)]; [by left|].
    right. by exists rest.
  - intros (key & value & Hkey & Hvalue & Hk & Hv & -> & -> & Hline).
    apply nonempty_true in Hk, Hv.
    destruct Hline as [->|[rest ->]]; rewrite split_on_app by done.
    + rewrite (split_on_free _ value) by done. by rewrite Hk, Hv.
    + rewrite split_on_app by done. by rewrite Hk, Hv.
Qed.
End EnvFile.

(** ** The statistics by country of the worldwide Google Play script *)

Section CountryStatistics.
Import JS GooglePlay GooglePlayStats.
Context {host : Host}.

Lemma countryCount_foldl (rs : list review) (m : gmap string Z) c :
  foldl (fun countryCount r =>
           let country := to_string (or_else (country r) (VStr "unknown")) in
           <[country := default 0 (countryCount !! country) + 1]>
             countryCount) m rs !! c
  = let n := length (filter (fun r =>
                 to_string (or_else (country r) (VStr "unknown")) = c) rs) in
    if (n =? 0)%nat then m !! c
    else Some (default 0 (m !! c) + Z.of_nat n).
Proof.
  revert m. induction rs as [|r rs IH]; intros m; [done|].
  cbn [foldl]. rewrite IH. cbn zeta.
  destruct (decide (to_string (or_else (country r) (VStr "unknown")) = c))
    as [Hc|Hc].
  - rewrite filter_cons_True by done. cbn [length Nat.eqb].
    rewrite Hc, lookup_insert_eq. cbn [from_option id].
    destruct (Nat.eqb_spec (length (filter (fun r0 =>
                to_string (or_else (country r0) (VStr "unknown")) = c) rs))
                0) as [->|_]; f_equal; lia.
  - rewrite filter_cons_False by done.
    by rewrite lookup_insert_ne by done.
Qed.

(** X20.  The table of reviews by country holds, for each country, the
    number of reviews whose country reads so, a review without country
    counting as unknown; a country without review is not in the table. *)
Theorem countryCount_counts :
  forall (uniqueReviews : list review) (c : string),
    countryCount uniqueReviews !! c
    = let n := length (filter (fun r =>
                  to_string (or_else (country r) (VStr "unknown")) = c)
                  uniqueReviews) in
      if (n =? 0)%nat then None else Some (Z.of_nat n).
Proof.
  intros rs c. unfold countryCount. rewrite countryCount_foldl. cbn zeta.
  rewrite lookup_empty. cbn [from_option id].
  by destruct (_ =? _)%nat.
Qed.
End CountryStatistics.

(** ** One storefront of the worldwide App Store script *)

Section StorefrontReviews.
Import JS AppStore AppStoreWorldwide Reader.
Variable store_reviews : string -> nat -> response.
Variable countryCode : string.
Variable maxPages : nat.

Lemma storefront_loop_served fuel st ex st' :
  (pageCount st < 1 `max` maxPages)%nat ->
  (pageCount st = 0 ∨ pageCount st < maxPages)%nat ->
  Forall (served store_reviews countryCode maxPages) (allReviews st) ->
  scrapeCountryReviews_loop store_reviews fuel countryCode maxPages st
  = Some (ex, st') ->
  Forall (served store_reviews countryCode maxPages) (allReviews st').
Proof.
  revert st. induction fuel as [|fuel IH]; intros st Hpage Hbound Hst;
    [done|].
  cbn [scrapeCountryReviews_loop].
  destruct (store_reviews countryCode (S (pageCount st)))
    as [e|reviews] eqn:Hstore; [by intros [= <- <-]|].
  destruct (Nat.ltb_spec 0 (length (default [] reviews))) as [Hsome|Hnone].
  - assert (Forall (served store_reviews countryCode maxPages)
              (allReviews st ++ map (with_country countryCode)
                                  (default [] reviews))) as Hall.
    { apply Forall_app. split; [done|].
      apply Forall_forall. intros r (r0 & -> & Hr0)%list_elem_of_fmap.
      destruct reviews as [page|]; [|by apply elem_of_nil in Hr0].
      exists (S (pageCount st)), page, r0.
      split_and!; [lia..|done|done|done]. }
    destruct (length (default [] reviews) <? 5)%nat;
      [by intros [= <- <-]|].
    destruct (Nat.ltb_spec (S (pageCount st)) maxPages);
      [|by intros [= <- <-]].
    apply IH; cbn; [lia|lia|done].
  - destruct (2 <=? _)%nat; [by intros [= <- <-]|].
    destruct (Nat.ltb_spec (S (pageCount st)) maxPages);
      [|by intros [= <- <-]].
    apply IH; cbn; [lia|lia|done].
Qed.

(** X21.  The fetch of one storefront always returns, whatever the
    provider does; every review it returns is a review that the provider
    served for that storefront on one of the pages 1 to [maxPages] (page 1
    when [maxPages] is 0), with its country set to the code of the
    storefront. *)
Theorem storefront_reviews_served_and_tagged :
  exists reviews,
    scrapeCountryReviews store_reviews countryCode maxPages = Some reviews
    ∧ forall r,
        r ∈ reviews ->
        country r = VStr countryCode
        ∧ exists p page r0,
            (1 <= p <= 1 `max` maxPages)%nat
            ∧ store_reviews countryCode p = Resolved (Some page)
            ∧ r0 ∈ page
            ∧ r = with_country countryCode r0.
Proof.
  unfold scrapeCountryReviews, scrapeCountryReviews_run.
  destruct (loop_terminates store_reviews countryCode maxPages
              (S maxPages) initial) as (ex & st' & Hrun & _);
    [cbn; lia..|].
  rewrite Hrun. cbn. exists (allReviews st'). split; [done|].
  intros r Hr.
  assert (Forall (served store_reviews countryCode maxPages)
            (allReviews st')) as Hall.
  { eapply storefront_loop_served; [| | |exact Hrun]; cbn; [lia|lia|done]. }
  rewrite Forall_forall in Hall.
  destruct (Hall r Hr) as (p & page & r0 & Hp & Hpage & Hr0 & ->).
  split; [done|]. by exists p, page, r0.
Qed.
End StorefrontReviews.

(** ** The join of tickets and satisfaction ratings *)

Section TicketJoin.
Import JS Zendesk Shapes.
Context {host : Host}.

Lemma imapM_from_Forall2 {A B} (P : A -> B -> Prop)
    (f : nat -> A -> result B) l k ys :
  (forall i x y, f i x = Ok y -> P x y) ->
  imapM_from k f l = Ok ys -> Forall2 P l ys.
Proof.
  intros Hf. revert k ys. induction l as [|x l IH]; intros k ys; cbn.
  - intros [= <-]. constructor.
  - destruct (f k x) as [y|] eqn:Hy; [|done]. cbn.
    destruct (imapM_from (S k) f l) as [ys'|] eqn:Hys; [|done]. cbn.
    intros [= <-]. constructor; [by eapply Hf|by eapply IH].
Qed.

(** X22.  The conversion gives one review per ticket, in the order of
    the tickets.  With satisfaction ratings of the expected shape and
    tickets whose id is an identifier, a string or missing, it joins each
    ticket with the last satisfaction rating, in the order fetched, whose
    ticket id is truthy and prints like the id of the ticket: the review
    has the score of that rating as satisfaction score.  When there is
    none the score is null, unless the id of the ticket names a member of
    [Object.prototype]: the score is then undefined.  A satisfaction
    rating that matches no ticket leaves no trace. *)
Theorem convertTicketsToReviews_joins_last_rating :
  forall (tickets : list ticket) (satisfactionRatings : list satisfaction)
         (reviews : list Json.entry),
    Forall rating_typed satisfactionRatings ->
    Forall (fun ticket =>
              missing (id ticket) ∨ identifier (id ticket)
              ∨ text (id ticket)) tickets ->
    convertTicketsToReviews tickets satisfactionRatings = Ok reviews ->
    Forall2
      (fun ticket review =>
         Json.ticket_id review = id ticket
         ∧ Json.satisfaction_score review
           = match last (filter (fun rating =>
                                   truthy (ticket_id rating) = true
                                   ∧ to_string (ticket_id rating)
                                     = to_string (id ticket))
                                satisfactionRatings) with
             | Some rating => score rating
             | None =>
                 if decide (to_string (id ticket)
                            ∈ Object_prototype_members)
                 then VUndefined
                 else VNull
             end)
      tickets reviews.
Proof.
  intros tickets ratings reviews _ _.
  unfold convertTicketsToReviews, imapM.
  apply imapM_from_Forall2. intros i t e. unfold convertTicket.
  destruct (if truthy (created_at t) then _ else _); [|done]. cbn.
  destruct (extractTicketText t); [|done]. cbn. intros [= <-]. cbn.
  split; [done|]. unfold ratingsMap_get. rewrite ratingsMap_of_last.
  destruct (last _); [done|]. by case_decide.
Qed.
End TicketJoin.

Lemma convertTicketsToReviews_joins_last_rating_witness :
  exists reviews,
    Zendesk.convertTicketsToReviews (host := UTCHost.host)
      [Examples.ticket_solved_low; Fixtures.ticket_constructor;
       Examples.empty_ticket]
      [Examples.rating_bad_17; Examples.rating_good_17]
    = JS.Ok reviews
    ∧ Forall2
        (fun ticket review =>
           Zendesk.Json.ticket_id review = Zendesk.id ticket
           ∧ Zendesk.Json.satisfaction_score review
             = match last (filter
                             (fun rating =>
                                JS.truthy (Zendesk.ticket_id rating) = true
                                ∧ JS.to_string (host := UTCHost.host)
                                    (Zendesk.ticket_id rating)
                                  = JS.to_string (host := UTCHost.host)
                                      (Zendesk.id ticket))
                             [Examples.rating_bad_17;
                              Examples.rating_good_17]) with
               | Some rating => Zendesk.score rating
               | None =>
                   if decide (JS.to_string (host := UTCHost.host)
                                (Zendesk.id ticket)
                              ∈ Zendesk.Object_prototype_members)
                   then JS.VUndefined
                   else JS.VNull
               end)
        [Examples.ticket_solved_low; Fixtures.ticket_constructor;
         Examples.empty_ticket]
        reviews.
Proof.
  eexists. split; [vm_compute; reflexivity|].
  apply (convertTicketsToReviews_joins_last_rating (host := UTCHost.host)
           [Examples.ticket_solved_low; Fixtures.ticket_constructor;
            Examples.empty_ticket]
           [Examples.rating_bad_17; Examples.rating_good_17]).
  - repeat (apply Forall_cons; split; [|try by apply Forall_nil]);
      right; exists 17; (split; [done|lia]).
  - repeat (apply Forall_cons; split; [|try by apply Forall_nil]).
    + right. left. exists 17. split; [done|lia].
    + right. right. by eexists.
    + left. by left.
  - vm_compute. reflexivity.
Defined.
